(** * geoserverUpload: the batch publisher and the listing utility

    A shallow embedding of [batchPublish.js] (the publish workflow) and of
    [listWfsUrls.js] (the companion listing utility), and the properties of
    the two programs that their design document states.

    Layout:
    - [JS]: JavaScript strings as sequences of UTF-16 code units, and the
      built-ins the programs call on them;
    - [Runtime]: the host (file system, archiver, HTTP, console) as an
      interface, and the monad the asynchronous functions run in;
    - [BatchPublish], [ListWfsUrls]: the two programs;
    - [Sample]: a small concrete host on which the programs run;
    - [JSFacts], [PublishFacts], [ListingFacts]: lemmas and theorems;
    - [Runs], [ListingRuns]: the theorems applied on the concrete host. *)

From Stdlib Require Import List Arith NArith ZArith Bool Ascii String Lia Permutation.
From Stdlib Require Import Floats.PrimFloat Floats.SpecFloat Floats.FloatOps.
Import ListNotations.

Set Implicit Arguments.
Set Warnings "-register-all".

(* ================================================================== *)
(** ** JavaScript strings and string built-ins *)
(* ================================================================== *)

Module JS.

(** A UTF-16 code unit. *)
Definition char16 := N.

(** A JavaScript string: its code units, in order. [length] is [.length]. *)
Definition jsstring := list char16.

(** A string literal of the source, all of whose characters are ASCII. *)
Definition lit (s : string) : jsstring :=
  map N_of_ascii (list_ascii_of_string s).

(** The double quote, which the messages of the source put around names. *)
Definition dq : jsstring := [34%N].

Definition quoted (s : jsstring) : jsstring := dq ++ s ++ dq.

(** [a === b] on strings. *)
Fixpoint str_eqb (a b : jsstring) : bool :=
  match a, b with
  | [], [] => true
  | c :: a', d :: b' => N.eqb c d && str_eqb a' b'
  | _, _ => false
  end.

(** A string in a condition: the empty string is falsy. *)
Definition truthy (s : jsstring) : bool :=
  match s with [] => false | _ :: _ => true end.

(** [s.startsWith(p)]. *)
Fixpoint startsWith (s p : jsstring) {struct p} : bool :=
  match p, s with
  | [], _ => true
  | _ :: _, [] => false
  | c :: p', d :: s' => N.eqb c d && startsWith s' p'
  end.

(** [s.slice(n)] for [0 <= n]. *)
Definition slice (s : jsstring) (n : nat) : jsstring := skipn n s.

(** [s.endsWith(x)]. *)
Definition endsWith (s x : jsstring) : bool :=
  Nat.leb (List.length x) (List.length s)
  && str_eqb (skipn (List.length s - List.length x) s) x.

(** [l.includes(x)] on an array of strings. *)
Definition includes (l : list jsstring) (x : jsstring) : bool :=
  existsb (str_eqb x) l.

(** ECMAScript WhiteSpace and LineTerminator: what [trim] strips and what
    [\s] matches. *)
Definition isWhiteSpace (c : char16) : bool :=
  ((9 <=? c) && (c <=? 13)
   || (c =? 32) || (c =? 160) || (c =? 5760)
   || ((8192 <=? c) && (c <=? 8202))
   || (c =? 8232) || (c =? 8233) || (c =? 8239) || (c =? 8287)
   || (c =? 12288) || (c =? 65279))%N.

Fixpoint trimStart (s : jsstring) : jsstring :=
  match s with
  | c :: s' => if isWhiteSpace c then trimStart s' else s
  | [] => []
  end.

Definition trimEnd (s : jsstring) : jsstring := rev (trimStart (rev s)).

(** [s.trim()]. *)
Definition trim (s : jsstring) : jsstring := trimEnd (trimStart s).

(** [s.replace(/\s+/g, r)]: scanning from the left, each maximal run of
    whitespace is one match and is replaced by [r]; [inRun] says that the
    code unit before the current one belongs to a match already replaced. *)
Fixpoint replaceRuns (r : jsstring) (inRun : bool) (s : jsstring) : jsstring :=
  match s with
  | [] => []
  | c :: s' =>
      if isWhiteSpace c
      then (if inRun then [] else r) ++ replaceRuns r true s'
      else c :: replaceRuns r false s'
  end.

Definition replaceWhitespaceRuns (s r : jsstring) : jsstring :=
  replaceRuns r false s.

(** [String(n)] and [`${n}`] for a non-negative integer. *)
Fixpoint digitsOf (u : Decimal.uint) : jsstring :=
  match u with
  | Decimal.Nil => []
  | Decimal.D0 u' => 48%N :: digitsOf u'
  | Decimal.D1 u' => 49%N :: digitsOf u'
  | Decimal.D2 u' => 50%N :: digitsOf u'
  | Decimal.D3 u' => 51%N :: digitsOf u'
  | Decimal.D4 u' => 52%N :: digitsOf u'
  | Decimal.D5 u' => 53%N :: digitsOf u'
  | Decimal.D6 u' => 54%N :: digitsOf u'
  | Decimal.D7 u' => 55%N :: digitsOf u'
  | Decimal.D8 u' => 56%N :: digitsOf u'
  | Decimal.D9 u' => 57%N :: digitsOf u'
  end.

Definition numberToString (n : N) : jsstring := digitsOf (N.to_uint n).

(** *** Exceptions *)

(** The outcome of an expression that may throw. Of a thrown [Error] the
    programs read the message and nothing else, so the message stands for
    it. *)
Inductive result (A : Type) : Type :=
| Ok (a : A)
| Throw (message : jsstring).

Arguments Ok {A} a.
Arguments Throw {A} message.

(** *** Code points and UTF-8 *)

Definition isHighSurrogate (c : char16) : bool :=
  ((0xD800 <=? c) && (c <=? 0xDBFF))%N.

Definition isLowSurrogate (c : char16) : bool :=
  ((0xDC00 <=? c) && (c <=? 0xDFFF))%N.

Definition pairCodePoint (hi lo : char16) : N :=
  ((hi - 0xD800) * 0x400 + (lo - 0xDC00) + 0x10000)%N.

(** The code points of a string; [None] stands for a surrogate that has no
    partner. *)
Fixpoint codePoints (s : jsstring) : list (option N) :=
  match s with
  | [] => []
  | c :: s' =>
      if isHighSurrogate c then
        match s' with
        | d :: s'' =>
            if isLowSurrogate d
            then Some (pairCodePoint c d) :: codePoints s''
            else None :: codePoints s'
        | [] => [None]
        end
      else if isLowSurrogate c then None :: codePoints s'
      else Some c :: codePoints s'
  end.

(** A string with no unpaired surrogate ([s.isWellFormed()]). Every string
    that Node decodes from bytes (arguments, environment, directory
    listings) is one. *)
Definition isWellFormed (s : jsstring) : bool :=
  forallb (fun cp => match cp with Some _ => true | None => false end)
          (codePoints s).

(** The octets of the UTF-8 encoding of a code point. *)
Definition utf8 (cp : N) : list N :=
  (if cp <? 0x80 then [cp]
   else if cp <? 0x800 then [0xC0 + cp / 0x40; 0x80 + cp mod 0x40]
   else if cp <? 0x10000 then
     [0xE0 + cp / 0x1000; 0x80 + (cp / 0x40) mod 0x40; 0x80 + cp mod 0x40]
   else
     [0xF0 + cp / 0x40000; 0x80 + (cp / 0x1000) mod 0x40;
      0x80 + (cp / 0x40) mod 0x40; 0x80 + cp mod 0x40])%N.

Definition hexDigit (d : N) : char16 :=
  (if d <? 10 then 48 + d else 55 + d)%N.

(** ["%XX"], with upper-case digits. *)
Definition percentEncode (octet : N) : jsstring :=
  [37%N; hexDigit (octet / 16); hexDigit (octet mod 16)].

Definition isAlphaNum (c : char16) : bool :=
  (((65 <=? c) && (c <=? 90)) || ((97 <=? c) && (c <=? 122))
   || ((48 <=? c) && (c <=? 57)))%N.

(** The characters [encodeURIComponent] leaves as they are: letters,
    digits and [- _ . ! ~ * ' ( )]. *)
Definition isUriUnreserved (c : char16) : bool :=
  isAlphaNum c
  || existsb (N.eqb c) [45; 95; 46; 33; 126; 42; 39; 40; 41]%N.

Definition uriMalformed : jsstring := lit "URI malformed".

Fixpoint encodeCodePoints (cps : list (option N)) : result jsstring :=
  match cps with
  | [] => Ok []
  | None :: _ => Throw uriMalformed
  | Some cp :: rest =>
      match encodeCodePoints rest with
      | Ok tail =>
          Ok ((if isUriUnreserved cp then [cp]
               else flat_map percentEncode (utf8 cp)) ++ tail)
      | Throw e => Throw e
      end
  end.

(** [encodeURIComponent(s)]; it throws a [URIError] on an unpaired
    surrogate. *)
Definition encodeURIComponent (s : jsstring) : result jsstring :=
  encodeCodePoints (codePoints s).

(** The bytes of [Buffer.from(s, 'utf8')]: an unpaired surrogate is
    encoded as U+FFFD. *)
Definition utf8Bytes (s : jsstring) : list N :=
  flat_map (fun cp => utf8 (match cp with Some c => c | None => 0xFFFD%N end))
           (codePoints s).

Definition base64Digit (i : N) : char16 :=
  (if i <? 26 then 65 + i
   else if i <? 52 then 97 + (i - 26)
   else if i <? 62 then 48 + (i - 52)
   else if i =? 62 then 43 else 47)%N.

(** [buffer.toString('base64')]. *)
Fixpoint base64 (bytes : list N) : jsstring :=
  match bytes with
  | a :: b :: c :: rest =>
      [base64Digit (a / 4); base64Digit ((a mod 4) * 16 + b / 16);
       base64Digit ((b mod 16) * 4 + c / 64); base64Digit (c mod 64)]
      ++ base64 rest
  | [a; b] =>
      [base64Digit (a / 4); base64Digit ((a mod 4) * 16 + b / 16);
       base64Digit ((b mod 16) * 4); 61]%N
  | [a] =>
      [base64Digit (a / 4); base64Digit ((a mod 4) * 16); 61; 61]%N
  | [] => []
  end.

(** *** URLSearchParams *)

(** The list of name-value pairs of a [URLSearchParams] object. *)
Definition searchParams := list (jsstring * jsstring).

Fixpoint removeName (name : jsstring) (ps : searchParams) : searchParams :=
  match ps with
  | [] => []
  | (n, v) :: ps' =>
      if str_eqb n name then removeName name ps'
      else (n, v) :: removeName name ps'
  end.

(** [params.set(name, value)]: the first pair of that name takes the value
    and the others of that name go; with no such pair, one is appended. *)
Fixpoint paramsSet (ps : searchParams) (name value : jsstring) : searchParams :=
  match ps with
  | [] => [(name, value)]
  | (n, v) :: ps' =>
      if str_eqb n name then (n, value) :: removeName name ps'
      else (n, v) :: paramsSet ps' name value
  end.

(** The application/x-www-form-urlencoded byte serializer: letters, digits
    and [* - . _] stay, a space becomes [+], any other octet is
    percent-encoded. *)
Definition formEncodeOctet (o : N) : jsstring :=
  if isAlphaNum o || existsb (N.eqb o) [42; 45; 46; 95]%N then [o]
  else if (o =? 32)%N then [43%N]
  else percentEncode o.

Definition formEncode (s : jsstring) : jsstring :=
  flat_map formEncodeOctet (utf8Bytes s).

(** [params.toString()]. *)
Fixpoint paramsToString (ps : searchParams) : jsstring :=
  match ps with
  | [] => []
  | [(n, v)] => formEncode n ++ [61%N] ++ formEncode v
  | (n, v) :: ps' =>
      formEncode n ++ [61%N] ++ formEncode v ++ [38%N] ++ paramsToString ps'
  end.

(** *** JSON values *)

(** What [JSON.parse] produces. An object is its own properties in
    insertion order, each name once. *)
Inductive json : Type :=
| JNull
| JBool (b : bool)
| JNumber (x : float)
| JString (s : jsstring)
| JArray (items : list json)
| JObject (props : list (jsstring * json)).

Fixpoint lookupProp (props : list (jsstring * json)) (key : jsstring) : option json :=
  match props with
  | [] => None
  | (k, v) :: rest => if str_eqb k key then Some v else lookupProp rest key
  end.

(** A JSON value in a condition: [null], [false], [0], [NaN] and the empty
    string are falsy. *)
Definition jsonTruthy (v : json) : bool :=
  match v with
  | JNull => false
  | JBool b => b
  | JNumber x => negb (PrimFloat.eqb x 0%float) && PrimFloat.eqb x x
  | JString s => truthy s
  | JArray _ => true
  | JObject _ => true
  end.

End JS.

(* ================================================================== *)
(** ** The host and the monad of asynchronous functions *)
(* ================================================================== *)

Module Runtime.
Import JS.

Inductive httpMethod : Type := GET | POST | PUT.

(** The body of a request: none, the bytes of a buffer, or the text
    [JSON.stringify(v)] of a value. *)
Inductive requestBody : Type :=
| NoBody
| BufferBody (bytes : list Byte.byte)
| JsonBody (v : json).

(** What [fetch(url, { method, headers, body })] sends. *)
Record request : Type := Request {
  url : jsstring;
  method : httpMethod;
  headers : list (jsstring * jsstring);
  body : requestBody
}.

(** What the programs read of a [Response]: [status], [statusText] and
    the body that [text()] resolves to ([json()] parses the same text). *)
Record response : Type := Response {
  status : N;
  statusText : jsstring;
  text : jsstring
}.

(** [response.ok]: the status is in the range 200-299. *)
Definition ok (r : response) : bool :=
  ((200 <=? status r) && (status r <=? 299))%N.

(** What a recursive directory walk observes. A directory entry carries
    the outcome of the [readdir] that the walk issues when it descends into
    it; [EntOther] is an entry that is neither a file nor a directory. *)
Inductive dirent : Type :=
| EntFile (name : jsstring)
| EntDir (name : jsstring) (listing : result (list dirent))
| EntOther (name : jsstring).

(** The calls a program makes on its host, in the order it makes them. *)
Inductive event : Type :=
| Access (path : jsstring)
| ReaddirTypes (dir : jsstring)
| Readdir (dir : jsstring)
| Mkdtemp (prefix : jsstring)
| Mkdir (path : jsstring) (recursive : bool)
| Rm (path : jsstring) (recursive force : bool)
| ReadFile (path : jsstring)
| ExecFile (file : jsstring) (args : list jsstring) (cwd : jsstring)
| DateNow
| Fetch (req : request)
| ConsoleLog (msg : jsstring)
| ConsoleWarn (msg : jsstring)
| ConsoleError (msg : jsstring)
| SetExitCode (code : N).

(** The host of a run. [world] is everything outside the program (disk,
    clock, remote server); each asynchronous call takes the world to a new
    one and either resolves or rejects. The library functions that the
    programs use and that do not depend on the world are plain functions,
    with the facts about them that the proofs need. *)
Class Host : Type := {
  world : Type;
  (** [String.prototype.toLowerCase]. *)
  toLowerCase : jsstring -> jsstring;
  toLowerCase_empty : toLowerCase [] = [];
  (** [path.join(a, b)], which never returns the empty string. *)
  path_join : jsstring -> jsstring -> jsstring;
  path_join_nonempty : forall a b, path_join a b <> [];
  (** [path.dirname(p)], [path.parse(p).name], [path.relative(from, to)]. *)
  path_dirname : jsstring -> jsstring;
  path_parse_name : jsstring -> jsstring;
  path_relative : jsstring -> jsstring -> jsstring;
  (** [os.tmpdir()]. *)
  os_tmpdir : jsstring;
  (** [fsp.access(p)]. *)
  fs_access : jsstring -> world -> result unit * world;
  (** [fsp.readdir(dir, { withFileTypes: true })] and, below each
      directory entry, the same call on it. *)
  fs_scan : jsstring -> world -> result (list dirent) * world;
  (** [fsp.readdir(dir)]. *)
  fs_readdir : jsstring -> world -> result (list jsstring) * world;
  (** [fsp.mkdtemp(prefix)]. *)
  fs_mkdtemp : jsstring -> world -> result jsstring * world;
  (** [fsp.mkdir(p, { recursive })]. *)
  fs_mkdir : jsstring -> bool -> world -> result unit * world;
  (** [fsp.rm(p, { recursive, force })]. *)
  fs_rm : jsstring -> bool -> bool -> world -> result unit * world;
  (** [fsp.readFile(p)]. *)
  fs_readFile : jsstring -> world -> result (list Byte.byte) * world;
  (** [execFileAsync(file, args, { cwd })]. *)
  exec_file : jsstring -> list jsstring -> jsstring -> world -> result unit * world;
  (** [Date.now()]. *)
  date_now : world -> N * world;
  (** [fetch(...)]: a response of any status resolves, a transport failure
      rejects. *)
  http_fetch : request -> world -> result response * world;
  (** [JSON.parse(text)]. *)
  JSON_parse : jsstring -> result json;
  (** [new URL(s).pathname]. *)
  URL_pathname : jsstring -> result jsstring;
  (** [u = new URL(s)], then [u.searchParams.set(n, v)] for each pair in
      order, then [u.toString()]. *)
  URL_withParams : jsstring -> searchParams -> result jsstring;
  (** [decodeURIComponent(s)]. *)
  decodeURIComponent : jsstring -> result jsstring;
  (** [x.toString()] for a number [x] ([Number.prototype.toString]). *)
  Number_toString : float -> jsstring
}.

Section Monad.
Context {H : Host}.

(** An asynchronous function: from the world before the call to its
    outcome, the world after it and the host calls it made. *)
Definition M (A : Type) : Type := world -> result A * world * list event.

Definition ret {A} (a : A) : M A := fun w => (Ok a, w, []).

Definition throw {A} (message : jsstring) : M A := fun w => (Throw message, w, []).

Definition bind {A B} (m : M A) (k : A -> M B) : M B :=
  fun w =>
    match m w with
    | (Ok a, w1, t1) =>
        match k a w1 with (r, w2, t2) => (r, w2, t1 ++ t2) end
    | (Throw e, w1, t1) => (Throw e, w1, t1)
    end.

(** An expression that may throw, evaluated inside an asynchronous
    function. *)
Definition liftR {A} (r : result A) : M A := fun w => (r, w, []).

(** [try { m } catch (error) { ... }]: the outcome of [m], handed to what
    follows. *)
Definition attempt {A} (m : M A) : M (result A) :=
  fun w => match m w with (r, w1, t1) => (Ok r, w1, t1) end.

(** A host call that can reject. *)
Definition call {A} (e : event) (step : world -> result A * world) : M A :=
  fun w => match step w with (r, w1) => (r, w1, [e]) end.

(** A host call that cannot. *)
Definition emit (e : event) : M unit := fun w => (Ok tt, w, [e]).

Definition outcome {A} (x : result A * world * list event) : result A := fst (fst x).
Definition after {A} (x : result A * world * list event) : world := snd (fst x).
Definition trace {A} (x : result A * world * list event) : list event := snd x.

End Monad.

Declare Scope js_scope.
Delimit Scope js_scope with js.
Notation "x <- m ;; k" := (bind m (fun x => k))
  (at level 61, m at next level, right associativity) : js_scope.
Notation "m ;; k" := (bind m (fun _ => k))
  (at level 61, right associativity) : js_scope.

End Runtime.

(* ================================================================== *)
(** ** batchPublish.js *)
(* ================================================================== *)

Module BatchPublish.
Import JS Runtime.
Local Open Scope js_scope.

Definition allowedSuffixes : list jsstring :=
  map lit [".shp"; ".shx"; ".dbf"; ".prj"; ".cpg"; ".sbn"; ".sbx"; ".qix";
           ".qpj"; ".fix"; ".aih"; ".ain"; ".shp.xml"; ".qmd"]%string.

(** The options that [parseArgs] returns. *)
Record options : Type := Options {
  directory : jsstring;
  geoserverUrl : jsstring;
  workspace : jsstring;
  username : jsstring;
  password : jsstring;
  storePrefix : jsstring;
  layerPrefix : jsstring;
  overwrite : bool
}.

Section Program.
Context {H : Host}.

(** *** collectShapefiles *)

(** The [for] loop of [walk] over the entries of one directory; [visit]
    is its body and returns the paths it pushed on [result]. *)
Fixpoint walkEntries (visit : dirent -> result (list jsstring) * list event)
  (entries : list dirent) : result (list jsstring) * list event :=
  match entries with
  | [] => (Ok [], [])
  | entry :: rest =>
      match visit entry with
      | (Ok found, t1) =>
          match walkEntries visit rest with
          | (Ok more, t2) => (Ok (found ++ more), t1 ++ t2)
          | (Throw e, t2) => (Throw e, t1 ++ t2)
          end
      | (Throw e, t1) => (Throw e, t1)
      end
  end.

(** [walk(dir)], given what its [readdir] returns. *)
Definition walkListing (visit : jsstring -> dirent -> result (list jsstring) * list event)
  (dir : jsstring) (listing : result (list dirent))
  : result (list jsstring) * list event :=
  match listing with
  | Throw e => (Throw e, [ReaddirTypes dir])
  | Ok entries =>
      match walkEntries (visit dir) entries with
      | (r, t) => (r, ReaddirTypes dir :: t)
      end
  end.

(** The body of the loop of [walk] for one entry of [dir]. *)
Fixpoint visitEntry (dir : jsstring) (entry : dirent) {struct entry}
  : result (list jsstring) * list event :=
  match entry with
  | EntDir name listing =>
      let fullPath := path_join dir name in
      match listing with
      | Throw e => (Throw e, [ReaddirTypes fullPath])
      | Ok entries =>
          match walkEntries (visitEntry fullPath) entries with
          | (r, t) => (r, ReaddirTypes fullPath :: t)
          end
      end
  | EntFile name =>
      let fullPath := path_join dir name in
      if endsWith (toLowerCase name) (lit ".shp")
      then (Ok [fullPath], [])
      else (Ok [], [])
  | EntOther name => (Ok [], [])
  end.

Definition collectShapefiles (rootDir : jsstring) : M (list jsstring) :=
  fun w =>
    match fs_scan rootDir w with
    | (listing, w1) =>
        match walkListing visitEntry rootDir listing with
        | (r, t) => (r, w1, t)
        end
    end.

(** A trace in which every call reads a directory. *)
Definition onlyScans (t : list event) : Prop :=
  forall e, In e t -> exists dir, e = ReaddirTypes dir.

(** *** gatherComponents *)

(** One turn of the loop over the directory entries. *)
Definition gatherStep (dir baseLower : jsstring)
  (components : list jsstring) (entry : jsstring) : list jsstring :=
  let lower := toLowerCase entry in
  let suffix := slice lower (List.length baseLower) in
  if negb (startsWith lower baseLower) then components
  else if includes allowedSuffixes suffix
       then components ++ [path_join dir entry]
       else components.

Definition required : list jsstring := map lit [".shp"; ".shx"; ".dbf"]%string.

Definition missingMessage (ext shpPath : jsstring) : jsstring :=
  lit "Missing required " ++ quoted (lit "." ++ slice ext 1)
  ++ lit " file for shapefile " ++ quoted shpPath ++ lit ".".

(** The loop over [required]: [components.find(...)] is [find], and a
    match that is absent (or the empty string) is falsy. *)
Fixpoint checkRequired (shpPath : jsstring) (components exts : list jsstring)
  : result unit :=
  match exts with
  | [] => Ok tt
  | ext :: rest =>
      match find (fun file => endsWith (toLowerCase file) ext) components with
      | Some found =>
          if negb (truthy found) then Throw (missingMessage ext shpPath)
          else checkRequired shpPath components rest
      | None => Throw (missingMessage ext shpPath)
      end
  end.

(** The first loop of [gatherComponents], from the empty array. *)
Definition collect (dir baseLower : jsstring) (entries : list jsstring)
  : list jsstring :=
  fold_left (gatherStep dir baseLower) entries [].

Definition gatherComponents (shpPath : jsstring) : M (list jsstring) :=
  let dir := path_dirname shpPath in
  let baseName := path_parse_name shpPath in
  let baseLower := toLowerCase baseName in
  entries <- call (Readdir dir) (fs_readdir dir) ;;
  let components := collect dir baseLower entries in
  liftR (checkRequired shpPath components required) ;;
  ret components.

(** The two tests of the first loop as one: the entry is pushed exactly
    when it passes both. *)
Definition included (baseLower entry : jsstring) : bool :=
  let lower := toLowerCase entry in
  let suffix := slice lower (List.length baseLower) in
  startsWith lower baseLower && includes allowedSuffixes suffix.


(** A component set has a file for the extension [ext]. *)
Definition hasExtension (components : list jsstring) (ext : jsstring) : Prop :=
  exists file, In file components /\ endsWith (toLowerCase file) ext = true.

(** *** sanitizeName *)

Definition sanitizeName (name : jsstring) : jsstring :=
  replaceWhitespaceRuns (trim name) (lit "_").

(** The design document's account of the sanitized name: the surrounding
    whitespace is trimmed and every whitespace run inside becomes one
    underscore. Said with words: the name is cut into its maximal runs of
    characters that are not whitespace, and these are joined by single
    underscores. [word] is the run being read. *)
Fixpoint wordsFrom (word : jsstring) (s : jsstring) : list jsstring :=
  match s with
  | [] => if truthy word then [word] else []
  | c :: s' =>
      if isWhiteSpace c
      then (if truthy word then [word] else []) ++ wordsFrom [] s'
      else wordsFrom (word ++ [c]) s'
  end.

Definition words (s : jsstring) : list jsstring := wordsFrom [] s.

Fixpoint joinWith (sep : jsstring) (l : list jsstring) : jsstring :=
  match l with
  | [] => []
  | [x] => x
  | x :: rest => x ++ sep ++ joinWith sep rest
  end.

Definition collapsedName (name : jsstring) : jsstring :=
  joinWith (lit "_") (words name).

(** *** createZip *)

Definition createZip (componentPaths : list jsstring) (tempDir name : jsstring)
  : M jsstring :=
  call (Mkdir tempDir true) (fs_mkdir tempDir true) ;;
  let zipPath := path_join tempDir (name ++ lit ".zip") in
  attempt (call (Rm zipPath false true) (fs_rm zipPath false true)) ;;
  call (ExecFile (lit "zip") (lit "-j" :: zipPath :: componentPaths) (lit "/"))
       (exec_file (lit "zip") (lit "-j" :: zipPath :: componentPaths) (lit "/")) ;;
  ret zipPath.

(** *** buildAuthHeader *)

Definition buildAuthHeader (username password : jsstring) : jsstring :=
  let token := base64 (utf8Bytes (username ++ lit ":" ++ password)) in
  lit "Basic " ++ token.

(** *** uploadDatastoreZip *)

Definition uploadParams (overwrite : bool) : searchParams :=
  let params := [] in
  let params := paramsSet params (lit "charset") (lit "UTF-8") in
  let params := paramsSet params (lit "configure") (lit "none") in
  if overwrite then paramsSet params (lit "update") (lit "overwrite")
  else params.

Definition uploadFailedMessage (storeName : jsstring) (r : response) (text : jsstring)
  : jsstring :=
  lit "Upload failed for datastore " ++ quoted storeName ++ lit ". Status "
  ++ numberToString (status r) ++ lit " " ++ statusText r
  ++ lit ". Response: " ++ text.

Definition uploadDatastoreZip (geoserverUrl workspace storeName zipPath
  authHeader : jsstring) (overwrite : bool) : M unit :=
  let params := uploadParams overwrite in
  ws <- liftR (encodeURIComponent workspace) ;;
  store <- liftR (encodeURIComponent storeName) ;;
  let target := geoserverUrl ++ lit "/rest/workspaces/" ++ ws
                ++ lit "/datastores/" ++ store ++ lit "/file.shp?"
                ++ paramsToString params in
  zipBuffer <- call (ReadFile zipPath) (fs_readFile zipPath) ;;
  let req := Request target PUT
               [(lit "Content-Type", lit "application/zip");
                (lit "Authorization", authHeader);
                (lit "Content-Length",
                 numberToString (N.of_nat (List.length zipBuffer)))]
               (BufferBody zipBuffer) in
  response <- call (Fetch req) (http_fetch req) ;;
  if negb (ok response)
  then throw (uploadFailedMessage storeName response (text response))
  else ret tt.

(** *** publishLayer *)

Definition featurePayload (layerName nativeName : jsstring) : json :=
  JObject [(lit "featureType",
            JObject [(lit "name", JString layerName);
                     (lit "nativeName", JString nativeName);
                     (lit "enabled", JBool true)])].

Definition jsonHeaders (authHeader : jsstring) : list (jsstring * jsstring) :=
  [(lit "Content-Type", lit "application/json");
   (lit "Authorization", authHeader)].

Definition recalculate : jsstring := lit "?recalculate=nativebbox,latlonbbox".

Definition skipNotice (layerName workspace : jsstring) : jsstring :=
  lit "Layer " ++ quoted layerName ++ lit " already exists in workspace "
  ++ quoted workspace ++ lit ". Skipping publish (use --overwrite to replace).".

Definition updateFailedMessage (layerName : jsstring) (r : response) (body : jsstring)
  : jsstring :=
  lit "Failed to update existing layer " ++ quoted layerName ++ lit ". Status "
  ++ numberToString (status r) ++ lit " " ++ statusText r
  ++ lit ". Response: " ++ body.

Definition publishFailedMessage (layerName : jsstring) (r : response) (errorText : jsstring)
  : jsstring :=
  lit "Failed to publish layer " ++ quoted layerName ++ lit ". Status "
  ++ numberToString (status r) ++ lit " " ++ statusText r
  ++ lit ". Response: " ++ errorText.

Definition publishLayer (geoserverUrl workspace storeName layerName nativeName
  authHeader : jsstring) (overwrite : bool) : M unit :=
  let payload := featurePayload layerName nativeName in
  ws <- liftR (encodeURIComponent workspace) ;;
  store <- liftR (encodeURIComponent storeName) ;;
  let publishUrl := geoserverUrl ++ lit "/rest/workspaces/" ++ ws
                    ++ lit "/datastores/" ++ store ++ lit "/featuretypes"
                    ++ recalculate in
  let post := Request publishUrl POST (jsonHeaders authHeader) (JsonBody payload) in
  response <- call (Fetch post) (http_fetch post) ;;
  if ok response then ret tt
  else if (status response =? 409)%N then
    if negb overwrite then
      emit (ConsoleWarn (skipNotice layerName workspace))
    else
      ws' <- liftR (encodeURIComponent workspace) ;;
      store' <- liftR (encodeURIComponent storeName) ;;
      layer <- liftR (encodeURIComponent layerName) ;;
      let adjustUrl := geoserverUrl ++ lit "/rest/workspaces/" ++ ws'
                       ++ lit "/datastores/" ++ store' ++ lit "/featuretypes/"
                       ++ layer ++ recalculate in
      let put := Request adjustUrl PUT (jsonHeaders authHeader) (JsonBody payload) in
      adjustResponse <- call (Fetch put) (http_fetch put) ;;
      if negb (ok adjustResponse)
      then throw (updateFailedMessage layerName adjustResponse (text adjustResponse))
      else ret tt
  else throw (publishFailedMessage layerName response (text response)).

(** *** main *)

Definition processingNotice (relative storeName layerName : jsstring) : jsstring :=
  lit "Processing " ++ quoted relative ++ lit " -> store " ++ quoted storeName
  ++ lit ", layer " ++ quoted layerName.

Definition skippingNotice (relative message : jsstring) : jsstring :=
  lit "Skipping " ++ quoted relative ++ lit ": " ++ message.

Definition zipFailedNotice (relative message : jsstring) : jsstring :=
  lit "Failed to zip shapefile " ++ quoted relative ++ lit ": " ++ message.

(** The check mark U+2713 and the ballot X U+2717 open the two reports. *)
Definition publishedNotice (layerName : jsstring) : jsstring :=
  [10003%N] ++ lit " Published layer " ++ quoted layerName.

Definition failedNotice (relative message : jsstring) : jsstring :=
  [10007%N] ++ lit " Failed for " ++ quoted relative ++ lit ": " ++ message.

Definition storeNameOf (o : options) (shpPath : jsstring) : jsstring :=
  let rawBaseName := path_parse_name shpPath in
  let baseName := trim rawBaseName in
  storePrefix o ++ sanitizeName baseName.

Definition layerNameOf (o : options) (shpPath : jsstring) : jsstring :=
  let rawBaseName := path_parse_name shpPath in
  let baseName := trim rawBaseName in
  layerPrefix o ++ sanitizeName baseName.

(** The [nativeName] that the loop hands to [publishLayer]. *)
Definition nativeNameOf (shpPath : jsstring) : jsstring :=
  let rawBaseName := path_parse_name shpPath in
  rawBaseName.

(** The body of the last [try] of the loop. *)
Definition uploadAndPublish (o : options) (authHeader shpPath zipPath : jsstring)
  : M unit :=
  let storeName := storeNameOf o shpPath in
  let layerName := layerNameOf o shpPath in
  uploadDatastoreZip (geoserverUrl o) (workspace o) storeName zipPath authHeader
                     (overwrite o) ;;
  publishLayer (geoserverUrl o) (workspace o) storeName layerName
               (nativeNameOf shpPath) authHeader (overwrite o) ;;
  emit (ConsoleLog (publishedNotice layerName)).

(** The report that the [catch] of the last [try] prints. *)
Definition reportOf (o : options) (shpPath : jsstring) (r : result unit)
  : list event :=
  match r with
  | Ok _ => []
  | Throw message =>
      [ConsoleError (failedNotice (path_relative (directory o) shpPath) message)]
  end.

(** The [finally] block. *)
Definition removeZip (zipPath : jsstring) : M unit :=
  if truthy zipPath
  then attempt (call (Rm zipPath false true) (fs_rm zipPath false true)) ;; ret tt
  else ret tt.

(** The last [try] / [catch] / [finally] of the loop. *)
Definition publishStage (o : options) (authHeader shpPath zipPath : jsstring)
  : M unit :=
  let relative := path_relative (directory o) shpPath in
  r <- attempt (uploadAndPublish o authHeader shpPath zipPath) ;;
  match r with
  | Ok _ => ret tt
  | Throw message => emit (ConsoleError (failedNotice relative message))
  end ;;
  removeZip zipPath.

(** The second [try] of the loop: the name of the bundle, then [createZip]. *)
Definition zipStage (o : options) (tempDir shpPath : jsstring)
  (componentPaths : list jsstring) : M jsstring :=
  now <- call DateNow (fun w => match date_now w with (n, w1) => (Ok n, w1) end) ;;
  createZip componentPaths tempDir
            (storeNameOf o shpPath ++ lit "-" ++ numberToString now).

(** The body of the loop of [main] for one shapefile. *)
Definition processShapefile (o : options) (authHeader tempDir shpPath : jsstring)
  : M unit :=
  let relative := path_relative (directory o) shpPath in
  emit (ConsoleLog (processingNotice relative (storeNameOf o shpPath)
                                     (layerNameOf o shpPath))) ;;
  gathered <- attempt (gatherComponents shpPath) ;;
  match gathered with
  | Throw message => emit (ConsoleError (skippingNotice relative message))
  | Ok componentPaths =>
      zipped <- attempt (zipStage o tempDir shpPath componentPaths) ;;
      match zipped with
      | Throw message => emit (ConsoleError (zipFailedNotice relative message))
      | Ok zipPath => publishStage o authHeader shpPath zipPath
      end
  end.

(** [for (const shpPath of shapefiles) { ... }]. *)
Fixpoint processAll (o : options) (authHeader tempDir : jsstring)
  (shapefiles : list jsstring) : M unit :=
  match shapefiles with
  | [] => ret tt
  | shpPath :: rest =>
      processShapefile o authHeader tempDir shpPath ;;
      processAll o authHeader tempDir rest
  end.

Definition nothingToDo (directory : jsstring) : jsstring :=
  lit "No " ++ quoted (lit ".shp") ++ lit " files found under " ++ directory
  ++ lit ". Nothing to do.".

Definition foundNotice (n : nat) : jsstring :=
  lit "Found " ++ numberToString (N.of_nat n) ++ lit " shapefile(s). Starting upload...".

(** The [try] block of [main] after [parseArgs]. *)
Definition run (o : options) : M unit :=
  call (Access (directory o)) (fs_access (directory o)) ;;
  shapefiles <- collectShapefiles (directory o) ;;
  if Nat.eqb (List.length shapefiles) 0
  then emit (ConsoleLog (nothingToDo (directory o)))
  else
    let authHeader := buildAuthHeader (username o) (password o) in
    let prefix := path_join os_tmpdir (lit "geoserver-shp-") in
    tempDir <- call (Mkdtemp prefix) (fs_mkdtemp prefix) ;;
    emit (ConsoleLog (foundNotice (List.length shapefiles))) ;;
    processAll o authHeader tempDir shapefiles ;;
    attempt (call (Rm tempDir true true) (fs_rm tempDir true true)) ;;
    emit (ConsoleLog (lit "Finished processing shapefiles.")).

(** [main()], given the outcome of [parseArgs(process.argv.slice(2))]. *)
Definition main (parsed : result options) : M unit :=
  r <- attempt (o <- liftR parsed ;; run o) ;;
  match r with
  | Ok _ => ret tt
  | Throw message => emit (ConsoleError message) ;; emit (SetExitCode 1)
  end.

End Program.

End BatchPublish.

(* ================================================================== *)
(** ** listWfsUrls.js *)
(* ================================================================== *)

Module ListWfsUrls.
Import JS Runtime.
Local Open Scope js_scope.

(** One element of the array that [getPublishedShapeWfsUrls] resolves to;
    an absent [title] is [undefined]. *)
Record entry : Type := Entry {
  layer : jsstring;
  wfsUrl : jsstring;
  title : option jsstring
}.

(** [v.key] for one of the names the program reads ([featureTypes],
    [featureType], [name], [href], [title]): an own property of an object,
    [undefined] ([None]) on any other value that is not [null]. *)
Definition getProp (v : json) (key : jsstring) : option json :=
  match v with
  | JObject props => lookupProp props key
  | _ => None
  end.

(** [v?.key], where [None] is [undefined]. *)
Definition optChain (v : option json) (key : jsstring) : option json :=
  match v with
  | None => None
  | Some JNull => None
  | Some x => getProp x key
  end.

(** [v ?? d]. *)
Definition nullish (v : option json) (d : json) : json :=
  match v with
  | None => d
  | Some JNull => d
  | Some x => x
  end.

(** [payload?.featureTypes?.featureType]. *)
Definition featureTypeField (payload : json) : option json :=
  optChain (optChain (Some payload) (lit "featureTypes")) (lit "featureType").

(** The lines of [fetchFeatureTypes] after [response.json()]: an array
    ([Array.isArray]) is returned as it is, any other value that is truthy
    becomes a one-element array. *)
Definition normalize (payload : json) : list json :=
  let raw := nullish (featureTypeField payload) (JArray []) in
  match raw with
  | JArray items => items
  | _ => if jsonTruthy raw then [raw] else []
  end.

(** [s.slice(s.lastIndexOf('/') + 1)], the whole of [s] when it has no
    slash. *)
Fixpoint lastSegment (s : jsstring) : jsstring :=
  match s with
  | [] => []
  | c :: s' =>
      if existsb (N.eqb 47) s' then lastSegment s'
      else if (c =? 47)%N then s' else s
  end.

(** [s.replace(/\.[^.]+$/u, '')]: a last dot that is followed by at least
    one character goes, with what follows it. *)
Fixpoint withoutExtension (s : jsstring) : jsstring :=
  match s with
  | [] => []
  | c :: s' =>
      if (c =? 46)%N && negb (existsb (N.eqb 46) s') && truthy s' then []
      else c :: withoutExtension s'
  end.

Definition cannotReadNull (key : jsstring) : jsstring :=
  lit "Cannot read properties of null (reading '" ++ key ++ lit "')".

(** [v.key] as a statement: reading a property of [null] throws. *)
Definition readProp (v : json) (key : jsstring) : result (option json) :=
  match v with
  | JNull => Throw (cannotReadNull key)
  | _ => Ok (getProp v key)
  end.

Definition bindR {A B} (r : result A) (k : A -> result B) : result B :=
  match r with Ok a => k a | Throw e => Throw e end.

Section Program.
Context {H : Host}.

Definition buildAuthHeader (username password : jsstring) : jsstring :=
  let token := base64 (utf8Bytes (username ++ lit ":" ++ password)) in
  lit "Basic " ++ token.

Definition fetchFailedMessage (workspace : jsstring) (r : response) (body : jsstring)
  : jsstring :=
  lit "Failed to fetch feature types for workspace " ++ quoted workspace
  ++ lit ". Status " ++ numberToString (status r) ++ lit " " ++ statusText r
  ++ lit ". Response: " ++ body.

Definition listingRequest (geoserverUrl ws authHeader : jsstring) : request :=
  let baseUrl := geoserverUrl ++ lit "/rest/workspaces/" ++ ws
                 ++ lit "/featuretypes.json" in
  let url := baseUrl ++ lit "?count=10000&startIndex=0" in
  Request url GET
          [(lit "Accept", lit "application/json");
           (lit "Authorization", authHeader)]
          NoBody.

Definition fetchFeatureTypes (geoserverUrl workspace authHeader : jsstring)
  : M (list json) :=
  ws <- liftR (encodeURIComponent workspace) ;;
  let req := listingRequest geoserverUrl ws authHeader in
  response <- call (Fetch req) (http_fetch req) ;;
  if (status response =? 404)%N then ret []
  else if negb (ok response)
  then throw (fetchFailedMessage workspace response (text response))
  else
    payload <- liftR (JSON_parse (text response)) ;;
    ret (normalize payload).

Definition extractLayerName (featureType : json) : result jsstring :=
  bindR (readProp featureType (lit "name")) (fun name =>
  match name with
  | Some (JString (c :: n)) => Ok (c :: n)
  | _ =>
      match getProp featureType (lit "href") with
      | Some (JString (c :: h)) =>
          bindR (URL_pathname (c :: h)) (fun pathname =>
          let withoutExt := withoutExtension (lastSegment pathname) in
          if truthy withoutExt then decodeURIComponent withoutExt
          else Throw (lit "Unable to determine layer name from feature type payload."))
      | _ => Throw (lit "Unable to determine layer name from feature type payload.")
      end
  end).

(** [maxFeatures] is a number, the one that [parseArgs] stored (1000 when
    the option is not given); [maxFeatures.toString()] is the built-in's
    text for it, exponent notation included. *)
Definition buildWfsUrl (geoserverUrl workspace layerName : jsstring)
  (maxFeatures : float) : result jsstring :=
  URL_withParams (geoserverUrl ++ lit "/wfs")
    [(lit "service", lit "WFS");
     (lit "version", lit "2.0.0");
     (lit "request", lit "GetFeature");
     (lit "typeNames", workspace ++ lit ":" ++ layerName);
     (lit "outputFormat", lit "application/json");
     (lit "maxFeatures", Number_toString maxFeatures)].

(** The callback of [featureTypes.map]. *)
Definition toEntry (geoserverUrl workspace : jsstring) (maxFeatures : float)
  (featureType : json) : result entry :=
  bindR (extractLayerName featureType) (fun layerName =>
  let title := match getProp featureType (lit "title") with
               | Some (JString t) => Some t
               | _ => None
               end in
  let layerId := workspace ++ lit ":" ++ layerName in
  bindR (buildWfsUrl geoserverUrl workspace layerName maxFeatures) (fun u =>
  Ok (Entry layerId u title))).

(** [featureTypes.map(f)] for a callback that may throw. *)
Fixpoint mapR {A B} (f : A -> result B) (l : list A) : result (list B) :=
  match l with
  | [] => Ok []
  | a :: l' =>
      bindR (f a) (fun b => bindR (mapR f l') (fun bs => Ok (b :: bs)))
  end.

Definition getPublishedShapeWfsUrls (geoserverUrl workspace username password
  : jsstring) (maxFeatures : float) : M (list entry) :=
  let authHeader := buildAuthHeader username password in
  featureTypes <- fetchFeatureTypes geoserverUrl workspace authHeader ;;
  liftR (mapR (toEntry geoserverUrl workspace maxFeatures) featureTypes).

End Program.

End ListWfsUrls.

(* ================================================================== *)
(** ** batchPublish.js: the command line *)
(* ================================================================== *)

Module Cli.
Import JS Runtime BatchPublish.

(** The four variables of [process.env] that [parseArgs] reads; an unset
    variable is [undefined] ([None]). *)
Record environment : Type := Environment {
  GEOSERVER_URL : option jsstring;
  GEOSERVER_WORKSPACE : option jsstring;
  GEOSERVER_USER : option jsstring;
  GEOSERVER_PASSWORD : option jsstring
}.

(** The [options] object while the arguments are read: the connection
    settings may still be [undefined]. *)
Record draft : Type := Draft {
  draftDirectory : jsstring;
  draftGeoserverUrl : option jsstring;
  draftWorkspace : option jsstring;
  draftUsername : option jsstring;
  draftPassword : option jsstring;
  draftStorePrefix : jsstring;
  draftLayerPrefix : jsstring;
  draftOverwrite : bool
}.

Definition unexpectedArgument (arg : jsstring) : jsstring :=
  lit "Unexpected argument " ++ quoted arg
  ++ lit ". Expected options to start with " ++ quoted (lit "--") ++ lit ".".

Definition expectsValue (arg : jsstring) : jsstring :=
  lit "Option " ++ quoted arg ++ lit " expects a value.".

Definition unknownOption (arg : jsstring) : jsstring :=
  lit "Unknown option " ++ quoted arg ++ lit ".".

Definition missingSetting (what flag variable : string) : jsstring :=
  lit "Missing " ++ lit what ++ lit ". Provide " ++ quoted (lit flag)
  ++ lit " or set " ++ lit variable ++ lit ".".

(** A string that may be [undefined], in a condition. *)
Definition given (v : option jsstring) : bool :=
  match v with Some s => truthy s | None => false end.

(** The string that a setting holds once it is known to be given. *)
Definition stringOf (v : option jsstring) : jsstring :=
  match v with Some s => s | None => [] end.

Fixpoint dropLeadingSlashes (s : jsstring) : jsstring :=
  match s with
  | c :: s' => if (c =? 47)%N then dropLeadingSlashes s' else s
  | [] => []
  end.

(** [s.replace(/\/+$/, '')]: the run of slashes that ends the string, if
    there is one, goes. *)
Definition stripTrailingSlashes (s : jsstring) : jsstring :=
  rev (dropLeadingSlashes (rev s)).

Section ParseArgs.

(** [process.cwd()] and [path.resolve(from, to)]. *)
Variable cwd : jsstring.
Variable path_resolve : jsstring -> jsstring -> jsstring.

(** The object that [parseArgs] starts from. *)
Definition defaults (env : environment) : draft :=
  Draft (path_resolve cwd (lit "shpfiles"))
        (GEOSERVER_URL env) (GEOSERVER_WORKSPACE env)
        (GEOSERVER_USER env) (GEOSERVER_PASSWORD env)
        [] [] false.

Definition setOverwrite (o : draft) : draft :=
  Draft (draftDirectory o) (draftGeoserverUrl o) (draftWorkspace o)
        (draftUsername o) (draftPassword o) (draftStorePrefix o)
        (draftLayerPrefix o) true.

(** The [switch] of the loop; [None] is its [default] case. *)
Definition setOption (arg value : jsstring) (o : draft) : option draft :=
  if str_eqb arg (lit "--directory") || str_eqb arg (lit "--dir") then
    Some (Draft (path_resolve cwd value) (draftGeoserverUrl o) (draftWorkspace o)
                (draftUsername o) (draftPassword o) (draftStorePrefix o)
                (draftLayerPrefix o) (draftOverwrite o))
  else if str_eqb arg (lit "--geoserver-url") then
    Some (Draft (draftDirectory o) (Some value) (draftWorkspace o)
                (draftUsername o) (draftPassword o) (draftStorePrefix o)
                (draftLayerPrefix o) (draftOverwrite o))
  else if str_eqb arg (lit "--workspace") then
    Some (Draft (draftDirectory o) (draftGeoserverUrl o) (Some value)
                (draftUsername o) (draftPassword o) (draftStorePrefix o)
                (draftLayerPrefix o) (draftOverwrite o))
  else if str_eqb arg (lit "--username") then
    Some (Draft (draftDirectory o) (draftGeoserverUrl o) (draftWorkspace o)
                (Some value) (draftPassword o) (draftStorePrefix o)
                (draftLayerPrefix o) (draftOverwrite o))
  else if str_eqb arg (lit "--password") then
    Some (Draft (draftDirectory o) (draftGeoserverUrl o) (draftWorkspace o)
                (draftUsername o) (Some value) (draftStorePrefix o)
                (draftLayerPrefix o) (draftOverwrite o))
  else if str_eqb arg (lit "--store-prefix") then
    Some (Draft (draftDirectory o) (draftGeoserverUrl o) (draftWorkspace o)
                (draftUsername o) (draftPassword o) value
                (draftLayerPrefix o) (draftOverwrite o))
  else if str_eqb arg (lit "--layer-prefix") then
    Some (Draft (draftDirectory o) (draftGeoserverUrl o) (draftWorkspace o)
                (draftUsername o) (draftPassword o) (draftStorePrefix o)
                value (draftOverwrite o))
  else None.

(** The loop over [argv]: [argv] here is what is left from index [i] on.
    A value is [argv[i + 1]], [undefined] when [arg] is the last one. *)
Fixpoint parseLoop (argv : list jsstring) (o : draft) : result draft :=
  match argv with
  | [] => Ok o
  | arg :: rest =>
      if negb (startsWith arg (lit "--")) then Throw (unexpectedArgument arg)
      else if str_eqb arg (lit "--overwrite") then parseLoop rest (setOverwrite o)
      else
        match rest with
        | [] => Throw (expectsValue arg)
        | value :: rest' =>
            if negb (truthy value) || startsWith value (lit "--")
            then Throw (expectsValue arg)
            else
              match setOption arg value o with
              | Some o' => parseLoop rest' o'
              | None => Throw (unknownOption arg)
              end
        end
  end.

(** The four checks after the loop and the last assignment. A setting
    that passed its check is a string. *)
Definition finish (o : draft) : result options :=
  if negb (given (draftGeoserverUrl o)) then
    Throw (missingSetting "GeoServer URL" "--geoserver-url" "GEOSERVER_URL")
  else if negb (given (draftWorkspace o)) then
    Throw (missingSetting "workspace" "--workspace" "GEOSERVER_WORKSPACE")
  else if negb (given (draftUsername o)) then
    Throw (missingSetting "username" "--username" "GEOSERVER_USER")
  else if negb (given (draftPassword o)) then
    Throw (missingSetting "password" "--password" "GEOSERVER_PASSWORD")
  else
    Ok (Options (draftDirectory o)
                (stripTrailingSlashes (stringOf (draftGeoserverUrl o)))
                (stringOf (draftWorkspace o))
                (stringOf (draftUsername o))
                (stringOf (draftPassword o))
                (draftStorePrefix o) (draftLayerPrefix o) (draftOverwrite o)).

Definition parseArgs (env : environment) (argv : list jsstring) : result options :=
  match parseLoop argv (defaults env) with
  | Ok o => finish o
  | Throw e => Throw e
  end.

End ParseArgs.

End Cli.

(* ================================================================== *)
(** ** listWfsUrls.js: main *)
(* ================================================================== *)

Module ListingMain.
Import JS Runtime ListWfsUrls.
Local Open Scope js_scope.

(** The options of the listing utility, as [main] hands them on. *)
Record listOptions : Type := ListOptions {
  geoserverUrl : jsstring;
  workspace : jsstring;
  username : jsstring;
  password : jsstring;
  pretty : bool;
  maxFeatures : float
}.

(** The values that [main] gives to [JSON.stringify]. *)
Inductive outValue : Type :=
| OUndefined
| ONull
| OBool (b : bool)
| OCount (n : nat)
| OString (s : jsstring)
| OArray (items : list outValue)
| OObject (props : list (jsstring * outValue)).

Section Program.
Context {H : Host}.

(** [JSON.stringify(value, null, indent)]; without an indent,
    [JSON.stringify(value)]. *)
Variable JSON_stringify : outValue -> option N -> jsstring.

Definition entryValue (e : entry) : outValue :=
  OObject [(lit "layer", OString (layer e));
           (lit "wfsUrl", OString (wfsUrl e));
           (lit "title", match title e with
                         | Some t => OString t
                         | None => OUndefined
                         end)].

Definition emptyReport (workspace : jsstring) : outValue :=
  OObject [(lit "success", OBool true);
           (lit "message",
            OString (lit "Workspace " ++ quoted workspace
                     ++ lit " has no published feature types."));
           (lit "data", OArray [])].

Definition foundReport (entries : list entry) : outValue :=
  OObject [(lit "success", OBool true);
           (lit "count", OCount (List.length entries));
           (lit "message",
            OString (lit "Found " ++ numberToString (N.of_nat (List.length entries))
                     ++ lit " published feature type(s)"));
           (lit "data", OArray (map entryValue entries))].

(** [console.log(JSON.stringify(v, null, 2))] with [--pretty],
    [console.log(JSON.stringify(v))] without. *)
Definition printJson (pretty : bool) (v : outValue) : M unit :=
  emit (ConsoleLog (JSON_stringify v (if pretty then Some 2%N else None))).

(** The [try] block of [main] after [parseArgs]. *)
Definition report (o : listOptions) : M unit :=
  entries <- getPublishedShapeWfsUrls (geoserverUrl o) (workspace o)
                                      (username o) (password o) (maxFeatures o) ;;
  if Nat.eqb (List.length entries) 0
  then printJson (pretty o) (emptyReport (workspace o))
  else printJson (pretty o) (foundReport entries).

(** [main()], given the outcome of [parseArgs(process.argv.slice(2))].
    [options] is a [const] of the [try] block; the [catch] block builds
    [errorResult] and then reads [options.pretty], a name that is not
    bound there, which throws a [ReferenceError] before anything is
    printed and before [process.exitCode] is set. *)
Definition main (parsed : result listOptions) : M unit :=
  r <- attempt (options <- liftR parsed ;; report options) ;;
  match r with
  | Ok _ => ret tt
  | Throw message => throw (lit "options is not defined")
  end.

End Program.

End ListingMain.

(* ================================================================== *)
(** ** What is observed of a run *)
(* ================================================================== *)

Module Observed.
Import JS Runtime BatchPublish.

(** The requests of a trace, in order. *)
Fixpoint fetches (t : list event) : list request :=
  match t with
  | [] => []
  | Fetch req :: t' => req :: fetches t'
  | _ :: t' => fetches t'
  end.

(** Every call of a trace is one that the loop of [main] may make for a
    dataset: none touches the exit code or the temporary directory. *)
Definition perDataset (e : event) : bool :=
  match e with
  | Access _ | ReaddirTypes _ | Mkdtemp _ | SetExitCode _ => false
  | _ => true
  end.

(** A directory tree all of whose directories can be listed. *)
Fixpoint listed (d : dirent) : bool :=
  match d with
  | EntDir _ (Ok entries) => forallb listed entries
  | EntDir _ (Throw _) => false
  | _ => true
  end.

(** The characters of base64 text. *)
Definition isBase64Char (c : char16) : bool :=
  (isAlphaNum c || (c =? 43) || (c =? 47) || (c =? 61))%N.

(** A code unit is a number below 2^16. *)
Definition isCodeUnit (c : char16) : bool := (c <? 65536)%N.

(** A character that [encodeURIComponent] can produce: an unreserved one
    or the percent sign. *)
Definition isEncoded (c : char16) : bool := isUriUnreserved c || (c =? 37)%N.

(** [v] is an object that holds the property [key], once, with the value
    [x]. *)
Definition hasProp (v : json) (key : jsstring) (x : json) : Prop :=
  exists front back,
    v = JObject (front ++ (key, x) :: back)
    /\ ~ In key (map fst front) /\ ~ In key (map fst back).

(** [v] is not an object that holds the property [key]. *)
Definition lacksProp (v : json) (key : jsstring) : Prop :=
  forall props, v = JObject props -> ~ In key (map fst props).

(** The payload's [featureTypes.featureType] field is [x]: the payload is
    an object whose [featureTypes] is an object whose [featureType] is
    [x]. *)
Definition fieldIs (payload x : json) : Prop :=
  exists inner,
    hasProp payload (lit "featureTypes") inner
    /\ hasProp inner (lit "featureType") x.

(** The payload's [featureTypes.featureType] field is absent: the payload
    has no [featureTypes], or its [featureTypes] has no [featureType]. *)
Definition fieldAbsent (payload : json) : Prop :=
  lacksProp payload (lit "featureTypes")
  \/ exists inner,
       hasProp payload (lit "featureTypes") inner
       /\ lacksProp inner (lit "featureType").

Section Discovery.
Context {H : Host}.

(** [path] is a regular file below [dir] whose name, lower-cased, ends in
    [.shp], reached through directories only. *)
Inductive foundIn : jsstring -> list dirent -> jsstring -> Prop :=
| found_here : forall dir entries name,
    In (EntFile name) entries ->
    endsWith (toLowerCase name) (lit ".shp") = true ->
    foundIn dir entries (path_join dir name)
| found_below : forall dir entries name below path,
    In (EntDir name (Ok below)) entries ->
    foundIn (path_join dir name) below path ->
    foundIn dir entries path.

End Discovery.

End Observed.

(* ================================================================== *)
(** ** A concrete host *)
(* ================================================================== *)

(** A host small enough to run the programs on: names are lower-cased
    letter by letter over ASCII, paths have the form [dir/name], every
    directory lists the same siblings, and the server answers the requests
    with the replies it holds, in order. *)
Module Sample.
Import JS Runtime.

Definition lowerChar (c : char16) : char16 :=
  (if (65 <=? c) && (c <=? 90) then c + 32 else c)%N.

Definition asciiLower (s : jsstring) : jsstring := map lowerChar s.

Definition join (a b : jsstring) : jsstring := a ++ 47%N :: b.

Fixpoint beforeLastSlash (s : jsstring) : jsstring :=
  match s with
  | [] => []
  | c :: s' => if existsb (N.eqb 47) s' then c :: beforeLastSlash s' else []
  end.

Fixpoint afterLastSlash (s : jsstring) : jsstring :=
  match s with
  | [] => []
  | c :: s' =>
      if existsb (N.eqb 47) s' then afterLastSlash s'
      else if (c =? 47)%N then s' else s
  end.

Fixpoint dropExtension (s : jsstring) : jsstring :=
  match s with
  | [] => []
  | c :: s' =>
      if (c =? 46)%N && negb (existsb (N.eqb 46) s') then []
      else c :: dropExtension s'
  end.

(** The name without its extension; a leading dot starts no extension. *)
Definition stem (p : jsstring) : jsstring :=
  match afterLastSlash p with
  | [] => []
  | c :: rest => c :: dropExtension rest
  end.

Definition relativeTo (from to : jsstring) : jsstring :=
  if startsWith to (from ++ [47%N]) then skipn (S (List.length from)) to else to.

Record sampleWorld : Type := SampleWorld {
  disk : result (list dirent);
  siblings : result (list jsstring);
  zipWorks : bool;
  replies : list response;
  clock : N
}.

Definition nextReply (w : sampleWorld) : result response * sampleWorld :=
  match replies w with
  | [] => (Throw (lit "fetch failed"), w)
  | r :: rest =>
      (Ok r, SampleWorld (disk w) (siblings w) (zipWorks w) rest (clock w))
  end.

Definition tick (w : sampleWorld) : N * sampleWorld :=
  (clock w, SampleWorld (disk w) (siblings w) (zipWorks w) (replies w) (clock w + 1)).

(** The non-negative integer that a number is, when it is one. *)
Definition integerOf (x : float) : option N :=
  match Prim2SF x with
  | S754_zero _ => Some 0%N
  | S754_finite false m e =>
      if (0 <=? e)%Z then Some (N.shiftl (Npos m) (Z.to_N e))
      else if (N.land (Npos m) (N.ones (Z.to_N (- e))) =? 0)%N
           then Some (N.shiftr (Npos m) (Z.to_N (- e)))
           else None
  | _ => None
  end.

(** [Number.prototype.toString] on the integers from 0 to [2^53], whose
    text is their decimal digits; this host gives [NaN] for every other
    number. *)
Definition numberText (x : float) : jsstring :=
  match integerOf x with
  | Some n => if (n <=? 2 ^ 53)%N then numberToString n else lit "NaN"
  | None => lit "NaN"
  end.

Definition parseJson (text : jsstring) : result json :=
  if str_eqb text (lit "{}") then Ok (JObject [])
  else if str_eqb text (lit "null") then Ok JNull
  else Throw (lit "Unexpected token").

Lemma join_nonempty : forall a b, join a b <> [].
Proof. intros a b; unfold join; destruct a; discriminate. Qed.

Definition sampleHost : Host := {|
  world := sampleWorld;
  toLowerCase := asciiLower;
  toLowerCase_empty := eq_refl;
  path_join := join;
  path_join_nonempty := join_nonempty;
  path_dirname := beforeLastSlash;
  path_parse_name := stem;
  path_relative := relativeTo;
  os_tmpdir := lit "/tmp";
  fs_access := fun _ w => (Ok tt, w);
  fs_scan := fun _ w => (disk w, w);
  fs_readdir := fun _ w => (siblings w, w);
  fs_mkdtemp := fun prefix w => (Ok (prefix ++ lit "Ab12Cd"), w);
  fs_mkdir := fun _ _ w => (Ok tt, w);
  fs_rm := fun _ _ _ w => (Ok tt, w);
  fs_readFile := fun _ w => (Ok [Byte.x50; Byte.x4b], w);
  exec_file := fun _ _ _ w =>
    (if zipWorks w then Ok tt else Throw (lit "spawn zip ENOENT"), w);
  date_now := tick;
  http_fetch := fun _ => nextReply;
  JSON_parse := parseJson;
  URL_pathname := fun _ => Throw (lit "Invalid URL");
  URL_withParams := fun s ps => Ok (s ++ 63%N :: paramsToString ps);
  decodeURIComponent := fun s => Ok s;
  Number_toString := numberText
|}.

(** Sample data: a server, two listings of a directory, some replies. *)
Definition gs : jsstring := lit "http://gs/geoserver".

Definition sampleOptions (overwrite : bool) : BatchPublish.options :=
  BatchPublish.Options (lit "/data") gs (lit "topo") (lit "admin")
                       (lit "geoserver") [] (lit "L_") overwrite.

Definition created : response := Response 201 (lit "Created") [].
Definition conflict : response := Response 409 (lit "Conflict") (lit "exists").
Definition notFound : response := Response 404 (lit "Not Found") [].
Definition broken : response := Response 500 (lit "Server Error") (lit "boom").
Definition emptyListing : response := Response 200 (lit "OK") (lit "{}").

Definition lakeSiblings : list jsstring :=
  map lit ["lake.shp"; "LAKE.shx"; "lake.dbf"; "lake.prj"; "lake_2.shp";
           "lake.txt"; "other.shp"]%string.

Definition lakeWithoutDbf : list jsstring :=
  map lit ["lake.shp"; "lake.shx"; "lake_2.dbf"]%string.

Definition sampleWorldOf (disk : list dirent) (siblings : list jsstring)
  (replies : list response) : sampleWorld :=
  SampleWorld (Ok disk) (Ok siblings) true replies 1700.

Definition lakePath : jsstring := lit "/data/lake.shp".
Definition lakeZip : jsstring := lit "/tmp/geoserver-shp-Ab12Cd/lake-1700.zip".
Definition basic : jsstring := BatchPublish.buildAuthHeader (lit "admin") (lit "geoserver").

Definition lakePost (layerName nativeName : jsstring) : request :=
  Request (gs ++ lit "/rest/workspaces/topo/datastores/lake/featuretypes?recalculate=nativebbox,latlonbbox")
          POST (BatchPublish.jsonHeaders basic)
          (JsonBody (BatchPublish.featurePayload layerName nativeName)).

Definition lakePut (layerName nativeName : jsstring) : request :=
  Request (gs ++ lit "/rest/workspaces/topo/datastores/lake/featuretypes/L_lake?recalculate=nativebbox,latlonbbox")
          PUT (BatchPublish.jsonHeaders basic)
          (JsonBody (BatchPublish.featurePayload layerName nativeName)).

Definition listing : request :=
  Request (gs ++ lit "/rest/workspaces/topo/featuretypes.json?count=10000&startIndex=0")
          GET
          [(lit "Accept", lit "application/json");
           (lit "Authorization", basic)]
          NoBody.

End Sample.

(* ================================================================== *)
(** ** A concrete host that can fail *)
(* ================================================================== *)

(** The host of [Sample] with switches that make a file-system call fail,
    a URL parser for [http://host/path], and a JSON text that holds two
    layers. *)
Module Faulty.
Import JS Runtime Sample.

Record faults : Type := Faults {
  accessFails : bool;
  tempFails : bool;
  mkdirFails : bool;
  rmFails : bool
}.

Definition noFaults : faults := Faults false false false false.

Definition faultyWorld : Type := (faults * sampleWorld)%type.

Definition inner {A : Type} (step : sampleWorld -> A * sampleWorld)
  (w : faultyWorld) : A * faultyWorld :=
  match step (snd w) with (a, s) => (a, (fst w, s)) end.

Definition failing (fails : faults -> bool) (message : string) {A : Type}
  (a : A) (w : faultyWorld) : result A * faultyWorld :=
  (if fails (fst w) then Throw (lit message) else Ok a, w).

Fixpoint fromFirstSlash (s : jsstring) : jsstring :=
  match s with
  | [] => []
  | c :: s' => if (c =? 47)%N then s else fromFirstSlash s'
  end.

Definition pathnameOf (s : jsstring) : result jsstring :=
  if startsWith s (lit "http://") then Ok (fromFirstSlash (skipn 7 s))
  else Throw (lit "Invalid URL").

Definition twoLayers : json :=
  JObject [(lit "featureTypes",
            JObject [(lit "featureType",
                      JArray [JObject [(lit "name", JString (lit "lake"))];
                              JObject [(lit "name", JString (lit "roads"));
                                       (lit "title", JString (lit "Roads"))]])])].

Definition oneLayer : json :=
  JObject [(lit "featureTypes",
            JObject [(lit "featureType",
                      JObject [(lit "name", JString (lit "lake"))])])].

(** The JSON text of a member [key: value]. *)
Definition member (key : string) (value : jsstring) : jsstring :=
  quoted (lit key) ++ lit ":" ++ value.

Definition twoLayersText : jsstring :=
  lit "{"
  ++ member "featureTypes"
       (lit "{"
        ++ member "featureType"
             (lit "[{" ++ member "name" (quoted (lit "lake")) ++ lit "},{"
              ++ member "name" (quoted (lit "roads")) ++ lit ","
              ++ member "title" (quoted (lit "Roads")) ++ lit "}]")
        ++ lit "}")
  ++ lit "}".

Definition oneLayerText : jsstring :=
  lit "{"
  ++ member "featureTypes"
       (lit "{"
        ++ member "featureType"
             (lit "{" ++ member "name" (quoted (lit "lake")) ++ lit "}")
        ++ lit "}")
  ++ lit "}".

Definition parseJson2 (text : jsstring) : result json :=
  if str_eqb text twoLayersText then Ok twoLayers
  else if str_eqb text oneLayerText then Ok oneLayer
  else parseJson text.

Definition faultyHost : Host := {|
  world := faultyWorld;
  toLowerCase := asciiLower;
  toLowerCase_empty := eq_refl;
  path_join := join;
  path_join_nonempty := join_nonempty;
  path_dirname := beforeLastSlash;
  path_parse_name := stem;
  path_relative := relativeTo;
  os_tmpdir := lit "/tmp";
  fs_access := fun _ => failing accessFails "ENOENT: no such file or directory" tt;
  fs_scan := fun _ => inner (fun s => (disk s, s));
  fs_readdir := fun _ => inner (fun s => (siblings s, s));
  fs_mkdtemp := fun prefix =>
    failing tempFails "EACCES: permission denied" (prefix ++ lit "Ab12Cd");
  fs_mkdir := fun _ _ => failing mkdirFails "EACCES: permission denied" tt;
  fs_rm := fun _ _ _ => failing rmFails "EPERM: operation not permitted" tt;
  fs_readFile := fun _ w => (Ok [Byte.x50; Byte.x4b], w);
  exec_file := fun _ _ _ =>
    inner (fun s => (if zipWorks s then Ok tt
                     else Throw (lit "spawn zip ENOENT"), s));
  date_now := inner tick;
  http_fetch := fun _ => inner nextReply;
  JSON_parse := parseJson2;
  URL_pathname := pathnameOf;
  URL_withParams := fun s ps => Ok (s ++ 63%N :: paramsToString ps);
  decodeURIComponent := fun s => Ok s;
  Number_toString := numberText
|}.

Definition faultyWorldOf (f : faults) (disk : result (list dirent))
  (siblings : result (list jsstring)) (zipWorks : bool)
  (replies : list response) : faultyWorld :=
  (f, SampleWorld disk siblings zipWorks replies 1700).

(** A tree with a shapefile at the root, one in upper case below, a link
    named like a shapefile and another file. *)
Definition lakeTree : list dirent :=
  [EntFile (lit "lake.shp");
   EntDir (lit "old") (Ok [EntFile (lit "ROADS.SHP"); EntFile (lit "roads.dbf")]);
   EntOther (lit "link.shp");
   EntFile (lit "notes.txt")].

Definition layersListing : response := Response 200 (lit "OK") twoLayersText.
Definition layerListing : response := Response 200 (lit "OK") oneLayerText.

Definition cwd : jsstring := lit "/home/gis".

Definition lakeEnvironment : Cli.environment :=
  Cli.Environment (Some (lit "http://gs/geoserver//")) None
                  (Some (lit "admin")) (Some (lit "geoserver")).

Definition lakeOptions : ListingMain.listOptions :=
  ListingMain.ListOptions gs (lit "topo") (lit "admin") (lit "geoserver")
                          false 1000%float.

(** A compact rendering of a report, enough to read a run. *)
Fixpoint render (v : ListingMain.outValue) : jsstring :=
  match v with
  | ListingMain.OUndefined => lit "undefined"
  | ListingMain.ONull => lit "null"
  | ListingMain.OBool b => if b then lit "true" else lit "false"
  | ListingMain.OCount n => numberToString (N.of_nat n)
  | ListingMain.OString s => quoted s
  | ListingMain.OArray items =>
      lit "[" ++ flat_map (fun x => render x ++ lit ",") items ++ lit "]"
  | ListingMain.OObject props =>
      lit "{" ++ flat_map (fun p => fst p ++ lit ":" ++ render (snd p) ++ lit ",")
                          props ++ lit "}"
  end.

Definition stringify (v : ListingMain.outValue) (indent : option N) : jsstring :=
  render v.

Definition lakeWorld (replies : list response) : faultyWorld :=
  faultyWorldOf noFaults (Ok lakeTree) (Ok lakeSiblings) true replies.

Definition lakeArguments : list jsstring :=
  map lit ["--workspace"; "topo"; "--overwrite"]%string.

Definition lakeParsed : BatchPublish.options :=
  BatchPublish.Options (lit "/home/gis/shpfiles") gs (lit "topo") (lit "admin")
                       (lit "geoserver") [] [] true.

Definition lakeDraft : Cli.draft :=
  Cli.Draft (lit "/home/gis/shpfiles") (Some (lit "http://gs/geoserver//"))
            (Some (lit "topo")) (Some (lit "admin")) (Some (lit "geoserver"))
            [] [] false.

Definition unreadable : jsstring := lit "EACCES: permission denied, scandir".

Definition lakeTemp : jsstring := lit "/tmp/geoserver-shp-Ab12Cd".

Definition lakeComponents : list jsstring :=
  map lit ["/data/lake.shp"; "/data/LAKE.shx"; "/data/lake.dbf";
           "/data/lake.prj"]%string.

Definition lakeHref : json :=
  JObject [(lit "href",
            JString (lit "http://gs/geoserver/rest/workspaces/topo/datastores/lake/featuretypes/my.lake.json"))].

End Faulty.

(* ================================================================== *)
(** ** Facts about the string built-ins *)
(* ================================================================== *)

Unset Implicit Arguments.

Module JSFacts.
Import JS.

Lemma str_eqb_eq : forall a b, str_eqb a b = true <-> a = b.
Proof.
  induction a as [|c a IH]; destruct b as [|d b]; simpl; split;
    try congruence; try discriminate.
  - intros E. apply andb_true_iff in E as [E1 E2].
    apply N.eqb_eq in E1. apply IH in E2. congruence.
  - intros E. injection E as -> ->.
    rewrite N.eqb_refl. simpl. apply IH. reflexivity.
Qed.

Lemma str_eqb_refl : forall a, str_eqb a a = true.
Proof. intros a. apply str_eqb_eq. reflexivity. Qed.





Lemma endsWith_empty : forall x, x <> [] -> endsWith [] x = false.
Proof. intros [|c x] Hx; [congruence | reflexivity]. Qed.

Lemma truthy_nonempty : forall s, truthy s = true <-> s <> [].
Proof. intros [|c s]; simpl; split; congruence. Qed.

(** *** Whitespace: [trim] and [replace(/\s+/g, r)] *)

Lemma trimStart_app_ws : forall l s,
  forallb isWhiteSpace l = true -> trimStart (l ++ s) = trimStart s.
Proof.
  induction l as [|c l IH]; intros s Hl; simpl in *.
  - reflexivity.
  - apply andb_true_iff in Hl as [Hc Hl]. rewrite Hc. apply IH. exact Hl.
Qed.

Lemma trimStart_app : forall a b,
  trimStart (a ++ b)
  = if forallb isWhiteSpace a then trimStart b else trimStart a ++ b.
Proof.
  induction a as [|c a IH]; intros b; simpl.
  - reflexivity.
  - destruct (isWhiteSpace c); simpl; [apply IH | reflexivity].
Qed.

Lemma forallb_rev : forall (A : Type) (f : A -> bool) l,
  forallb f (rev l) = forallb f l.
Proof.
  intros A f l. destruct (forallb f l) eqn:E.
  - rewrite forallb_forall in *. intros x Hx. apply E, in_rev, Hx.
  - destruct (forallb f (rev l)) eqn:R; [|reflexivity].
    rewrite <- E. symmetry. rewrite forallb_forall in *.
    intros x Hx. apply R. rewrite <- in_rev. exact Hx.
Qed.

Lemma trimStart_allws : forall s,
  forallb isWhiteSpace s = true -> trimStart s = [].
Proof.
  intros s W. rewrite <- (app_nil_r s), trimStart_app_ws by exact W.
  reflexivity.
Qed.

Lemma trimEnd_allws : forall s,
  forallb isWhiteSpace s = true -> trimEnd s = [].
Proof.
  intros s W. unfold trimEnd. rewrite trimStart_allws; [reflexivity|].
  rewrite forallb_rev. exact W.
Qed.

(** [trimEnd] read from the left. *)
Lemma trimEnd_cons : forall c s,
  trimEnd (c :: s)
  = if forallb isWhiteSpace s
    then (if isWhiteSpace c then [] else [c])
    else c :: trimEnd s.
Proof.
  intros c s. unfold trimEnd. simpl rev. rewrite trimStart_app, forallb_rev.
  destruct (forallb isWhiteSpace s).
  - simpl. destruct (isWhiteSpace c); reflexivity.
  - rewrite rev_app_distr. reflexivity.
Qed.

(** *** Well-formed strings are those that [encodeURIComponent] accepts *)

Lemma encodeCodePoints_total : forall cps,
  forallb (fun cp => match cp with Some _ => true | None => false end) cps = true ->
  exists e, encodeCodePoints cps = Ok e.
Proof.
  induction cps as [|[cp|] cps IH]; simpl; intros W.
  - eexists; reflexivity.
  - destruct (IH W) as [e ->]. eexists; reflexivity.
  - discriminate.
Qed.

Lemma encodeURIComponent_wellFormed : forall s,
  isWellFormed s = true -> exists e, encodeURIComponent s = Ok e.
Proof. intros s W. apply encodeCodePoints_total. exact W. Qed.

Lemma unreserved_not_surrogate : forall c,
  isUriUnreserved c = true -> isHighSurrogate c = false /\ isLowSurrogate c = false.
Proof.
  intros c U. unfold isUriUnreserved, isAlphaNum in U. simpl in U.
  unfold isHighSurrogate, isLowSurrogate.
  repeat (apply orb_true_iff in U as [U|U]);
    repeat (apply andb_true_iff in U as [? U]);
    repeat match goal with
           | X : (_ <=? _)%N = true |- _ => apply N.leb_le in X
           | X : (_ =? _)%N = true |- _ => apply N.eqb_eq in X
           end;
    try discriminate;
    (split; apply andb_false_iff; left; apply N.leb_gt; lia).
Qed.

(** A name made of letters, digits and [- _ . ! ~ * ' ( )] is its own
    encoding. *)
Lemma encodeURIComponent_unreserved : forall s,
  forallb isUriUnreserved s = true -> encodeURIComponent s = Ok s.
Proof.
  unfold encodeURIComponent.
  induction s as [|c s IH]; simpl; intros U.
  - reflexivity.
  - apply andb_true_iff in U as [Uc Us].
    destruct (unreserved_not_surrogate c Uc) as [-> ->].
    simpl. rewrite (IH Us), Uc. reflexivity.
Qed.

End JSFacts.

(* ================================================================== *)
(** ** The publish workflow *)
(* ================================================================== *)

Module PublishFacts.
Import JS Runtime BatchPublish JSFacts.
Local Open Scope js_scope.

(** Runs the monad's plumbing where the outcome of a host call is known. *)
Tactic Notation "run_monad" :=
  cbv beta iota zeta delta
    [bind ret throw liftR attempt call emit outcome after trace fst snd].
Tactic Notation "run_monad" "in" hyp(X) :=
  cbv beta iota zeta delta
    [bind ret throw liftR attempt call emit outcome after trace fst snd] in X.

Section Grouping.
Context {H : Host}.


Lemma gatherStep_included : forall dir baseLower components entry,
  gatherStep dir baseLower components entry =
  if included baseLower entry then components ++ [path_join dir entry]
  else components.
Proof.
  intros. unfold gatherStep, included. cbv zeta.
  destruct (startsWith (toLowerCase entry) baseLower); [|reflexivity].
  cbn [negb andb].
  destruct (includes allowedSuffixes
              (slice (toLowerCase entry) (List.length baseLower))); reflexivity.
Qed.

Lemma fold_gatherStep : forall dir baseLower entries acc,
  fold_left (gatherStep dir baseLower) entries acc =
  acc ++ map (path_join dir) (filter (included baseLower) entries).
Proof.
  intros dir baseLower. induction entries as [|e es IH]; intros acc; simpl.
  - rewrite app_nil_r. reflexivity.
  - rewrite IH, gatherStep_included.
    destruct (included baseLower e); simpl.
    + rewrite <- app_assoc. reflexivity.
    + reflexivity.
Qed.

Lemma collect_filter : forall dir baseLower entries,
  collect dir baseLower entries =
  map (path_join dir) (filter (included baseLower) entries).
Proof. intros. unfold collect. rewrite fold_gatherStep. reflexivity. Qed.


(** What [gatherComponents] does once the directory has been listed. *)
Lemma gatherComponents_listed : forall shpPath w entries w1,
  fs_readdir (path_dirname shpPath) w = (Ok entries, w1) ->
  gatherComponents shpPath w =
  (match checkRequired shpPath
           (collect (path_dirname shpPath)
                    (toLowerCase (path_parse_name shpPath)) entries)
           required with
   | Ok _ => Ok (collect (path_dirname shpPath)
                         (toLowerCase (path_parse_name shpPath)) entries)
   | Throw e => Throw e
   end, w1, [Readdir (path_dirname shpPath)]).
Proof.
  intros shpPath w entries w1 L. unfold gatherComponents. run_monad.
  rewrite L. destruct (checkRequired _ _ _); reflexivity.
Qed.

Lemma gatherComponents_unlisted : forall shpPath w e w1,
  fs_readdir (path_dirname shpPath) w = (Throw e, w1) ->
  gatherComponents shpPath w = (Throw e, w1, [Readdir (path_dirname shpPath)]).
Proof.
  intros shpPath w e w1 L. unfold gatherComponents. run_monad.
  rewrite L. reflexivity.
Qed.

(** *** The check of the mandatory extensions *)

Lemma find_none_iff : forall (A : Type) (f : A -> bool) l,
  find f l = None <-> forall x, In x l -> f x = false.
Proof.
  intros A f. induction l as [|a l IH]; simpl.
  - split; [intros _ x [] | reflexivity].
  - destruct (f a) eqn:Fa.
    + split; [discriminate|]. intros ALL.
      rewrite (ALL a (or_introl eq_refl)) in Fa. discriminate.
    + rewrite IH. split.
      * intros ALL x [<-|Hx]; auto.
      * intros ALL x Hx. apply ALL. right. exact Hx.
Qed.

Lemma not_hasExtension : forall components ext,
  ~ hasExtension components ext <->
  find (fun file => endsWith (toLowerCase file) ext) components = None.
Proof.
  intros components ext. rewrite find_none_iff. unfold hasExtension. split.
  - intros N x Hx. destruct (endsWith (toLowerCase x) ext) eqn:E; [|reflexivity].
    exfalso. apply N. exists x. auto.
  - intros ALL [file [Hf E]]. rewrite (ALL file Hf) in E. discriminate.
Qed.

(** A file that ends in a non-empty extension has a non-empty path. *)
Lemma found_truthy : forall file ext,
  ext <> [] -> endsWith (toLowerCase file) ext = true -> truthy file = true.
Proof.
  intros [|c file] ext NE E; [|reflexivity].
  rewrite toLowerCase_empty, endsWith_empty in E by exact NE. discriminate.
Qed.

Lemma checkRequired_present : forall shpPath components exts,
  (forall ext, In ext exts -> ext <> []) ->
  (forall ext, In ext exts -> hasExtension components ext) ->
  checkRequired shpPath components exts = Ok tt.
Proof.
  intros shpPath components. induction exts as [|ext exts IH]; intros NE ALL; simpl.
  - reflexivity.
  - destruct (find _ components) as [found|] eqn:F.
    + apply find_some in F as [_ E].
      rewrite (found_truthy found ext (NE ext (or_introl eq_refl)) E). simpl.
      apply IH; intros x Hx; [apply NE | apply ALL]; right; exact Hx.
    + exfalso. apply not_hasExtension in F. apply F. apply ALL. left. reflexivity.
Qed.

Lemma checkRequired_missing : forall shpPath components exts,
  (forall ext, In ext exts -> ext <> []) ->
  (exists ext, In ext exts /\ ~ hasExtension components ext) ->
  exists missing,
    In missing exts /\ ~ hasExtension components missing
    /\ checkRequired shpPath components exts
       = Throw (missingMessage missing shpPath).
Proof.
  intros shpPath components. induction exts as [|ext exts IH]; intros NE [x [Hx Nx]].
  - destruct Hx.
  - simpl. destruct (find _ components) as [found|] eqn:F.
    + pose proof (find_some _ _ F) as [Hf E].
      rewrite (found_truthy found ext (NE ext (or_introl eq_refl)) E). simpl.
      destruct Hx as [<-|Hx].
      * exfalso. apply Nx. exists found. auto.
      * destruct IH as [missing [Hm [Nm R]]].
        -- intros y Hy. apply NE. right. exact Hy.
        -- exists x. auto.
        -- exists missing. split; [right; exact Hm | auto].
    + exists ext. split; [left; reflexivity|]. split; [|reflexivity].
      apply not_hasExtension. exact F.
Qed.

Lemma required_nonempty : forall ext, In ext required -> ext <> [].
Proof.
  intros ext I. unfold required in I. simpl in I.
  destruct I as [<-|[<-|[<-|[]]]]; discriminate.
Qed.

Lemma required_dotted : forall ext,
  In ext required -> lit "." ++ slice ext 1 = ext.
Proof.
  intros ext I. unfold required in I. simpl in I.
  destruct I as [<-|[<-|[<-|[]]]]; reflexivity.
Qed.

Lemma hasExtension_perm : forall c c' ext,
  Permutation c c' -> hasExtension c ext -> hasExtension c' ext.
Proof.
  intros c c' ext P [file [I E]]. exists file. split; [|exact E].
  eapply Permutation_in; eauto.
Qed.

(** The check looks at which extensions are present, not at the order of
    the components. *)
Lemma checkRequired_perm : forall shpPath c c' exts,
  (forall ext, In ext exts -> ext <> []) ->
  Permutation c c' ->
  checkRequired shpPath c exts = checkRequired shpPath c' exts.
Proof.
  intros shpPath c c'. induction exts as [|ext exts IH]; intros NE P; simpl.
  - reflexivity.
  - assert (NE' : forall x, In x exts -> x <> []) by (intros x Hx; apply NE; right; exact Hx).
    destruct (find _ c) as [f1|] eqn:F1; destruct (find _ c') as [f2|] eqn:F2.
    + apply find_some in F1 as [_ E1]. apply find_some in F2 as [_ E2].
      rewrite (found_truthy f1 ext (NE ext (or_introl eq_refl)) E1).
      rewrite (found_truthy f2 ext (NE ext (or_introl eq_refl)) E2).
      simpl. apply IH; assumption.
    + exfalso. apply not_hasExtension in F2. apply F2.
      apply (hasExtension_perm _ _ _ P). apply find_some in F1 as [I1 E1].
      exists f1. auto.
    + exfalso. apply not_hasExtension in F1. apply F1.
      apply (hasExtension_perm _ _ _ (Permutation_sym P)).
      apply find_some in F2 as [I2 E2]. exists f2. auto.
    + reflexivity.
Qed.

Lemma filter_perm : forall (A : Type) (f : A -> bool) l l',
  Permutation l l' -> Permutation (filter f l) (filter f l').
Proof.
  intros A f l l' P. induction P; simpl.
  - constructor.
  - destruct (f x); [constructor|]; assumption.
  - destruct (f x), (f y);
      solve [ apply perm_swap | apply Permutation_refl ].
  - eapply Permutation_trans; eassumption.
Qed.

Lemma collect_perm : forall dir baseLower entries entries',
  Permutation entries entries' ->
  Permutation (collect dir baseLower entries) (collect dir baseLower entries').
Proof.
  intros. rewrite !collect_filter. apply Permutation_map. apply filter_perm.
  assumption.
Qed.


(** C8. On an unchanged directory, grouping the same primary file twice
    gives the same outcome both times; and the outcome does not depend on
    the order of the listing: the same error, or the same components up to
    their order. *)
Theorem grouping_idempotent : forall shpPath w entries w1 w2,
  fs_readdir (path_dirname shpPath) w = (Ok entries, w1) ->
  fs_readdir (path_dirname shpPath) w1 = (Ok entries, w2) ->
  outcome ((first <- attempt (gatherComponents shpPath) ;;
            second <- attempt (gatherComponents shpPath) ;;
            ret (first, second)) w)
  = Ok (outcome (gatherComponents shpPath w), outcome (gatherComponents shpPath w))
  /\ forall w' entries' w1',
       fs_readdir (path_dirname shpPath) w' = (Ok entries', w1') ->
       Permutation entries entries' ->
       match outcome (gatherComponents shpPath w),
             outcome (gatherComponents shpPath w') with
       | Ok components, Ok components' => Permutation components components'
       | Throw e, Throw e' => e = e'
       | _, _ => False
       end.
Proof.
  intros shpPath w entries w1 w2 L1 L2. split.
  - run_monad.
    rewrite (gatherComponents_listed shpPath w _ _ L1).
    rewrite (gatherComponents_listed shpPath w1 _ _ L2). reflexivity.
  - intros w' entries' w1' L' P.
    rewrite (gatherComponents_listed shpPath w _ _ L1).
    rewrite (gatherComponents_listed shpPath w' _ _ L').
    pose proof (collect_perm (path_dirname shpPath)
                  (toLowerCase (path_parse_name shpPath)) _ _ P) as PC.
    rewrite (checkRequired_perm shpPath _ _ required required_nonempty PC).
    unfold outcome. cbn [fst].
    destruct (checkRequired _ _ _); [exact PC | reflexivity].
Qed.

End Grouping.

Section Driver.
Context {H : Host}.

(** *** The loop of [main] *)

Lemma removeZip_run : forall zipPath w,
  zipPath <> [] ->
  outcome (removeZip zipPath w) = Ok tt
  /\ trace (removeZip zipPath w) = [Rm zipPath false true].
Proof.
  intros zipPath w NE. unfold removeZip.
  apply truthy_nonempty in NE. rewrite NE. run_monad.
  destruct (fs_rm zipPath false true w) as [r w1]. split; reflexivity.
Qed.

Lemma removeZip_returns : forall zipPath w,
  outcome (removeZip zipPath w) = Ok tt.
Proof.
  intros zipPath w. unfold removeZip. destruct (truthy zipPath); run_monad.
  - destruct (fs_rm zipPath false true w) as [r w1]. reflexivity.
  - reflexivity.
Qed.

Lemma publishStage_run : forall o authHeader shpPath zipPath w,
  let tried := uploadAndPublish o authHeader shpPath zipPath w in
  publishStage o authHeader shpPath zipPath w =
  (outcome (removeZip zipPath (after tried)),
   after (removeZip zipPath (after tried)),
   trace tried ++ reportOf o shpPath (outcome tried)
   ++ trace (removeZip zipPath (after tried))).
Proof.
  intros o authHeader shpPath zipPath w tried. unfold publishStage.
  subst tried. run_monad.
  destruct (uploadAndPublish o authHeader shpPath zipPath w) as [[r w1] t].
  destruct r as [[]|message]; cbn [reportOf];
    destruct (removeZip zipPath w1) as [[r2 w2] t2]; cbn [app];
    rewrite ?app_nil_r; reflexivity.
Qed.

Lemma publishStage_returns : forall o authHeader shpPath zipPath w,
  outcome (publishStage o authHeader shpPath zipPath w) = Ok tt.
Proof.
  intros. rewrite publishStage_run. unfold outcome at 1. cbn [fst].
  apply removeZip_returns.
Qed.

Lemma processShapefile_skipped : forall o authHeader tempDir shpPath w message w1 t,
  gatherComponents shpPath w = (Throw message, w1, t) ->
  processShapefile o authHeader tempDir shpPath w =
  (Ok tt, w1,
   ConsoleLog (processingNotice (path_relative (directory o) shpPath)
                                (storeNameOf o shpPath) (layerNameOf o shpPath))
   :: t ++ [ConsoleError (skippingNotice (path_relative (directory o) shpPath)
                                         message)]).
Proof.
  intros o authHeader tempDir shpPath w message w1 t G.
  unfold processShapefile. run_monad. rewrite G. reflexivity.
Qed.

Lemma processShapefile_unzipped : forall o authHeader tempDir shpPath w
  components w1 t1 message w2 t2,
  gatherComponents shpPath w = (Ok components, w1, t1) ->
  zipStage o tempDir shpPath components w1 = (Throw message, w2, t2) ->
  processShapefile o authHeader tempDir shpPath w =
  (Ok tt, w2,
   ConsoleLog (processingNotice (path_relative (directory o) shpPath)
                                (storeNameOf o shpPath) (layerNameOf o shpPath))
   :: t1 ++ t2
   ++ [ConsoleError (zipFailedNotice (path_relative (directory o) shpPath)
                                     message)]).
Proof.
  intros o authHeader tempDir shpPath w components w1 t1 message w2 t2 G Z.
  unfold processShapefile. run_monad. rewrite G. run_monad. rewrite Z.
  reflexivity.
Qed.

Lemma processShapefile_zipped : forall o authHeader tempDir shpPath w
  components w1 t1 zipPath w2 t2,
  gatherComponents shpPath w = (Ok components, w1, t1) ->
  zipStage o tempDir shpPath components w1 = (Ok zipPath, w2, t2) ->
  let staged := publishStage o authHeader shpPath zipPath w2 in
  processShapefile o authHeader tempDir shpPath w =
  (outcome staged, after staged,
   ConsoleLog (processingNotice (path_relative (directory o) shpPath)
                                (storeNameOf o shpPath) (layerNameOf o shpPath))
   :: t1 ++ t2 ++ trace staged).
Proof.
  intros o authHeader tempDir shpPath w components w1 t1 zipPath w2 t2 G Z staged.
  unfold processShapefile. run_monad. rewrite G. run_monad. rewrite Z.
  subst staged.
  destruct (publishStage o authHeader shpPath zipPath w2) as [[r w3] t3].
  reflexivity.
Qed.

(** The body of the loop never throws: each of its steps is caught. *)
Lemma processShapefile_returns : forall o authHeader tempDir shpPath w,
  outcome (processShapefile o authHeader tempDir shpPath w) = Ok tt.
Proof.
  intros o authHeader tempDir shpPath w.
  destruct (gatherComponents shpPath w) as [[[components|message] w1] t1] eqn:G.
  - destruct (zipStage o tempDir shpPath components w1)
      as [[[zipPath|message] w2] t2] eqn:Z.
    + rewrite (processShapefile_zipped o authHeader tempDir shpPath w _ _ _ _ _ _ G Z).
      unfold outcome at 1. cbn [fst]. apply publishStage_returns.
    + rewrite (processShapefile_unzipped o authHeader tempDir shpPath w _ _ _ _ _ _ G Z).
      reflexivity.
  - rewrite (processShapefile_skipped o authHeader tempDir shpPath w _ _ _ G).
    reflexivity.
Qed.

Lemma processAll_cons : forall o authHeader tempDir shpPath rest w,
  let one := processShapefile o authHeader tempDir shpPath w in
  let others := processAll o authHeader tempDir rest (after one) in
  processAll o authHeader tempDir (shpPath :: rest) w =
  (outcome others, after others, trace one ++ trace others).
Proof.
  intros o authHeader tempDir shpPath rest w one others.
  pose proof (processShapefile_returns o authHeader tempDir shpPath w) as R.
  subst others one. cbn [processAll]. run_monad.
  destruct (processShapefile o authHeader tempDir shpPath w) as [[r w1] t1].
  unfold outcome in R. cbn [fst] in R. subst r.
  destruct (processAll o authHeader tempDir rest w1) as [[r2 w2] t2].
  reflexivity.
Qed.

Lemma processAll_returns : forall o authHeader tempDir shapefiles w,
  outcome (processAll o authHeader tempDir shapefiles w) = Ok tt.
Proof.
  intros o authHeader tempDir. induction shapefiles as [|shpPath rest IH]; intros w.
  - reflexivity.
  - rewrite processAll_cons. unfold outcome at 1. cbn [fst]. apply IH.
Qed.


(** C3. When the components gathered for a primary file lack one of the
    three mandatory extensions, [gatherComponents] throws an error whose
    message names a missing extension and the path of the primary file;
    the loop of [main] catches it, reports it, makes no packaging, upload
    or publish call for that dataset, and goes on with the datasets that
    follow. *)
Theorem missing_component_isolated :
  forall o authHeader tempDir shpPath rest w entries w1,
  fs_readdir (path_dirname shpPath) w = (Ok entries, w1) ->
  let dir := path_dirname shpPath in
  let components :=
    collect dir (toLowerCase (path_parse_name shpPath)) entries in
  (exists ext, In ext required /\ ~ hasExtension components ext) ->
  exists missing,
    In missing required
    /\ ~ hasExtension components missing
    /\ missingMessage missing shpPath
       = lit "Missing required " ++ quoted missing
         ++ lit " file for shapefile " ++ quoted shpPath ++ lit "."
    /\ gatherComponents shpPath w
       = (Throw (missingMessage missing shpPath), w1, [Readdir dir])
    /\ let others := processAll o authHeader tempDir rest w1 in
       processAll o authHeader tempDir (shpPath :: rest) w
       = (outcome others, after others,
          [ConsoleLog (processingNotice (path_relative (directory o) shpPath)
                                        (storeNameOf o shpPath)
                                        (layerNameOf o shpPath));
           Readdir dir;
           ConsoleError (skippingNotice (path_relative (directory o) shpPath)
                                        (missingMessage missing shpPath))]
          ++ trace others).
Proof.
  intros o authHeader tempDir shpPath rest w entries w1 L dir components M.
  destruct (checkRequired_missing shpPath components required
              required_nonempty M) as [missing [I [N R]]].
  assert (G : gatherComponents shpPath w
              = (Throw (missingMessage missing shpPath), w1, [Readdir dir])).
  { rewrite (gatherComponents_listed shpPath w _ _ L).
    fold dir components. rewrite R. reflexivity. }
  exists missing. repeat split; try assumption.
  - unfold missingMessage. rewrite (required_dotted missing I). reflexivity.
  - rewrite processAll_cons.
    rewrite (processShapefile_skipped o authHeader tempDir shpPath w _ _ _ G).
    reflexivity.
Qed.


(** *** Discovery only reads directories *)

Section DirentInduction.
Variable P : dirent -> Prop.
Hypothesis Pfile : forall name, P (EntFile name).
Hypothesis Pother : forall name, P (EntOther name).
Hypothesis Pfailed : forall name e, P (EntDir name (Throw e)).
Hypothesis Pdir : forall name entries, Forall P entries -> P (EntDir name (Ok entries)).

Fixpoint dirent_nested_ind (d : dirent) : P d :=
  match d with
  | EntFile name => Pfile name
  | EntOther name => Pother name
  | EntDir name (Throw e) => Pfailed name e
  | EntDir name (Ok entries) =>
      Pdir name entries
        ((fix all (l : list dirent) : Forall P l :=
            match l with
            | [] => Forall_nil P
            | x :: l' => Forall_cons x (dirent_nested_ind x) (all l')
            end) entries)
  end.

End DirentInduction.

Lemma onlyScans_app : forall t1 t2,
  onlyScans t1 -> onlyScans t2 -> onlyScans (t1 ++ t2).
Proof.
  intros t1 t2 S1 S2 e I. apply in_app_or in I as [I|I]; auto.
Qed.

Lemma onlyScans_cons : forall dir t,
  onlyScans t -> onlyScans (ReaddirTypes dir :: t).
Proof. intros dir t S e [<-|I]; [eexists; reflexivity | auto]. Qed.

Lemma onlyScans_nil : onlyScans [].
Proof. intros e []. Qed.

Lemma walkEntries_scans : forall visit entries,
  Forall (fun d => onlyScans (snd (visit d))) entries ->
  onlyScans (snd (walkEntries visit entries)).
Proof.
  intros visit entries F. induction F as [|d l Hd _ IH]; simpl.
  - apply onlyScans_nil.
  - destruct (visit d) as [[found|e] t1]; simpl in *; [|exact Hd].
    destruct (walkEntries visit l) as [[more|e] t2]; simpl in *;
      apply onlyScans_app; assumption.
Qed.

Lemma visitEntry_scans : forall entry dir,
  onlyScans (snd (visitEntry dir entry)).
Proof.
  induction entry using dirent_nested_ind; intros dir; simpl.
  - destruct (endsWith _ _); apply onlyScans_nil.
  - apply onlyScans_nil.
  - apply onlyScans_cons, onlyScans_nil.
  - pose proof (walkEntries_scans (visitEntry (path_join dir name)) entries) as W.
    destruct (walkEntries _ entries) as [r t]. simpl in *.
    apply onlyScans_cons, W.
    eapply Forall_impl; [|eassumption]. intros d Hd. apply Hd.
Qed.

Lemma collectShapefiles_scans : forall rootDir w,
  onlyScans (trace (collectShapefiles rootDir w)).
Proof.
  intros rootDir w. unfold collectShapefiles, trace.
  destruct (fs_scan rootDir w) as [[entries|e] w1]; unfold walkListing.
  - pose proof (walkEntries_scans (visitEntry rootDir) entries) as W.
    destruct (walkEntries _ entries) as [r t]. simpl in *.
    apply onlyScans_cons, W.
    apply Forall_forall. intros d _. apply visitEntry_scans.
  - simpl. apply onlyScans_cons, onlyScans_nil.
Qed.

(** C7. When discovery finds no primary file, the run reads the
    directories, prints that there is nothing to do and returns: it makes
    no temporary directory, sends no request, leaves the exit code alone,
    and does not depend on the credentials. *)
Theorem nothing_found_nothing_done : forall o w w1 w2 t,
  fs_access (directory o) w = (Ok tt, w1) ->
  collectShapefiles (directory o) w1 = (Ok [], w2, t) ->
  main (Ok o) w
  = (Ok tt, w2,
     Access (directory o) :: t ++ [ConsoleLog (nothingToDo (directory o))])
  /\ (forall e, In e (trace (main (Ok o) w)) ->
      match e with
      | Access _ | ReaddirTypes _ | ConsoleLog _ => True
      | _ => False
      end)
  /\ (forall user pass,
      main (Ok (Options (directory o) (geoserverUrl o) (workspace o) user pass
                        (storePrefix o) (layerPrefix o) (overwrite o))) w
      = main (Ok o) w).
Proof.
  intros o w w1 w2 t A C.
  assert (R : forall o', directory o' = directory o ->
     main (Ok o') w
     = (Ok tt, w2,
        Access (directory o) :: t ++ [ConsoleLog (nothingToDo (directory o))])).
  { intros o' E.
    assert (R : run o' w
                = (Ok tt, w2,
                   Access (directory o) :: t
                   ++ [ConsoleLog (nothingToDo (directory o))])).
    { unfold run. rewrite E. run_monad. rewrite A. run_monad. rewrite C.
      reflexivity. }
    unfold main. run_monad. rewrite R. rewrite app_nil_r. reflexivity. }
  split; [|split].
  - apply R. reflexivity.
  - rewrite (R o eq_refl). unfold trace. cbn [snd].
    intros e [<-|I]; [exact Logic.I|].
    apply in_app_or in I as [I|[<-|[]]]; [|exact Logic.I].
    pose proof (collectShapefiles_scans (directory o) w1) as S.
    rewrite C in S. destruct (S e I) as [dir ->]. exact Logic.I.
  - intros user pass. rewrite (R o eq_refl). apply R. reflexivity.
Qed.

End Driver.

(** *** The sanitized name *)

Section Sanitize.

Lemma wordsFrom_allws : forall s word,
  forallb isWhiteSpace s = true ->
  wordsFrom word s = if truthy word then [word] else [].
Proof.
  induction s as [|c s IH]; intros word W; simpl in *.
  - reflexivity.
  - apply andb_true_iff in W as [Wc Ws]. rewrite Wc, (IH [] Ws). simpl.
    apply app_nil_r.
Qed.

Lemma wordsFrom_word : forall s word, word <> [] -> wordsFrom word s <> [].
Proof.
  induction s as [|c s IH]; intros word NE; simpl.
  - destruct word; [congruence | discriminate].
  - destruct (isWhiteSpace c).
    + destruct word; [congruence | discriminate].
    + apply IH. destruct word; discriminate.
Qed.

Lemma wordsFrom_some : forall s word,
  forallb isWhiteSpace s = false -> wordsFrom word s <> [].
Proof.
  induction s as [|c s IH]; intros word W; simpl in *.
  - discriminate.
  - destruct (isWhiteSpace c); simpl in W.
    + intros E. apply app_eq_nil in E as [_ E]. exact (IH [] W E).
    + apply wordsFrom_word. destruct word; discriminate.
Qed.

Lemma words_trimStart : forall s, words (trimStart s) = words s.
Proof.
  unfold words. induction s as [|c s IH]; simpl.
  - reflexivity.
  - destruct (isWhiteSpace c) eqn:Wc; simpl.
    + exact IH.
    + rewrite Wc. reflexivity.
Qed.

Lemma wordsFrom_trimEnd : forall s word,
  wordsFrom word (trimEnd s) = wordsFrom word s.
Proof.
  induction s as [|c s IH]; intros word.
  - reflexivity.
  - rewrite trimEnd_cons. destruct (forallb isWhiteSpace s) eqn:Ws.
    + destruct (isWhiteSpace c) eqn:Wc; simpl; rewrite ?Wc.
      * rewrite (wordsFrom_allws s [] Ws). simpl. rewrite app_nil_r. reflexivity.
      * rewrite (wordsFrom_allws s (word ++ [c]) Ws). reflexivity.
    + simpl. destruct (isWhiteSpace c); rewrite IH; reflexivity.
Qed.

Lemma words_trim : forall s, words (trim s) = words s.
Proof.
  intros s. unfold trim, words. rewrite wordsFrom_trimEnd.
  apply words_trimStart.
Qed.

Lemma joinWith_cons : forall sep x l,
  l <> [] -> joinWith sep (x :: l) = x ++ sep ++ joinWith sep l.
Proof. intros sep x [|y l] NE; [congruence | reflexivity]. Qed.

(** The replacement, run over a string whose end has been trimmed, writes
    the words one after the other: [word] is the part of the current word
    that was written before [s], and inside a run of whitespace the
    separator has been written already. *)
Lemma replaceRuns_words : forall sep s,
  (forall word, word <> [] ->
     joinWith sep (wordsFrom word s) = word ++ replaceRuns sep false (trimEnd s))
  /\ joinWith sep (wordsFrom [] s) = replaceRuns sep true (trimEnd s).
Proof.
  intros sep. induction s as [|c s [IH1 IH2]].
  - split.
    + intros word NE. simpl. destruct word; [congruence|].
      simpl. rewrite app_nil_r. reflexivity.
    + reflexivity.
  - split.
    + intros word NE. rewrite trimEnd_cons. simpl wordsFrom.
      destruct (isWhiteSpace c) eqn:Wc.
      * destruct word as [|d word]; [congruence|]. simpl truthy. cbv iota.
        destruct (forallb isWhiteSpace s) eqn:Ws.
        -- rewrite (wordsFrom_allws s [] Ws). simpl.
           rewrite app_nil_r. reflexivity.
        -- simpl app. rewrite joinWith_cons by (apply wordsFrom_some; exact Ws).
           rewrite IH2. simpl replaceRuns. rewrite Wc. reflexivity.
      * rewrite IH1 by (destruct word; discriminate).
        destruct (forallb isWhiteSpace s) eqn:Ws.
        -- rewrite (trimEnd_allws s Ws). simpl. rewrite Wc.
           rewrite <- app_assoc. reflexivity.
        -- simpl replaceRuns. rewrite Wc. rewrite <- app_assoc. reflexivity.
    + rewrite trimEnd_cons. simpl wordsFrom.
      destruct (isWhiteSpace c) eqn:Wc.
      * cbn [truthy app]. rewrite IH2.
        destruct (forallb isWhiteSpace s) eqn:Ws.
        -- rewrite (trimEnd_allws s Ws). reflexivity.
        -- simpl. rewrite Wc. reflexivity.
      * cbn [app]. rewrite IH1 by discriminate.
        destruct (forallb isWhiteSpace s) eqn:Ws.
        -- rewrite (trimEnd_allws s Ws). simpl. rewrite Wc. reflexivity.
        -- simpl. rewrite Wc. reflexivity.
Qed.

(** What the code computes is what the design document says. *)
Lemma sanitizeName_collapsed : forall name,
  sanitizeName name = collapsedName name.
Proof.
  intros name. unfold sanitizeName, collapsedName, replaceWhitespaceRuns.
  rewrite <- (words_trimStart name). unfold trim, words.
  destruct (trimStart name) as [|c s] eqn:T.
  - reflexivity.
  - assert (Wc : isWhiteSpace c = false).
    { destruct name as [|d name]; [discriminate|].
      revert T. clear. revert d. induction name as [|e name IH]; intros d T.
      - simpl in T. destruct (isWhiteSpace d) eqn:Wd; [discriminate|].
        injection T as <- _. exact Wd.
      - simpl in T. destruct (isWhiteSpace d) eqn:Wd.
        + apply (IH e). simpl. exact T.
        + injection T as <- _. exact Wd. }
    simpl wordsFrom. rewrite Wc.
    destruct (replaceRuns_words (lit "_") s) as [R1 _].
    rewrite (R1 [c]) by discriminate.
    rewrite trimEnd_cons.
    destruct (forallb isWhiteSpace s) eqn:Ws.
    + rewrite Wc, (trimEnd_allws s Ws). simpl. rewrite Wc. reflexivity.
    + simpl. rewrite Wc. reflexivity.
Qed.

End Sanitize.

Section Requests.
Context {H : Host}.

Lemma uploadParams_text : forall overwrite,
  paramsToString (uploadParams overwrite)
  = lit "charset=UTF-8&configure=none"
    ++ (if overwrite then lit "&update=overwrite" else []).
Proof. intros [|]; reflexivity. Qed.

(** C4. Once the bundle has been read, the upload client sends its bytes
    in one PUT to [{base}/rest/workspaces/{workspace}/datastores/{store}/file.shp]
    (the two names percent-encoded) with the query [charset=UTF-8],
    [configure=none] and, exactly when the overwrite flag is set,
    [update=overwrite]; a response outside 200-299 makes it throw an error
    whose message carries the status and the body of the response, and
    which the last [try] of the loop catches, so that it ends that dataset
    only. *)
Theorem upload_request :
  forall (geoserverUrl workspace storeName zipPath authHeader : jsstring)
         (overwrite : bool) w ws store bytes w1,
  encodeURIComponent workspace = Ok ws ->
  encodeURIComponent storeName = Ok store ->
  fs_readFile zipPath w = (Ok bytes, w1) ->
  let target :=
    geoserverUrl ++ lit "/rest/workspaces/" ++ ws ++ lit "/datastores/" ++ store
    ++ lit "/file.shp?" ++ lit "charset=UTF-8&configure=none"
    ++ (if overwrite then lit "&update=overwrite" else []) in
  let req :=
    Request target PUT
      [(lit "Content-Type", lit "application/zip");
       (lit "Authorization", authHeader);
       (lit "Content-Length", numberToString (N.of_nat (List.length bytes)))]
      (BufferBody bytes) in
  forall answer w2,
  http_fetch req w1 = (answer, w2) ->
  let sent :=
    uploadDatastoreZip geoserverUrl workspace storeName zipPath authHeader
                       overwrite w in
  trace sent = [ReadFile zipPath; Fetch req]
  /\ after sent = w2
  /\ outcome sent
     = match answer with
       | Ok r =>
           if ((200 <=? status r) && (status r <=? 299))%N then Ok tt
           else Throw (lit "Upload failed for datastore " ++ quoted storeName
                       ++ lit ". Status " ++ numberToString (status r)
                       ++ lit " " ++ statusText r
                       ++ lit ". Response: " ++ text r)
       | Throw e => Throw e
       end
  /\ (forall o auth shpPath zip w0,
      outcome (publishStage o auth shpPath zip w0) = Ok tt).
Proof.
  intros geoserverUrl workspace storeName zipPath authHeader overwrite
         w ws store bytes w1 EW ES RF target req answer w2 F sent.
  assert (S : sent
              = (match answer with
                 | Ok r =>
                     if ok r then Ok tt
                     else Throw (uploadFailedMessage storeName r (text r))
                 | Throw e => Throw e
                 end, w2, [ReadFile zipPath; Fetch req])).
  { subst sent. unfold uploadDatastoreZip.
    rewrite EW, ES, uploadParams_text.
    run_monad. rewrite RF. run_monad. fold target. fold req. rewrite F.
    destruct answer as [r|e]; [|reflexivity].
    destruct (ok r); reflexivity. }
  rewrite S. split; [reflexivity|]. split; [reflexivity|].
  split; [|intros; apply publishStage_returns].
  destruct answer as [r|e]; reflexivity.
Qed.

(** C1. When the create request of [publishLayer] is answered with 409:
    without the overwrite flag, the function prints the skip notice and
    returns, having sent only that request; with the flag, it sends one
    more request, a PUT of the same descriptor to the resource of the
    existing feature type, and no second POST, returns when the answer is
    in 200-299 and otherwise throws an error whose message carries the
    status and the body of the answer. The last [try] of the loop catches
    what [publishLayer] throws, so the error ends that dataset only. *)
Theorem publish_conflict :
  forall geoserverUrl workspace storeName layerName nativeName authHeader
         w ws store conflict w1,
  encodeURIComponent workspace = Ok ws ->
  encodeURIComponent storeName = Ok store ->
  let descriptor := JsonBody (featurePayload layerName nativeName) in
  let collection :=
    geoserverUrl ++ lit "/rest/workspaces/" ++ ws ++ lit "/datastores/" ++ store
    ++ lit "/featuretypes" in
  let post :=
    Request (collection ++ lit "?recalculate=nativebbox,latlonbbox") POST
            (jsonHeaders authHeader) descriptor in
  http_fetch post w = (Ok conflict, w1) ->
  status conflict = 409%N ->
  publishLayer geoserverUrl workspace storeName layerName nativeName
               authHeader false w
  = (Ok tt, w1, [Fetch post; ConsoleWarn (skipNotice layerName workspace)])
  /\ (forall layer answer w2,
      encodeURIComponent layerName = Ok layer ->
      let put :=
        Request (collection ++ lit "/" ++ layer
                 ++ lit "?recalculate=nativebbox,latlonbbox") PUT
                (jsonHeaders authHeader) descriptor in
      http_fetch put w1 = (answer, w2) ->
      let updated :=
        publishLayer geoserverUrl workspace storeName layerName nativeName
                     authHeader true w in
      trace updated = [Fetch post; Fetch put]
      /\ after updated = w2
      /\ outcome updated
         = match answer with
           | Ok r =>
               if ((200 <=? status r) && (status r <=? 299))%N then Ok tt
               else Throw (lit "Failed to update existing layer "
                           ++ quoted layerName
                           ++ lit ". Status " ++ numberToString (status r)
                           ++ lit " " ++ statusText r
                           ++ lit ". Response: " ++ text r)
           | Throw e => Throw e
           end)
  /\ (forall o auth shpPath zipPath w0,
      outcome (publishStage o auth shpPath zipPath w0) = Ok tt).
Proof.
  intros geoserverUrl workspace storeName layerName nativeName authHeader
         w ws store conflict w1 EW ES descriptor collection post F C.
  assert (U : geoserverUrl ++ lit "/rest/workspaces/" ++ ws
              ++ lit "/datastores/" ++ store ++ lit "/featuretypes" ++ recalculate
              = collection ++ lit "?recalculate=nativebbox,latlonbbox").
  { unfold collection. rewrite <- !app_assoc. reflexivity. }
  assert (NOK : ok conflict = false).
  { unfold ok. rewrite C. reflexivity. }
  split; [|split].
  - unfold publishLayer. rewrite EW, ES. run_monad. rewrite U.
    fold descriptor. fold post. rewrite F. run_monad.
    rewrite NOK, C. reflexivity.
  - intros layer answer w2 EL put FP updated. subst updated.
    assert (U2 : geoserverUrl ++ lit "/rest/workspaces/" ++ ws
                 ++ lit "/datastores/" ++ store ++ lit "/featuretypes/"
                 ++ layer ++ recalculate
                 = collection ++ lit "/" ++ layer
                   ++ lit "?recalculate=nativebbox,latlonbbox").
    { unfold collection. rewrite <- !app_assoc. reflexivity. }
    unfold publishLayer. rewrite EW, ES, EL. run_monad. rewrite U.
    fold descriptor. fold post. rewrite F. run_monad.
    rewrite NOK, C. cbn [N.eqb Pos.eqb negb]. rewrite U2. fold put.
    rewrite FP.
    destruct answer as [r|e]; [|repeat split; reflexivity].
    unfold ok. destruct ((200 <=? status r) && (status r <=? 299))%N;
      repeat split; reflexivity.
  - intros. apply publishStage_returns.
Qed.

(** *** The descriptor that is sent *)

Ltac split_calls :=
  repeat match goal with
         | |- context [match ?x with _ => _ end] =>
             lazymatch x with
             | context [match _ with _ => _ end] => fail
             | _ => destruct x eqn:?
             end
         end.

Ltac pick_event :=
  simpl; intros;
  repeat match goal with
         | X : _ \/ _ |- _ => destruct X
         | X : False |- _ => destruct X
         | X : Fetch _ = Fetch _ |- _ => injection X as <-
         | X : _ = Fetch _ |- _ => discriminate X
         end.

Lemma in_trace_bind : forall (A B : Type) (m : M A) (k : A -> M B) w e,
  In e (trace (bind m k w)) ->
  In e (trace (m w))
  \/ exists a, outcome (m w) = Ok a /\ In e (trace (k a (after (m w)))).
Proof.
  intros A B m k w e. run_monad.
  destruct (m w) as [[[a|message] w1] t1]; run_monad; [|left; assumption].
  destruct (k a w1) as [[r w2] t2] eqn:K. intros I.
  apply in_app_or in I as [I|I]; [left; exact I|].
  right. exists a. split; [reflexivity|]. rewrite K. exact I.
Qed.

Lemma uploadDatastoreZip_bodies :
  forall geoserverUrl workspace storeName zipPath authHeader (overwrite : bool) w req,
  In (Fetch req)
     (trace (uploadDatastoreZip geoserverUrl workspace storeName zipPath
                                authHeader overwrite w)) ->
  exists bytes, body req = BufferBody bytes.
Proof.
  intros geoserverUrl workspace storeName zipPath authHeader overwrite w req.
  unfold uploadDatastoreZip. run_monad. split_calls; pick_event;
    eexists; reflexivity.
Qed.

Lemma publishLayer_bodies :
  forall geoserverUrl workspace storeName layerName nativeName authHeader
         (overwrite : bool) w req,
  In (Fetch req)
     (trace (publishLayer geoserverUrl workspace storeName layerName nativeName
                          authHeader overwrite w)) ->
  body req = JsonBody (featurePayload layerName nativeName).
Proof.
  intros geoserverUrl workspace storeName layerName nativeName authHeader
         overwrite w req.
  unfold publishLayer. run_monad. split_calls; pick_event; reflexivity.
Qed.

(** C5, as amended. The store name and the layer name are the configured
    prefix followed by the base name with its surrounding whitespace
    trimmed and every whitespace run inside collapsed to one underscore
    ("My Parcels" gives My_Parcels). The native name of the descriptor
    that is sent is the base name as [path.parse] gives it: neither
    trimmed nor sanitized. *)
Theorem names_of_dataset : forall o shpPath,
  storeNameOf o shpPath
  = storePrefix o ++ collapsedName (path_parse_name shpPath)
  /\ layerNameOf o shpPath
     = layerPrefix o ++ collapsedName (path_parse_name shpPath)
  /\ nativeNameOf shpPath = path_parse_name shpPath
  /\ sanitizeName (lit "My Parcels") = lit "My_Parcels"
  /\ (forall authHeader zipPath w req v,
      In (Fetch req)
         (trace (uploadAndPublish o authHeader shpPath zipPath w)) ->
      body req = JsonBody v ->
      v = featurePayload
            (layerPrefix o ++ collapsedName (path_parse_name shpPath))
            (path_parse_name shpPath)).
Proof.
  intros o shpPath.
  assert (S : sanitizeName (trim (path_parse_name shpPath))
              = collapsedName (path_parse_name shpPath)).
  { rewrite sanitizeName_collapsed. unfold collapsedName.
    rewrite words_trim. reflexivity. }
  assert (L : layerNameOf o shpPath
              = layerPrefix o ++ collapsedName (path_parse_name shpPath)).
  { unfold layerNameOf. cbv zeta. rewrite S. reflexivity. }
  repeat split.
  - unfold storeNameOf. cbv zeta. rewrite S. reflexivity.
  - exact L.
  - intros authHeader zipPath w req v I B. rewrite <- L.
    unfold uploadAndPublish in I. cbv zeta in I.
    apply in_trace_bind in I as [I|[[] [_ I]]].
    + apply uploadDatastoreZip_bodies in I as [bytes B']. congruence.
    + apply in_trace_bind in I as [I|[[] [_ I]]].
      * apply publishLayer_bodies in I. unfold nativeNameOf in I.
        cbv zeta in I. congruence.
      * destruct I as [I|[]]. discriminate I.
Qed.

End Requests.

End PublishFacts.

(* ================================================================== *)
(** ** The listing utility *)
(* ================================================================== *)

Module ListingFacts.
Import JS Runtime ListWfsUrls JSFacts.
Local Open Scope js_scope.
Import PublishFacts.

Section Listing.
Context {H : Host}.

Lemma ok_not_404 : forall r, ok r = true -> (status r =? 404)%N = false.
Proof.
  intros r O. unfold ok in O. apply andb_true_iff in O as [_ O].
  apply N.leb_le in O. apply N.eqb_neq. lia.
Qed.

Lemma fetchFeatureTypes_answered : forall geoserverUrl workspace authHeader w ws r w1,
  encodeURIComponent workspace = Ok ws ->
  http_fetch (listingRequest geoserverUrl ws authHeader) w = (Ok r, w1) ->
  fetchFeatureTypes geoserverUrl workspace authHeader w
  = (if (status r =? 404)%N then Ok []
     else if negb (ok r)
          then Throw (fetchFailedMessage workspace r (text r))
          else match JSON_parse (text r) with
               | Ok payload => Ok (normalize payload)
               | Throw e => Throw e
               end,
     w1, [Fetch (listingRequest geoserverUrl ws authHeader)]).
Proof.
  intros geoserverUrl workspace authHeader w ws r w1 E F.
  unfold fetchFeatureTypes. rewrite E. run_monad. rewrite F. run_monad.
  destruct (status r =? 404)%N; [reflexivity|].
  destruct (ok r); cbn [negb]; [|reflexivity].
  destruct (JSON_parse (text r)); reflexivity.
Qed.

(** C9. A 404 answer to the listing request gives the empty list of
    feature types, and so an empty result, with no error; any other answer
    outside 200-299 makes the utility throw an error whose message carries
    the status and the body of the answer. *)
Theorem listing_not_found_is_empty :
  forall geoserverUrl workspace username password maxFeatures w ws r w1,
  encodeURIComponent workspace = Ok ws ->
  let authHeader := buildAuthHeader username password in
  let req :=
    Request (geoserverUrl ++ lit "/rest/workspaces/" ++ ws
             ++ lit "/featuretypes.json" ++ lit "?count=10000&startIndex=0")
            GET
            [(lit "Accept", lit "application/json");
             (lit "Authorization", authHeader)]
            NoBody in
  http_fetch req w = (Ok r, w1) ->
  (status r = 404%N ->
   fetchFeatureTypes geoserverUrl workspace authHeader w
   = (Ok [], w1, [Fetch req])
   /\ getPublishedShapeWfsUrls geoserverUrl workspace username password
                               maxFeatures w
      = (Ok [], w1, [Fetch req]))
  /\ (status r <> 404%N ->
      ((200 <=? status r) && (status r <=? 299))%N = false ->
      let message :=
        lit "Failed to fetch feature types for workspace " ++ quoted workspace
        ++ lit ". Status " ++ numberToString (status r) ++ lit " "
        ++ statusText r ++ lit ". Response: " ++ text r in
      fetchFeatureTypes geoserverUrl workspace authHeader w
      = (Throw message, w1, [Fetch req])
      /\ getPublishedShapeWfsUrls geoserverUrl workspace username password
                                  maxFeatures w
         = (Throw message, w1, [Fetch req])).
Proof.
  intros geoserverUrl workspace username password maxFeatures w ws r w1 E
         authHeader req F.
  assert (Q : listingRequest geoserverUrl ws authHeader = req).
  { unfold listingRequest, req. cbv zeta. rewrite <- !app_assoc. reflexivity. }
  rewrite <- Q in F.
  pose proof (fetchFeatureTypes_answered geoserverUrl workspace authHeader
                w ws r w1 E F) as A.
  rewrite Q in A. split.
  - intros S. rewrite S in A. cbn [N.eqb Pos.eqb] in A.
    split; [exact A|].
    unfold getPublishedShapeWfsUrls. cbv zeta. fold authHeader.
    run_monad. rewrite A. reflexivity.
  - intros S NOK message. apply N.eqb_neq in S. rewrite S in A.
    unfold ok in A. rewrite NOK in A. cbn [negb] in A.
    split; [exact A|].
    unfold getPublishedShapeWfsUrls. cbv zeta. fold authHeader.
    run_monad. rewrite A. reflexivity.
Qed.

Lemma normalize_cases : forall payload,
  normalize payload
  = match featureTypeField payload with
    | None => []
    | Some JNull => []
    | Some (JArray items) => items
    | Some raw => if jsonTruthy raw then [raw] else []
    end.
Proof.
  intros payload. unfold normalize. cbv zeta.
  destruct (featureTypeField payload) as [[| | | | |]|]; reflexivity.
Qed.

Lemma lookupProp_lacks : forall props key,
  ~ In key (map fst props) -> lookupProp props key = None.
Proof.
  induction props as [|[k v] props IH]; intros key N; [reflexivity|].
  cbn [lookupProp]. destruct (str_eqb k key) eqn:E.
  - apply str_eqb_eq in E. exfalso. apply N. left. exact E.
  - apply IH. intros I. apply N. right. exact I.
Qed.

Lemma lookupProp_has : forall front back key x,
  ~ In key (map fst front) ->
  lookupProp (front ++ (key, x) :: back) key = Some x.
Proof.
  induction front as [|[k v] front IH]; intros back key x N.
  - cbn [app lookupProp]. rewrite str_eqb_refl. reflexivity.
  - cbn [app lookupProp]. destruct (str_eqb k key) eqn:E.
    + apply str_eqb_eq in E. exfalso. apply N. left. exact E.
    + apply IH. intros I. apply N. right. exact I.
Qed.

Lemma optChain_has : forall v key x,
  Observed.hasProp v key x -> optChain (Some v) key = Some x.
Proof.
  intros v key x [front [back [-> [N _]]]]. cbn [optChain getProp].
  apply lookupProp_has. exact N.
Qed.

Lemma optChain_lacks : forall v key,
  Observed.lacksProp v key -> optChain (Some v) key = None.
Proof.
  intros v key L. destruct v as [| | | | |props]; try reflexivity.
  cbn [optChain getProp]. apply lookupProp_lacks. apply L. reflexivity.
Qed.

Lemma featureTypeField_is : forall payload x,
  Observed.fieldIs payload x -> featureTypeField payload = Some x.
Proof.
  intros payload x [inner [P I]]. unfold featureTypeField.
  rewrite (optChain_has _ _ _ P). apply optChain_has. exact I.
Qed.

Lemma featureTypeField_absent : forall payload,
  Observed.fieldAbsent payload -> featureTypeField payload = None.
Proof.
  intros payload [L | [inner [P L]]]; unfold featureTypeField.
  - rewrite (optChain_lacks _ _ L). reflexivity.
  - rewrite (optChain_has _ _ _ P). apply optChain_lacks. exact L.
Qed.

(** C10. What [fetchFeatureTypes] returns for an answer in 200-299, and
    what [getPublishedShapeWfsUrls] then maps to its entries, is the
    payload's [featureTypes.featureType] made a list: the empty list when
    the field is absent or [null], the one-element list of the field when
    it is a single object, and the field itself when it is an array.
    A field that is a string, a number or a boolean is kept, alone, when
    it is truthy. *)
Theorem feature_types_normalized :
  forall geoserverUrl workspace username password maxFeatures w ws r w1 payload,
  encodeURIComponent workspace = Ok ws ->
  let authHeader := buildAuthHeader username password in
  http_fetch (listingRequest geoserverUrl ws authHeader) w = (Ok r, w1) ->
  ok r = true ->
  JSON_parse (text r) = Ok payload ->
  let returned := outcome (fetchFeatureTypes geoserverUrl workspace authHeader w) in
  returned = Ok (normalize payload)
  /\ outcome (getPublishedShapeWfsUrls geoserverUrl workspace username password
                                       maxFeatures w)
     = bindR returned (mapR (toEntry geoserverUrl workspace maxFeatures))
  /\ (Observed.fieldAbsent payload \/ Observed.fieldIs payload JNull ->
      returned = Ok [])
  /\ (forall props,
      Observed.fieldIs payload (JObject props) ->
      returned = Ok [JObject props])
  /\ (forall items,
      Observed.fieldIs payload (JArray items) ->
      returned = Ok items)
  /\ (forall raw,
      Observed.fieldIs payload raw ->
      match raw with
      | JBool _ | JNumber _ | JString _ =>
          returned = Ok (if jsonTruthy raw then [raw] else [])
      | _ => True
      end).
Proof.
  intros geoserverUrl workspace username password maxFeatures w ws r w1 payload
         E authHeader F O P returned.
  pose proof (fetchFeatureTypes_answered geoserverUrl workspace authHeader
                w ws r w1 E F) as A.
  rewrite (ok_not_404 r O), O, P in A. cbn [negb] in A.
  assert (R : returned = Ok (normalize payload)).
  { unfold returned. rewrite A. reflexivity. }
  split; [exact R|]. split.
  - unfold getPublishedShapeWfsUrls. cbv zeta. fold authHeader.
    rewrite R. run_monad. rewrite A. cbn [bindR].
    destruct (mapR (toEntry geoserverUrl workspace maxFeatures)
                   (normalize payload)); reflexivity.
  - rewrite R, normalize_cases. split; [|split; [|split]].
    + intros [B | B].
      * rewrite (featureTypeField_absent _ B). reflexivity.
      * rewrite (featureTypeField_is _ _ B). reflexivity.
    + intros props B. rewrite (featureTypeField_is _ _ B). reflexivity.
    + intros items B. rewrite (featureTypeField_is _ _ B). reflexivity.
    + intros raw B. rewrite (featureTypeField_is _ _ B).
      destruct raw; try exact Logic.I; reflexivity.
Qed.

(** The field is absent when the payload or its [featureTypes] is not an
    object; an empty workspace answers with [featureTypes] the empty
    string. *)
Example normalize_empty_workspace :
  normalize (JObject [(lit "featureTypes", JString [])]) = []
  /\ normalize JNull = []
  /\ normalize (JObject []) = []
  /\ normalize (JObject [(lit "featureTypes", JObject [(lit "featureType", JNull)])])
     = [].
Proof. repeat split. Qed.

End Listing.

End ListingFacts.

(* ================================================================== *)
(** ** Runs on the concrete host *)
(* ================================================================== *)

Module Runs.
Import JS Runtime Sample.
Import BatchPublish PublishFacts.

(** The layer exists: skipped without the flag; with it, one update, which
    here fails with status 500. *)
Lemma publish_conflict_run :
  status conflict = 409%N
  /\ publishLayer (H := sampleHost) gs (lit "topo") (lit "lake") (lit "L_lake")
                  (lit "lake") basic false
                  (sampleWorldOf [] [] [conflict; broken])
     = (Ok tt, sampleWorldOf [] [] [broken],
        [Fetch (lakePost (lit "L_lake") (lit "lake"));
         ConsoleWarn (skipNotice (lit "L_lake") (lit "topo"))])
  /\ trace (publishLayer (H := sampleHost) gs (lit "topo") (lit "lake")
                         (lit "L_lake") (lit "lake") basic true
                         (sampleWorldOf [] [] [conflict; broken]))
     = [Fetch (lakePost (lit "L_lake") (lit "lake"));
        Fetch (lakePut (lit "L_lake") (lit "lake"))]
  /\ outcome (publishLayer (H := sampleHost) gs (lit "topo") (lit "lake")
                           (lit "L_lake") (lit "lake") basic true
                           (sampleWorldOf [] [] [conflict; broken]))
     = Throw (lit "Failed to update existing layer " ++ quoted (lit "L_lake")
              ++ lit ". Status 500 Server Error. Response: boom").
Proof.
  destruct (publish_conflict (H := sampleHost) gs (lit "topo") (lit "lake")
              (lit "L_lake") (lit "lake") basic
              (sampleWorldOf [] [] [conflict; broken])
              (lit "topo") (lit "lake") conflict
              (sampleWorldOf [] [] [broken])
              eq_refl eq_refl eq_refl eq_refl) as [S [U _]].
  destruct (U (lit "L_lake") (Ok broken) (sampleWorldOf [] [] [])
              eq_refl eq_refl) as [T [_ O]].
  split; [reflexivity|]. split; [exact S|]. split; [exact T | exact O].
Defined.


Lemma lakeWithoutDbf_missing :
  ~ hasExtension (H := sampleHost)
      (collect (H := sampleHost) (lit "/data") (lit "lake") lakeWithoutDbf)
      (lit ".dbf").
Proof.
  intros [file [I E]]. simpl in I.
  destruct I as [<-|[<-|[]]]; discriminate E.
Qed.

(** [lake.shp] without a [.dbf] of its own: reported and left out. *)
Lemma missing_component_isolated_run :
  exists missing,
    In missing required
    /\ outcome (gatherComponents (H := sampleHost) lakePath
                  (sampleWorldOf [] lakeWithoutDbf [created]))
       = Throw (missingMessage missing lakePath)
    /\ trace (processAll (H := sampleHost) (sampleOptions true) basic
                (lit "/tmp/geoserver-shp-Ab12Cd") [lakePath]
                (sampleWorldOf [] lakeWithoutDbf [created]))
       = [ConsoleLog (processingNotice (lit "lake.shp") (lit "lake") (lit "L_lake"));
          Readdir (lit "/data");
          ConsoleError (skippingNotice (lit "lake.shp")
                                       (missingMessage missing lakePath))].
Proof.
  destruct (missing_component_isolated (H := sampleHost) (sampleOptions true)
              basic (lit "/tmp/geoserver-shp-Ab12Cd") lakePath []
              (sampleWorldOf [] lakeWithoutDbf [created]) lakeWithoutDbf
              (sampleWorldOf [] lakeWithoutDbf [created]) eq_refl
              (ex_intro _ (lit ".dbf")
                 (conj (or_intror (or_intror (or_introl eq_refl)))
                       lakeWithoutDbf_missing)))
    as [missing [I [_ [_ [G P]]]]].
  exists missing. split; [exact I|]. split.
  - rewrite G. reflexivity.
  - rewrite P. reflexivity.
Defined.

(** An upload with the overwrite flag, answered with 500. *)
Lemma upload_request_run :
  encodeURIComponent (lit "topo") = Ok (lit "topo")
  /\ trace (uploadDatastoreZip (H := sampleHost) gs (lit "topo") (lit "lake")
              lakeZip basic true (sampleWorldOf [] [] [broken]))
     = [ReadFile lakeZip;
        Fetch (Request (gs ++ lit "/rest/workspaces/topo/datastores/lake/file.shp?charset=UTF-8&configure=none&update=overwrite")
                       PUT
                       [(lit "Content-Type", lit "application/zip");
                        (lit "Authorization", basic);
                        (lit "Content-Length", lit "2")]
                       (BufferBody [Byte.x50; Byte.x4b]))]
  /\ outcome (uploadDatastoreZip (H := sampleHost) gs (lit "topo") (lit "lake")
                lakeZip basic true (sampleWorldOf [] [] [broken]))
     = Throw (lit "Upload failed for datastore " ++ quoted (lit "lake")
              ++ lit ". Status 500 Server Error. Response: boom").
Proof.
  destruct (upload_request (H := sampleHost) gs (lit "topo") (lit "lake")
              lakeZip basic true (sampleWorldOf [] [] [broken])
              (lit "topo") (lit "lake") [Byte.x50; Byte.x4b]
              (sampleWorldOf [] [] [broken]) eq_refl eq_refl eq_refl
              (Ok broken) (sampleWorldOf [] [] []) eq_refl) as [T [_ [O _]]].
  split; [reflexivity|]. split; [exact T | exact O].
Defined.

(** The names of [My  Parcels.shp]. *)
Lemma names_of_dataset_run :
  storeNameOf (H := sampleHost) (sampleOptions true) (lit "/data/ My  Parcels.shp")
  = lit "My_Parcels"
  /\ layerNameOf (H := sampleHost) (sampleOptions true) (lit "/data/ My  Parcels.shp")
     = lit "L_My_Parcels"
  /\ nativeNameOf (H := sampleHost) (lit "/data/ My  Parcels.shp")
     = lit " My  Parcels".
Proof.
  destruct (names_of_dataset (H := sampleHost) (sampleOptions true)
              (lit "/data/ My  Parcels.shp")) as [S [L [N _]]].
  split; [rewrite S; reflexivity|]. split; [rewrite L; reflexivity|].
  rewrite N. reflexivity.
Defined.

(** C5 as stated fails: for [" lake.shp"] the descriptor that is sent
    carries the native name [" lake"], which is not the trimmed base
    name. *)
Lemma native_name_is_not_trimmed :
  nativeNameOf (H := sampleHost) (lit "/data/ lake.shp")
  <> trim (path_parse_name (Host := sampleHost) (lit "/data/ lake.shp"))
  /\ In (Fetch (lakePost (lit "L_lake") (lit " lake")))
        (trace (uploadAndPublish (H := sampleHost) (sampleOptions false) basic
                  (lit "/data/ lake.shp") lakeZip
                  (sampleWorldOf [] [] [created; created]))).
Proof.
  split.
  - discriminate.
  - right. right. left. reflexivity.
Qed.


(** A directory with no [.shp] file in it. *)
Lemma nothing_found_run :
  main (H := sampleHost) (Ok (sampleOptions true))
       (sampleWorldOf [EntFile (lit "readme.txt"); EntDir (lit "old") (Ok [])]
                      [] [created])
  = (Ok tt,
     sampleWorldOf [EntFile (lit "readme.txt"); EntDir (lit "old") (Ok [])]
                   [] [created],
     [Access (lit "/data"); ReaddirTypes (lit "/data");
      ReaddirTypes (lit "/data/old");
      ConsoleLog (nothingToDo (lit "/data"))]).
Proof.
  exact (proj1 (nothing_found_nothing_done (H := sampleHost) (sampleOptions true)
                  (sampleWorldOf [EntFile (lit "readme.txt");
                                  EntDir (lit "old") (Ok [])] [] [created])
                  (sampleWorldOf [EntFile (lit "readme.txt");
                                  EntDir (lit "old") (Ok [])] [] [created])
                  (sampleWorldOf [EntFile (lit "readme.txt");
                                  EntDir (lit "old") (Ok [])] [] [created])
                  [ReaddirTypes (lit "/data"); ReaddirTypes (lit "/data/old")]
                  eq_refl eq_refl)).
Defined.

(** Grouping twice, and grouping a listing read in another order. *)
Lemma grouping_idempotent_run :
  outcome ((first <- attempt (gatherComponents (H := sampleHost) lakePath) ;;
            second <- attempt (gatherComponents (H := sampleHost) lakePath) ;;
            ret (first, second))%js
           (sampleWorldOf [] lakeSiblings []))
  = Ok (outcome (gatherComponents (H := sampleHost) lakePath
                   (sampleWorldOf [] lakeSiblings [])),
        outcome (gatherComponents (H := sampleHost) lakePath
                   (sampleWorldOf [] lakeSiblings [])))
  /\ match outcome (gatherComponents (H := sampleHost) lakePath
                      (sampleWorldOf [] lakeSiblings [])),
           outcome (gatherComponents (H := sampleHost) lakePath
                      (sampleWorldOf [] (rev lakeSiblings) []))
     with
     | Ok components, Ok components' => Permutation components components'
     | Throw e, Throw e' => e = e'
     | _, _ => False
     end.
Proof.
  destruct (grouping_idempotent (H := sampleHost) lakePath
              (sampleWorldOf [] lakeSiblings []) lakeSiblings
              (sampleWorldOf [] lakeSiblings [])
              (sampleWorldOf [] lakeSiblings []) eq_refl eq_refl) as [T P].
  split; [exact T|].
  exact (P (sampleWorldOf [] (rev lakeSiblings) []) (rev lakeSiblings)
           (sampleWorldOf [] (rev lakeSiblings) []) eq_refl
           (Permutation_rev lakeSiblings)).
Defined.

End Runs.

Module ListingRuns.
Import JS Runtime Sample.
Import ListWfsUrls ListingFacts.

(** A workspace that the server does not know: no layer, no error. The
    same request answered with 500: an error with the status and the
    body. *)
Lemma listing_not_found_run :
  status notFound = 404%N
  /\ getPublishedShapeWfsUrls (H := sampleHost) gs (lit "topo") (lit "admin")
       (lit "geoserver") 1000%float (sampleWorldOf [] [] [notFound])
     = (Ok [], sampleWorldOf [] [] [], [Fetch listing])
  /\ outcome (fetchFeatureTypes (H := sampleHost) gs (lit "topo") basic
                (sampleWorldOf [] [] [broken]))
     = Throw (lit "Failed to fetch feature types for workspace "
              ++ quoted (lit "topo")
              ++ lit ". Status 500 Server Error. Response: boom").
Proof.
  destruct (listing_not_found_is_empty (H := sampleHost) gs (lit "topo")
              (lit "admin") (lit "geoserver") 1000%float
              (sampleWorldOf [] [] [notFound]) (lit "topo") notFound
              (sampleWorldOf [] [] []) eq_refl eq_refl) as [E _].
  destruct (listing_not_found_is_empty (H := sampleHost) gs (lit "topo")
              (lit "admin") (lit "geoserver") 1000%float
              (sampleWorldOf [] [] [broken]) (lit "topo") broken
              (sampleWorldOf [] [] []) eq_refl eq_refl) as [_ F].
  destruct (F ltac:(discriminate) eq_refl) as [A _].
  change (buildAuthHeader (lit "admin") (lit "geoserver")) with basic in A.
  split; [reflexivity|]. split; [exact (proj2 (E eq_refl))|].
  rewrite A. reflexivity.
Defined.

(** Three answers in 200-299: a payload without the field, one whose
    field is a single object, and one whose field is an array of two. *)
Lemma feature_types_normalized_run :
  outcome (fetchFeatureTypes (H := Faulty.faultyHost) gs (lit "topo") basic
             (Faulty.lakeWorld [emptyListing]))
  = Ok []
  /\ outcome (fetchFeatureTypes (H := Faulty.faultyHost) gs (lit "topo") basic
                (Faulty.lakeWorld [Faulty.layerListing]))
     = Ok [JObject [(lit "name", JString (lit "lake"))]]
  /\ outcome (fetchFeatureTypes (H := Faulty.faultyHost) gs (lit "topo") basic
                (Faulty.lakeWorld [Faulty.layersListing]))
     = Ok [JObject [(lit "name", JString (lit "lake"))];
           JObject [(lit "name", JString (lit "roads"));
                    (lit "title", JString (lit "Roads"))]].
Proof.
  split; [|split].
  - refine (proj1 (proj2 (proj2
      (feature_types_normalized (H := Faulty.faultyHost) gs (lit "topo")
         (lit "admin") (lit "geoserver") 1000%float
         (Faulty.lakeWorld [emptyListing]) (lit "topo") emptyListing
         (Faulty.lakeWorld []) (JObject []) eq_refl eq_refl eq_refl eq_refl)))
      (or_introl (or_introl _))).
    intros props E. injection E as <-. intros [].
  - refine (proj1 (proj2 (proj2 (proj2
      (feature_types_normalized (H := Faulty.faultyHost) gs (lit "topo")
         (lit "admin") (lit "geoserver") 1000%float
         (Faulty.lakeWorld [Faulty.layerListing]) (lit "topo")
         Faulty.layerListing (Faulty.lakeWorld []) Faulty.oneLayer
         eq_refl eq_refl eq_refl eq_refl)))) _ _).
    exists (JObject [(lit "featureType",
                      JObject [(lit "name", JString (lit "lake"))])]).
    split; exists [], []; (split; [reflexivity | split; intros []]).
  - refine (proj1 (proj2 (proj2 (proj2 (proj2
      (feature_types_normalized (H := Faulty.faultyHost) gs (lit "topo")
         (lit "admin") (lit "geoserver") 1000%float
         (Faulty.lakeWorld [Faulty.layersListing]) (lit "topo")
         Faulty.layersListing (Faulty.lakeWorld []) Faulty.twoLayers
         eq_refl eq_refl eq_refl eq_refl))))) _ _).
    exists (JObject [(lit "featureType",
                      JArray [JObject [(lit "name", JString (lit "lake"))];
                              JObject [(lit "name", JString (lit "roads"));
                                       (lit "title", JString (lit "Roads"))]])]).
    split; exists [], []; (split; [reflexivity | split; intros []]).
Defined.

End ListingRuns.

(* ================================================================== *)
(** ** The command line of the batch publisher *)
(* ================================================================== *)

Module CliFacts.
Import JS Runtime BatchPublish Cli JSFacts.

Lemma dropLeadingSlashes_split : forall s,
  exists k,
    s = repeat 47%N k ++ dropLeadingSlashes s
    /\ forall rest, dropLeadingSlashes s <> 47%N :: rest.
Proof.
  induction s as [|c s [k [E N]]]; simpl.
  - exists 0. split; [reflexivity | discriminate].
  - destruct (c =? 47)%N eqn:C.
    + apply N.eqb_eq in C. subst c. exists (S k). split.
      * simpl. f_equal. exact E.
      * exact N.
    + exists 0. split; [reflexivity|].
      intros rest R. injection R as -> _. rewrite N.eqb_refl in C. discriminate.
Qed.

Lemma rev_repeat : forall (A : Type) (x : A) k, rev (repeat x k) = repeat x k.
Proof.
  intros A x. induction k as [|k IH]; simpl.
  - reflexivity.
  - rewrite IH. clear IH. induction k as [|k IH]; simpl; [reflexivity|].
    f_equal. exact IH.
Qed.

(** What [replace(/\/+$/, '')] leaves: the string without the slashes that
    ended it, and so a string that does not end in a slash. *)
Lemma stripTrailingSlashes_split : forall s,
  exists k,
    s = stripTrailingSlashes s ++ repeat 47%N k
    /\ forall front, stripTrailingSlashes s <> front ++ [47%N].
Proof.
  intros s. unfold stripTrailingSlashes.
  destruct (dropLeadingSlashes_split (rev s)) as [k [E N]].
  exists k. split.
  - rewrite <- (rev_involutive s) at 1. rewrite E at 1.
    rewrite rev_app_distr, rev_repeat. reflexivity.
  - intros front R. apply (N (rev front)).
    rewrite <- (rev_involutive (dropLeadingSlashes (rev s))), R.
    rewrite rev_app_distr. reflexivity.
Qed.

Lemma given_stringOf : forall v,
  given v = true -> v = Some (stringOf v) /\ stringOf v <> [].
Proof.
  intros [s|] G; simpl in *; [|discriminate].
  split; [reflexivity|]. apply truthy_nonempty. exact G.
Qed.

Section Parsing.
Variable cwd : jsstring.
Variable path_resolve : jsstring -> jsstring -> jsstring.

(** When [parseArgs] returns, the workspace, the user name and the
    password are not empty, and the URL is the one that the arguments (or
    the environment) gave without the slashes that ended it: it does not
    end in a slash. *)
Theorem parseArgs_settings : forall env argv o,
  parseArgs cwd path_resolve env argv = Ok o ->
  workspace o <> [] /\ username o <> [] /\ password o <> []
  /\ (forall front, geoserverUrl o <> front ++ lit "/")
  /\ exists d slashes,
       parseLoop cwd path_resolve argv (defaults cwd path_resolve env) = Ok d
       /\ draftGeoserverUrl d = Some (geoserverUrl o ++ repeat 47%N slashes)
       /\ draftWorkspace d = Some (workspace o)
       /\ draftUsername d = Some (username o)
       /\ draftPassword d = Some (password o)
       /\ directory o = draftDirectory d
       /\ overwrite o = draftOverwrite d.
Proof.
  intros env argv o P. unfold parseArgs in P.
  destruct (parseLoop cwd path_resolve argv (defaults cwd path_resolve env))
    as [d|e] eqn:L; [|discriminate].
  unfold finish in P.
  destruct (given (draftGeoserverUrl d)) eqn:GU; [|discriminate].
  destruct (given (draftWorkspace d)) eqn:GW; [|discriminate].
  destruct (given (draftUsername d)) eqn:GN; [|discriminate].
  destruct (given (draftPassword d)) eqn:GP; [|discriminate].
  simpl in P. injection P as <-. simpl.
  destruct (given_stringOf _ GU) as [EU _].
  destruct (given_stringOf _ GW) as [EW NW].
  destruct (given_stringOf _ GN) as [EN NN].
  destruct (given_stringOf _ GP) as [EP NP].
  destruct (stripTrailingSlashes_split (stringOf (draftGeoserverUrl d)))
    as [k [S F]].
  repeat split; try assumption.
  exists d, k. repeat split; try assumption.
  rewrite <- S. exact EU.
Qed.

Lemma parseLoop_app_bounded : forall n a b o o',
  List.length a <= n ->
  parseLoop cwd path_resolve a o = Ok o' ->
  parseLoop cwd path_resolve (a ++ b) o = parseLoop cwd path_resolve b o'.
Proof.
  induction n as [|n IH]; intros a b o o' LE P.
  - destruct a; [|simpl in LE; lia]. simpl in *. congruence.
  - destruct a as [|arg rest]; [simpl in *; congruence|].
    cbn [parseLoop app] in P |- *.
    destruct (negb (startsWith arg (lit "--"))); [discriminate|].
    destruct (str_eqb arg (lit "--overwrite")).
    + apply IH; [simpl in LE; lia | exact P].
    + destruct rest as [|value rest']; [discriminate|]. cbn [app].
      destruct (negb (truthy value) || startsWith value (lit "--"));
        [discriminate|].
      destruct (setOption cwd path_resolve arg value o) as [o1|]; [|discriminate].
      apply IH; [simpl in LE; lia | exact P].
Qed.

(** The arguments are read from left to right and each option is applied
    to what the ones before it left: arguments that parse can be followed
    by more, which are read from the options reached; so an option given
    again replaces the earlier value, and any option replaces the value
    taken from the environment. *)
Theorem parseLoop_sequence : forall a o o',
  parseLoop cwd path_resolve a o = Ok o' ->
  (forall b,
     parseLoop cwd path_resolve (a ++ b) o = parseLoop cwd path_resolve b o')
  /\ (forall arg value o'',
        setOption cwd path_resolve arg value o' = Some o'' ->
        value <> [] ->
        startsWith value (lit "--") = false ->
        parseLoop cwd path_resolve (a ++ [arg; value]) o = Ok o'')
  /\ (forall value,
        value <> [] ->
        startsWith value (lit "--") = false ->
        exists o'',
          parseLoop cwd path_resolve (a ++ [lit "--workspace"; value]) o = Ok o''
          /\ draftWorkspace o'' = Some value).
Proof.
  intros a o o' P.
  assert (A : forall b,
             parseLoop cwd path_resolve (a ++ b) o
             = parseLoop cwd path_resolve b o').
  { intros b. apply (parseLoop_app_bounded (List.length a)); [lia | exact P]. }
  assert (S : forall arg value o'',
             setOption cwd path_resolve arg value o' = Some o'' ->
             value <> [] ->
             startsWith value (lit "--") = false ->
             parseLoop cwd path_resolve (a ++ [arg; value]) o = Ok o'').
  { intros arg value o'' SO NE NS. rewrite A. cbn [parseLoop].
    destruct (startsWith arg (lit "--")) eqn:SA; cbn [negb].
    - destruct (str_eqb arg (lit "--overwrite")) eqn:OV.
      + apply str_eqb_eq in OV. subst arg. discriminate SO.
      + apply truthy_nonempty in NE. rewrite NE, NS, SO. reflexivity.
    - exfalso. unfold setOption in SO.
      repeat match type of SO with
             | context [str_eqb arg ?l] =>
                 let E := fresh "E" in
                 destruct (str_eqb arg l) eqn:E;
                 [apply str_eqb_eq in E; subst arg; discriminate SA|]
             end.
      discriminate SO. }
  split; [exact A|]. split; [exact S|].
  intros value NE NS. eexists. split.
  - apply S; [reflexivity | exact NE | exact NS].
  - reflexivity.
Qed.

End Parsing.

End CliFacts.

(* ================================================================== *)
(** ** More of the publish workflow *)
(* ================================================================== *)

Module WorkflowFacts.
Import JS Runtime BatchPublish Observed JSFacts PublishFacts.
Local Open Scope js_scope.

(** Splits on the outcome of each host call and each test, innermost
    first. *)
Ltac split_calls :=
  repeat match goal with
         | |- context [match ?x with _ => _ end] =>
             lazymatch x with
             | context [match _ with _ => _ end] => fail
             | _ => destruct x eqn:?
             end
         end.

(** The trace of an outcome that is written out. *)
Ltac open_trace :=
  repeat match goal with
         | |- context [trace (?r, ?w, ?t)] => change (trace (r, w, t)) with t
         | |- context [outcome (?r, ?w, ?t)] => change (outcome (r, w, t)) with r
         | |- context [after (?r, ?w, ?t)] => change (after (r, w, t)) with w
         end.

Section Traces.
Context {H : Host}.

Lemma trace_bind_throw : forall (A B : Type) (m : M A) (k : A -> M B) w e,
  outcome (m w) = Throw e -> bind m k w = (Throw e, after (m w), trace (m w)).
Proof.
  intros A B m k w e. run_monad.
  destruct (m w) as [[[a|e'] w1] t1]; intros E; [discriminate|].
  injection E as ->. reflexivity.
Qed.

Lemma trace_bind_ok : forall (A B : Type) (m : M A) (k : A -> M B) w a,
  outcome (m w) = Ok a ->
  bind m k w
  = (outcome (k a (after (m w))), after (k a (after (m w))),
     trace (m w) ++ trace (k a (after (m w)))).
Proof.
  intros A B m k w a. run_monad.
  destruct (m w) as [[[a'|e'] w1] t1]; intros E; [|discriminate].
  injection E as ->. destruct (k a w1) as [[r w2] t2]. reflexivity.
Qed.

(** A property of every call of [m] and of every call of what follows is
    a property of every call of the two in sequence. *)
Lemma forallb_trace_bind :
  forall (P : event -> bool) (A B : Type) (m : M A) (k : A -> M B) w,
  forallb P (trace (m w)) = true ->
  (forall a w1, forallb P (trace (k a w1)) = true) ->
  forallb P (trace (bind m k w)) = true.
Proof.
  intros P A B m k w Pm Pk.
  destruct (outcome (m w)) as [a|e] eqn:O.
  - rewrite (trace_bind_ok _ _ m k w a O). open_trace.
    rewrite forallb_app, Pm, Pk. reflexivity.
  - rewrite (trace_bind_throw _ _ m k w e O). exact Pm.
Qed.

Lemma forallb_trace_attempt :
  forall (P : event -> bool) (A : Type) (m : M A) w,
  forallb P (trace (m w)) = true -> forallb P (trace (attempt m w)) = true.
Proof.
  intros P A m w. run_monad. destruct (m w) as [[r w1] t1]. auto.
Qed.

Lemma fetches_app : forall t1 t2, fetches (t1 ++ t2) = fetches t1 ++ fetches t2.
Proof.
  induction t1 as [|e t1 IH]; intros t2; simpl; [reflexivity|].
  destruct e; simpl; rewrite ?IH; reflexivity.
Qed.

(** The requests of two steps in sequence are at most those of the first
    and those of the second. *)
Lemma fetches_bind_le :
  forall (A B : Type) (m : M A) (k : A -> M B) w n1 n2,
  List.length (fetches (trace (m w))) <= n1 ->
  (forall a w1, List.length (fetches (trace (k a w1))) <= n2) ->
  List.length (fetches (trace (bind m k w))) <= n1 + n2.
Proof.
  intros A B m k w n1 n2 L1 L2.
  destruct (outcome (m w)) as [a|e] eqn:O.
  - rewrite (trace_bind_ok _ _ m k w a O). open_trace.
    rewrite fetches_app, length_app.
    specialize (L2 a (after (m w))). lia.
  - rewrite (trace_bind_throw _ _ m k w e O). open_trace. lia.
Qed.

Lemma fetches_attempt : forall (A : Type) (m : M A) w,
  fetches (trace (attempt m w)) = fetches (trace (m w)).
Proof. intros A m w. run_monad. destruct (m w) as [[r w1] t1]. reflexivity. Qed.

(** *** The calls of each step *)

Lemma gatherComponents_calls : forall shpPath w,
  forallb perDataset (trace (gatherComponents shpPath w)) = true
  /\ fetches (trace (gatherComponents shpPath w)) = [].
Proof.
  intros shpPath w. unfold gatherComponents. run_monad.
  split_calls; split; reflexivity.
Qed.

Lemma zipStage_calls : forall o tempDir shpPath components w,
  forallb perDataset (trace (zipStage o tempDir shpPath components w)) = true
  /\ fetches (trace (zipStage o tempDir shpPath components w)) = [].
Proof.
  intros o tempDir shpPath components w. unfold zipStage, createZip. run_monad.
  split_calls; split; reflexivity.
Qed.

Lemma uploadDatastoreZip_calls :
  forall geoserverUrl workspace storeName zipPath authHeader (overwrite : bool) w,
  forallb perDataset
          (trace (uploadDatastoreZip geoserverUrl workspace storeName zipPath
                                     authHeader overwrite w)) = true
  /\ List.length
       (fetches (trace (uploadDatastoreZip geoserverUrl workspace storeName
                                           zipPath authHeader overwrite w))) <= 1
  /\ forall req,
       In req (fetches (trace (uploadDatastoreZip geoserverUrl workspace
                                 storeName zipPath authHeader overwrite w))) ->
       method req = PUT.
Proof.
  intros geoserverUrl workspace storeName zipPath authHeader overwrite w.
  unfold uploadDatastoreZip. run_monad.
  split_calls; (split; [reflexivity|]); (split; [simpl; lia|]);
    simpl; intros req I;
    repeat match goal with
           | X : _ \/ _ |- _ => destruct X
           | X : False |- _ => destruct X
           end; subst; reflexivity.
Qed.

Lemma publishLayer_calls :
  forall geoserverUrl workspace storeName layerName nativeName authHeader
         (overwrite : bool) w,
  forallb perDataset
          (trace (publishLayer geoserverUrl workspace storeName layerName
                               nativeName authHeader overwrite w)) = true
  /\ List.length
       (fetches (trace (publishLayer geoserverUrl workspace storeName layerName
                                     nativeName authHeader overwrite w))) <= 2.
Proof.
  intros geoserverUrl workspace storeName layerName nativeName authHeader
         overwrite w.
  unfold publishLayer. run_monad.
  split_calls; (split; [reflexivity | simpl; lia]).
Qed.

Lemma uploadAndPublish_calls : forall o authHeader shpPath zipPath w,
  forallb perDataset (trace (uploadAndPublish o authHeader shpPath zipPath w))
  = true
  /\ List.length
       (fetches (trace (uploadAndPublish o authHeader shpPath zipPath w))) <= 3.
Proof.
  intros o authHeader shpPath zipPath w. unfold uploadAndPublish. cbv zeta.
  split.
  - apply forallb_trace_bind; [apply uploadDatastoreZip_calls|]. intros _ w1.
    apply forallb_trace_bind; [apply publishLayer_calls|]. intros _ w2.
    reflexivity.
  - change 3 with (1 + (2 + 0)).
    apply fetches_bind_le; [apply uploadDatastoreZip_calls|]. intros _ w1.
    apply fetches_bind_le; [apply publishLayer_calls|]. intros _ w2.
    simpl. lia.
Qed.

Lemma removeZip_calls : forall zipPath w,
  forallb perDataset (trace (removeZip zipPath w)) = true
  /\ fetches (trace (removeZip zipPath w)) = [].
Proof.
  intros zipPath w. unfold removeZip. destruct (truthy zipPath); run_monad.
  - destruct (fs_rm zipPath false true w). split; reflexivity.
  - split; reflexivity.
Qed.

Lemma publishStage_calls : forall o authHeader shpPath zipPath w,
  forallb perDataset (trace (publishStage o authHeader shpPath zipPath w)) = true
  /\ List.length
       (fetches (trace (publishStage o authHeader shpPath zipPath w))) <= 3.
Proof.
  intros o authHeader shpPath zipPath w. rewrite publishStage_run.
  open_trace.
  destruct (uploadAndPublish_calls o authHeader shpPath zipPath w) as [P L].
  destruct (removeZip_calls zipPath
              (after (uploadAndPublish o authHeader shpPath zipPath w)))
    as [PR FR].
  split.
  - rewrite !forallb_app, P, PR.
    destruct (outcome (uploadAndPublish o authHeader shpPath zipPath w));
      reflexivity.
  - rewrite !fetches_app, !length_app, FR.
    destruct (outcome (uploadAndPublish o authHeader shpPath zipPath w));
      simpl; lia.
Qed.

Lemma processShapefile_calls : forall o authHeader tempDir shpPath w,
  forallb perDataset (trace (processShapefile o authHeader tempDir shpPath w))
  = true
  /\ List.length
       (fetches (trace (processShapefile o authHeader tempDir shpPath w))) <= 3.
Proof.
  intros o authHeader tempDir shpPath w.
  destruct (gatherComponents_calls shpPath w) as [PG FG].
  destruct (gatherComponents shpPath w) as [[[components|message] w1] t1] eqn:G.
  - destruct (zipStage_calls o tempDir shpPath components w1) as [PZ FZ].
    destruct (zipStage o tempDir shpPath components w1)
      as [[[zipPath|message] w2] t2] eqn:Z.
    + rewrite (processShapefile_zipped o authHeader tempDir shpPath w
                 _ _ _ _ _ _ G Z).
      destruct (publishStage_calls o authHeader shpPath zipPath w2) as [PS FS].
      unfold trace in PG, FG, PZ, FZ. cbn [snd] in PG, FG, PZ, FZ. open_trace.
      split.
      * cbn [forallb perDataset]. rewrite !forallb_app, PG, PZ, PS. reflexivity.
      * cbn [fetches]. rewrite !fetches_app, !length_app, FG, FZ. simpl. lia.
    + rewrite (processShapefile_unzipped o authHeader tempDir shpPath w
                 _ _ _ _ _ _ G Z).
      unfold trace in PG, FG, PZ, FZ. cbn [snd] in PG, FG, PZ, FZ. open_trace.
      split.
      * cbn [forallb perDataset]. rewrite !forallb_app, PG, PZ. reflexivity.
      * cbn [fetches]. rewrite !fetches_app, !length_app, FG, FZ. simpl. lia.
  - rewrite (processShapefile_skipped o authHeader tempDir shpPath w _ _ _ G).
    unfold trace in PG, FG. cbn [snd] in PG, FG. open_trace. split.
    + cbn [forallb perDataset]. rewrite !forallb_app, PG. reflexivity.
    + cbn [fetches]. rewrite !fetches_app, !length_app, FG. simpl. lia.
Qed.

Lemma processAll_calls : forall o authHeader tempDir shapefiles w,
  forallb perDataset (trace (processAll o authHeader tempDir shapefiles w)) = true.
Proof.
  intros o authHeader tempDir. induction shapefiles as [|shpPath rest IH]; intros w.
  - reflexivity.
  - rewrite processAll_cons. open_trace.
    rewrite forallb_app, IH.
    destruct (processShapefile_calls o authHeader tempDir shpPath w) as [P _].
    rewrite P. reflexivity.
Qed.

End Traces.

Section Workflow.
Context {H : Host}.

(** A failure before the loop is fatal: when [parseArgs] throws, when the
    root directory cannot be accessed, when a directory cannot be read
    during discovery, or when the temporary directory cannot be made,
    [main] prints the message of the error, sets the exit code to 1 and
    does nothing more. *)
Theorem startup_failure_is_fatal : forall w,
  (forall e,
     main (Throw e) w = (Ok tt, w, [ConsoleError e; SetExitCode 1]))
  /\ (forall o e w1,
        fs_access (directory o) w = (Throw e, w1) ->
        main (Ok o) w
        = (Ok tt, w1, [Access (directory o); ConsoleError e; SetExitCode 1]))
  /\ (forall o w1 e w2 t,
        fs_access (directory o) w = (Ok tt, w1) ->
        collectShapefiles (directory o) w1 = (Throw e, w2, t) ->
        main (Ok o) w
        = (Ok tt, w2,
           Access (directory o) :: t ++ [ConsoleError e; SetExitCode 1])
        /\ onlyScans t)
  /\ (forall o w1 shapefiles w2 t e w3,
        fs_access (directory o) w = (Ok tt, w1) ->
        collectShapefiles (directory o) w1 = (Ok shapefiles, w2, t) ->
        shapefiles <> [] ->
        fs_mkdtemp (path_join os_tmpdir (lit "geoserver-shp-")) w2
        = (Throw e, w3) ->
        main (Ok o) w
        = (Ok tt, w3,
           Access (directory o) :: t
           ++ [Mkdtemp (path_join os_tmpdir (lit "geoserver-shp-"));
               ConsoleError e; SetExitCode 1])).
Proof.
  intros w. split; [|split; [|split]].
  - intros e. reflexivity.
  - intros o e w1 A. unfold main, run. run_monad. rewrite A. reflexivity.
  - intros o w1 e w2 t A C. split.
    + unfold main, run. run_monad. rewrite A. run_monad. rewrite C.
      cbn [app]. rewrite ?app_nil_r, <- ?app_assoc. reflexivity.
    + pose proof (collectShapefiles_scans (directory o) w1) as S.
      rewrite C in S. exact S.
  - intros o w1 shapefiles w2 t e w3 A C NE D.
    unfold main, run. run_monad. rewrite A. run_monad. rewrite C.
    destruct shapefiles as [|shpPath rest]; [congruence|].
    cbn [List.length Nat.eqb]. run_monad. rewrite D.
    cbn [app]. rewrite ?app_nil_r, <- ?app_assoc. reflexivity.
Qed.

(** Once the temporary directory is made, nothing that happens to a
    dataset is fatal: [main] returns normally and never sets the exit
    code, whatever grouping, packaging, upload and publish do. *)
Theorem item_failures_are_not_fatal : forall o w w1 shapefiles w2 t tempDir w3,
  fs_access (directory o) w = (Ok tt, w1) ->
  collectShapefiles (directory o) w1 = (Ok shapefiles, w2, t) ->
  shapefiles <> [] ->
  fs_mkdtemp (path_join os_tmpdir (lit "geoserver-shp-")) w2 = (Ok tempDir, w3) ->
  outcome (main (Ok o) w) = Ok tt
  /\ (forall code, ~ In (SetExitCode code) (trace (main (Ok o) w)))
  /\ (forall e, In e (trace (main (Ok o) w)) ->
      match e with
      | ConsoleError _ | ConsoleWarn _ => In e (trace (processAll o
            (buildAuthHeader (username o) (password o)) tempDir shapefiles w3))
      | _ => True
      end).
Proof.
  intros o w w1 shapefiles w2 t tempDir w3 A C NE D.
  pose proof (processAll_returns o (buildAuthHeader (username o) (password o))
                tempDir shapefiles w3) as R.
  pose proof (processAll_calls o (buildAuthHeader (username o) (password o))
                tempDir shapefiles w3) as P.
  pose proof (collectShapefiles_scans (directory o) w1) as S.
  rewrite C in S. unfold trace at 1 in S. cbn [snd] in S.
  assert (M : main (Ok o) w
              = (Ok tt,
                 after (attempt (call (Rm tempDir true true)
                                      (fs_rm tempDir true true))
                          (after (processAll o
                                   (buildAuthHeader (username o) (password o))
                                   tempDir shapefiles w3))),
                 Access (directory o) :: t
                 ++ [Mkdtemp (path_join os_tmpdir (lit "geoserver-shp-"));
                     ConsoleLog (foundNotice (List.length shapefiles))]
                 ++ trace (processAll o
                             (buildAuthHeader (username o) (password o))
                             tempDir shapefiles w3)
                 ++ [Rm tempDir true true;
                     ConsoleLog (lit "Finished processing shapefiles.")])).
  { unfold main, run. run_monad. rewrite A. run_monad. rewrite C.
    destruct shapefiles as [|shpPath rest]; [congruence|].
    cbn [List.length Nat.eqb]. run_monad. rewrite D.
    destruct (processAll o _ tempDir (shpPath :: rest) w3) as [[r w4] t4].
    unfold outcome in R. cbn [fst] in R. subst r.
    destruct (fs_rm tempDir true true w4) as [r5 w5].
    cbn [app]. rewrite ?app_nil_r, <- ?app_assoc. reflexivity. }
  rewrite M. open_trace. split; [reflexivity|]. split.
  - intros code [I|I]; [discriminate I|].
    repeat (apply in_app_or in I as [I|I]).
    + destruct (S _ I) as [dir E]. discriminate E.
    + destruct I as [I|[I|[]]]; discriminate I.
    + rewrite forallb_forall in P. specialize (P _ I). discriminate P.
    + destruct I as [I|[I|[]]]; discriminate I.
  - intros e [<-|I]; [exact Logic.I|].
    repeat (apply in_app_or in I as [I|I]).
    + destruct (S _ I) as [dir ->]. exact Logic.I.
    + destruct I as [<-|[<-|[]]]; exact Logic.I.
    + destruct e; try exact Logic.I; exact I.
    + destruct I as [<-|[<-|[]]]; exact Logic.I.
Qed.

(** The loop sends at most three requests for a dataset: at most one
    upload and at most two for the layer. *)
Theorem requests_per_dataset : forall o authHeader tempDir shapefiles w,
  List.length (fetches (trace (processAll o authHeader tempDir shapefiles w)))
  <= 3 * List.length shapefiles.
Proof.
  intros o authHeader tempDir. induction shapefiles as [|shpPath rest IH]; intros w.
  - simpl. lia.
  - rewrite processAll_cons. open_trace. rewrite fetches_app, length_app.
    destruct (processShapefile_calls o authHeader tempDir shpPath w) as [_ L].
    specialize (IH (after (processShapefile o authHeader tempDir shpPath w))).
    simpl List.length. lia.
Qed.

(** The datasets are processed one after the other in the order of the
    list: the loop over two lists in a row is the loop over the first,
    then the loop over the second from the world the first one left. *)
Theorem processAll_in_order : forall o authHeader tempDir first second w,
  let one := processAll o authHeader tempDir first w in
  let two := processAll o authHeader tempDir second (after one) in
  processAll o authHeader tempDir (first ++ second) w
  = (outcome two, after two, trace one ++ trace two).
Proof.
  intros o authHeader tempDir. induction first as [|shpPath rest IH];
    intros second w one two.
  - subst one two. cbn [app processAll]. run_monad.
    destruct (processAll o authHeader tempDir second w) as [[r w1] t1].
    reflexivity.
  - subst one two. cbn [app]. rewrite !processAll_cons. open_trace.
    rewrite IH. open_trace. rewrite app_assoc. reflexivity.
Qed.

(** Grouping succeeds exactly when each of the three mandatory extensions
    has a file among the components gathered, and it then returns these
    components. *)
Theorem gatherComponents_succeeds_iff : forall shpPath w entries w1,
  fs_readdir (path_dirname shpPath) w = (Ok entries, w1) ->
  let components :=
    collect (path_dirname shpPath) (toLowerCase (path_parse_name shpPath))
            entries in
  (outcome (gatherComponents shpPath w) = Ok components
   <-> forall ext, In ext required -> hasExtension components ext)
  /\ (forall returned,
        outcome (gatherComponents shpPath w) = Ok returned ->
        returned = components).
Proof.
  intros shpPath w entries w1 L components.
  rewrite (gatherComponents_listed shpPath w _ _ L). fold components.
  open_trace. split; [split|].
  - intros O ext I.
    destruct (find (fun file => endsWith (toLowerCase file) ext) components)
      as [file|] eqn:F.
    + apply find_some in F as [IF E]. exists file. auto.
    + exfalso. apply not_hasExtension in F.
      destruct (checkRequired_missing shpPath components required
                  required_nonempty (ex_intro _ ext (conj I F)))
        as [missing [_ [_ R]]].
      rewrite R in O. discriminate O.
  - intros ALL.
    rewrite (checkRequired_present shpPath components required
               required_nonempty ALL). reflexivity.
  - intros returned O. destruct (checkRequired shpPath components required);
      [injection O as <-; reflexivity | discriminate O].
Qed.

(** Without a conflict [publishLayer] sends the create request and no
    other: an answer in 200-299 publishes the layer; an answer outside it
    that is not 409 throws an error with the status and the body, with or
    without the overwrite flag; a rejected request throws its own error. *)
Theorem publish_without_conflict :
  forall geoserverUrl workspace storeName layerName nativeName authHeader
         (overwrite : bool) w ws store answer w1,
  encodeURIComponent workspace = Ok ws ->
  encodeURIComponent storeName = Ok store ->
  let post :=
    Request (geoserverUrl ++ lit "/rest/workspaces/" ++ ws
             ++ lit "/datastores/" ++ store ++ lit "/featuretypes"
             ++ lit "?recalculate=nativebbox,latlonbbox")
            POST (jsonHeaders authHeader)
            (JsonBody (featurePayload layerName nativeName)) in
  http_fetch post w = (answer, w1) ->
  match answer with
  | Ok r => status r <> 409%N
  | Throw _ => True
  end ->
  publishLayer geoserverUrl workspace storeName layerName nativeName
               authHeader overwrite w
  = (match answer with
     | Ok r =>
         if ((200 <=? status r) && (status r <=? 299))%N then Ok tt
         else Throw (lit "Failed to publish layer " ++ quoted layerName
                     ++ lit ". Status " ++ numberToString (status r)
                     ++ lit " " ++ statusText r
                     ++ lit ". Response: " ++ text r)
     | Throw e => Throw e
     end, w1, [Fetch post]).
Proof.
  intros geoserverUrl workspace storeName layerName nativeName authHeader
         overwrite w ws store answer w1 EW ES post F N.
  unfold publishLayer. rewrite EW, ES. run_monad.
  change (geoserverUrl ++ lit "/rest/workspaces/" ++ ws ++ lit "/datastores/"
          ++ store ++ lit "/featuretypes" ++ recalculate)
    with (url post).
  change (Request (url post) POST (jsonHeaders authHeader)
                  (JsonBody (featurePayload layerName nativeName)))
    with post.
  rewrite F. destruct answer as [r|e]; [|reflexivity].
  run_monad. unfold ok.
  destruct ((200 <=? status r) && (status r <=? 299))%N; [reflexivity|].
  apply N.eqb_neq in N. rewrite N. reflexivity.
Qed.

(** [publishLayer] never overwrites on its own: the requests it sends are
    none (a name that cannot be encoded), the POST alone, or the POST
    followed by one PUT; and a PUT is sent only with the overwrite flag
    set and after the POST was answered with status 409. *)
Theorem publish_requests_shape :
  forall geoserverUrl workspace storeName layerName nativeName authHeader
         (overwrite : bool) w,
  let sent :=
    fetches (trace (publishLayer geoserverUrl workspace storeName layerName
                                 nativeName authHeader overwrite w)) in
  sent = []
  \/ (exists post, sent = [post] /\ method post = POST)
  \/ (exists post put conflict w1,
        sent = [post; put] /\ method post = POST /\ method put = PUT
        /\ body put = body post
        /\ overwrite = true
        /\ http_fetch post w = (Ok conflict, w1)
        /\ status conflict = 409%N).
Proof.
  intros geoserverUrl workspace storeName layerName nativeName authHeader
         overwrite w sent.
  subst sent. unfold publishLayer. run_monad.
  split_calls; subst; cbn [fetches negb] in *;
    try (left; reflexivity);
    try (right; left; eexists; split; reflexivity);
    right; right;
    match goal with
    | F : http_fetch ?p w = (Ok ?r, ?w1), S : (status ?r =? 409)%N = true |- _ =>
        exists p; eexists; exists r, w1;
        split; [reflexivity|];
        split; [reflexivity|];
        split; [reflexivity|];
        split; [reflexivity|];
        split; [destruct overwrite; [reflexivity | discriminate]|];
        split; [exact F | apply N.eqb_eq; exact S]
    end.
Qed.

(** An upload that fails keeps the layer from being published: no create
    request follows it, the failure is reported for the dataset, and the
    bundle is removed all the same. *)
Theorem failed_upload_blocks_publish : forall o authHeader shpPath zipPath w e w1 t,
  uploadDatastoreZip (geoserverUrl o) (workspace o) (storeNameOf o shpPath)
                     zipPath authHeader (overwrite o) w
  = (Throw e, w1, t) ->
  zipPath <> [] ->
  uploadAndPublish o authHeader shpPath zipPath w = (Throw e, w1, t)
  /\ outcome (publishStage o authHeader shpPath zipPath w) = Ok tt
  /\ trace (publishStage o authHeader shpPath zipPath w)
     = t ++ [ConsoleError (failedNotice (path_relative (directory o) shpPath) e);
             Rm zipPath false true]
  /\ (forall req,
        In req (fetches (trace (publishStage o authHeader shpPath zipPath w))) ->
        method req = PUT)
  /\ List.length (fetches (trace (publishStage o authHeader shpPath zipPath w)))
     <= 1.
Proof.
  intros o authHeader shpPath zipPath w e w1 t U NE.
  assert (UP : uploadAndPublish o authHeader shpPath zipPath w = (Throw e, w1, t)).
  { unfold uploadAndPublish. cbv zeta. rewrite trace_bind_throw with (e := e);
      rewrite U; reflexivity. }
  destruct (uploadDatastoreZip_calls (geoserverUrl o) (workspace o)
              (storeNameOf o shpPath) zipPath authHeader (overwrite o) w)
    as [_ [L M]].
  rewrite U in L, M. unfold trace in L, M. cbn [snd] in L, M.
  destruct (removeZip_run zipPath w1 NE) as [RO RT].
  assert (T : trace (publishStage o authHeader shpPath zipPath w)
              = t ++ [ConsoleError
                        (failedNotice (path_relative (directory o) shpPath) e);
                      Rm zipPath false true]).
  { rewrite publishStage_run, UP. open_trace. rewrite RT. reflexivity. }
  split; [exact UP|]. split; [apply publishStage_returns|].
  split; [exact T|]. rewrite T, fetches_app. cbn [fetches]. rewrite app_nil_r.
  split; assumption.
Qed.

(** A dataset whose directory cannot be listed, or whose bundle cannot be
    made, is reported and left: no request is sent for it, no bundle is
    removed, and the loop goes on with the datasets that follow. *)
Theorem stage_failure_is_isolated : forall o authHeader tempDir shpPath rest w,
  (forall e w1,
     fs_readdir (path_dirname shpPath) w = (Throw e, w1) ->
     let others := processAll o authHeader tempDir rest w1 in
     processAll o authHeader tempDir (shpPath :: rest) w
     = (outcome others, after others,
        [ConsoleLog (processingNotice (path_relative (directory o) shpPath)
                                      (storeNameOf o shpPath)
                                      (layerNameOf o shpPath));
         Readdir (path_dirname shpPath);
         ConsoleError (skippingNotice (path_relative (directory o) shpPath) e)]
        ++ trace others))
  /\ (forall components w1 t1 e w2 t2,
        gatherComponents shpPath w = (Ok components, w1, t1) ->
        zipStage o tempDir shpPath components w1 = (Throw e, w2, t2) ->
        let others := processAll o authHeader tempDir rest w2 in
        processAll o authHeader tempDir (shpPath :: rest) w
        = (outcome others, after others,
           ConsoleLog (processingNotice (path_relative (directory o) shpPath)
                                        (storeNameOf o shpPath)
                                        (layerNameOf o shpPath))
           :: t1 ++ t2
           ++ [ConsoleError (zipFailedNotice (path_relative (directory o) shpPath) e)]
           ++ trace others)
        /\ fetches (t1 ++ t2) = []
        /\ forall path, ~ In (ReadFile path) (t1 ++ t2)).
Proof.
  intros o authHeader tempDir shpPath rest w. split.
  - intros e w1 L others. subst others. rewrite processAll_cons.
    rewrite (processShapefile_skipped o authHeader tempDir shpPath w e w1
               [Readdir (path_dirname shpPath)]
               (gatherComponents_unlisted shpPath w e w1 L)).
    reflexivity.
  - intros components w1 t1 e w2 t2 G Z others. subst others.
    rewrite processAll_cons.
    rewrite (processShapefile_unzipped o authHeader tempDir shpPath w
               _ _ _ _ _ _ G Z).
    open_trace. split; [cbn [app]; rewrite <- ?app_assoc; reflexivity|].
    destruct (gatherComponents_calls shpPath w) as [_ FG].
    destruct (zipStage_calls o tempDir shpPath components w1) as [_ FZ].
    rewrite G in FG. rewrite Z in FZ. unfold trace in FG, FZ. cbn [snd] in FG, FZ.
    split; [rewrite fetches_app, FG, FZ; reflexivity|].
    intros path I. apply in_app_or in I as [I|I].
    + revert G I. unfold gatherComponents. run_monad. split_calls;
        intros G I; injection G as _ _ <-;
        repeat (destruct I as [I|I]; [discriminate I|]); exact I.
    + revert Z I. unfold zipStage, createZip. run_monad. split_calls;
        intros Z I; injection Z as _ _ <-;
        repeat (destruct I as [I|I]; [discriminate I|]); exact I.
Qed.

(** [createZip] makes the temporary directory first and stops there when
    that fails; a stale bundle that cannot be removed does not stop it;
    the archiver is run from [/] with [-j], the bundle and the components
    in their order, and its success or failure is that of [createZip],
    which returns the path of the bundle. *)
Theorem createZip_steps : forall componentPaths tempDir name w,
  let zipPath := path_join tempDir (name ++ lit ".zip") in
  (forall e w1,
     fs_mkdir tempDir true w = (Throw e, w1) ->
     createZip componentPaths tempDir name w
     = (Throw e, w1, [Mkdir tempDir true]))
  /\ (forall w1 removed w2 zipped w3,
        fs_mkdir tempDir true w = (Ok tt, w1) ->
        fs_rm zipPath false true w1 = (removed, w2) ->
        exec_file (lit "zip") (lit "-j" :: zipPath :: componentPaths) (lit "/") w2
        = (zipped, w3) ->
        createZip componentPaths tempDir name w
        = (match zipped with Ok _ => Ok zipPath | Throw e => Throw e end,
           w3,
           [Mkdir tempDir true; Rm zipPath false true;
            ExecFile (lit "zip") (lit "-j" :: zipPath :: componentPaths)
                     (lit "/")])).
Proof.
  intros componentPaths tempDir name w zipPath. split.
  - intros e w1 MK. unfold createZip. run_monad. rewrite MK. reflexivity.
  - intros w1 removed w2 zipped w3 MK RM EX. unfold createZip. run_monad.
    rewrite MK. run_monad. fold zipPath. rewrite RM. run_monad. rewrite EX.
    destruct zipped as [[]|e]; reflexivity.
Qed.

End Workflow.

(** *** Discovery *)

Section DiscoveryFacts.
Context {H : Host}.

Lemma foundIn_app : forall dir a b path,
  foundIn dir (a ++ b) path <-> foundIn dir a path \/ foundIn dir b path.
Proof.
  intros dir a b path. split.
  - intros F. inversion F as [d es name I E | d es name below p I FB]; subst.
    + apply in_app_or in I as [I|I]; [left | right];
        apply found_here; assumption.
    + apply in_app_or in I as [I|I]; [left | right];
        eapply found_below; eassumption.
  - intros [F|F];
      inversion F as [d es name I E | d es name below p I FB]; subst.
    + apply found_here; [apply in_or_app; left|]; assumption.
    + eapply found_below; [apply in_or_app; left|]; eassumption.
    + apply found_here; [apply in_or_app; right|]; assumption.
    + eapply found_below; [apply in_or_app; right|]; eassumption.
Qed.

Lemma foundIn_nil : forall dir path, ~ foundIn dir [] path.
Proof.
  intros dir path F.
  inversion F as [d es name I E | d es name below p I FB]; subst; destruct I.
Qed.

Lemma foundIn_file : forall dir name path,
  foundIn dir [EntFile name] path
  <-> endsWith (toLowerCase name) (lit ".shp") = true /\ path = path_join dir name.
Proof.
  intros dir name path. split.
  - intros F. inversion F as [d es n I E | d es n below p I FB]; subst.
    + destruct I as [I|[]]. injection I as ->. auto.
    + destruct I as [I|[]]. discriminate I.
  - intros [E ->]. apply found_here; [left; reflexivity | exact E].
Qed.

Lemma foundIn_other : forall dir name path, ~ foundIn dir [EntOther name] path.
Proof.
  intros dir name path F.
  inversion F as [d es n I E | d es n below p I FB]; subst;
    destruct I as [I|[]]; discriminate I.
Qed.

Lemma foundIn_failed : forall dir name e path,
  ~ foundIn dir [EntDir name (Throw e)] path.
Proof.
  intros dir name e path F.
  inversion F as [d es n I E | d es n below p I FB]; subst;
    destruct I as [I|[]]; discriminate I.
Qed.

Lemma foundIn_dir : forall dir name below path,
  foundIn dir [EntDir name (Ok below)] path
  <-> foundIn (path_join dir name) below path.
Proof.
  intros dir name below path. split.
  - intros F. inversion F as [d es n I E | d es n b p I FB]; subst.
    + destruct I as [I|[]]. discriminate I.
    + destruct I as [I|[]]. injection I as -> ->. exact FB.
  - intros F. eapply found_below; [left; reflexivity | exact F].
Qed.

(** What the walk does with an entry, and with a list of entries. *)
Definition walked (dir : jsstring) (entries : list dirent)
  (x : result (list jsstring) * list event) : Prop :=
  if forallb listed entries
  then exists found, fst x = Ok found
                     /\ forall path, In path found <-> foundIn dir entries path
  else exists e, fst x = Throw e.

Lemma walkEntries_walked : forall entries,
  Forall (fun d => forall dir, walked dir [d] (visitEntry dir d)) entries ->
  forall dir, walked dir entries (walkEntries (visitEntry dir) entries).
Proof.
  intros entries F. induction F as [|d rest Hd _ IH]; intros dir.
  - unfold walked. simpl. exists []. split; [reflexivity|].
    intros path. split; [intros [] | intros X; destruct (foundIn_nil _ _ X)].
  - specialize (Hd dir). specialize (IH dir). unfold walked in *.
    cbn [forallb walkEntries] in *. rewrite andb_true_r in Hd.
    destruct (visitEntry dir d) as [r1 t1].
    destruct (walkEntries (visitEntry dir) rest) as [r2 t2].
    cbn [fst] in *. destruct (listed d).
    + destruct Hd as [found [-> F1]]. cbn [andb].
      destruct (forallb listed rest).
      * destruct IH as [more [-> F2]]. exists (found ++ more).
        split; [reflexivity|]. intros path.
        change (d :: rest) with ([d] ++ rest).
        rewrite in_app_iff, foundIn_app, F1, F2. reflexivity.
      * destruct IH as [e ->]. exists e. reflexivity.
    + destruct Hd as [e ->]. cbn [andb]. exists e. reflexivity.
Qed.

Lemma visitEntry_walked : forall d dir, walked dir [d] (visitEntry dir d).
Proof.
  induction d using dirent_nested_ind; intros dir; unfold walked;
    cbn [forallb listed visitEntry andb].
  - destruct (endsWith (toLowerCase name) (lit ".shp")) eqn:E; cbn [fst].
    + exists [path_join dir name]. split; [reflexivity|]. intros path.
      rewrite foundIn_file. simpl. split.
      * intros [<-|[]]. auto.
      * intros [_ ->]. left. reflexivity.
    + exists []. split; [reflexivity|]. intros path. rewrite foundIn_file.
      split; [intros [] | intros [X _]; rewrite E in X; discriminate X].
  - exists []. split; [reflexivity|]. intros path.
    split; [intros [] | intros X; destruct (foundIn_other _ _ _ X)].
  - exists e. reflexivity.
  - rewrite andb_true_r.
    pose proof (walkEntries_walked entries H0 (path_join dir name)) as W.
    unfold walked in W.
    destruct (walkEntries (visitEntry (path_join dir name)) entries) as [r t].
    cbn [fst] in *. destruct (forallb listed entries).
    + destruct W as [found [-> F]]. exists found. split; [reflexivity|].
      intros path. rewrite foundIn_dir. apply F.
    + exact W.
Qed.

(** Discovery succeeds exactly when every directory below the root can be
    listed, and then returns exactly the regular files, at any depth,
    whose lower-cased name ends in [.shp]; an entry that is neither a
    file nor a directory is never returned. One directory that cannot
    be read makes the whole discovery fail. *)
Theorem discovery_finds_shapefiles : forall rootDir w entries w1,
  fs_scan rootDir w = (Ok entries, w1) ->
  if forallb listed entries
  then exists found,
         outcome (collectShapefiles rootDir w) = Ok found
         /\ forall path, In path found <-> foundIn rootDir entries path
  else exists e, outcome (collectShapefiles rootDir w) = Throw e.
Proof.
  intros rootDir w entries w1 S.
  pose proof (walkEntries_walked entries) as W.
  specialize (W (proj2 (Forall_forall _ entries)
                   (fun d _ dir => visitEntry_walked d dir)) rootDir).
  unfold walked in W. unfold collectShapefiles, walkListing, outcome.
  rewrite S.
  destruct (walkEntries (visitEntry rootDir) entries) as [r t]. exact W.
Qed.

End DiscoveryFacts.

(** *** The sanitized name *)

Section SanitizeFacts.

Let plain (c : char16) : bool := negb (isWhiteSpace c).

Lemma replaceRuns_plain : forall inRun s,
  forallb plain (replaceRuns (lit "_") inRun s) = true.
Proof.
  intros inRun s. revert inRun. induction s as [|c s IH]; intros inRun; simpl.
  - reflexivity.
  - destruct (isWhiteSpace c) eqn:W.
    + destruct inRun; simpl; apply IH.
    + simpl. unfold plain at 1. rewrite W. apply IH.
Qed.

Lemma replaceRuns_of_plain : forall r inRun s,
  forallb plain s = true -> replaceRuns r inRun s = s.
Proof.
  intros r inRun s. revert inRun. induction s as [|c s IH]; intros inRun P; simpl in *.
  - reflexivity.
  - apply andb_true_iff in P as [Pc Ps]. unfold plain in Pc.
    apply negb_true_iff in Pc. rewrite Pc, (IH false Ps). reflexivity.
Qed.

Lemma plain_not_allws : forall c s,
  forallb plain (c :: s) = true -> forallb isWhiteSpace (c :: s) = false.
Proof.
  intros c s P. simpl in *. apply andb_true_iff in P as [Pc _].
  unfold plain in Pc. apply negb_true_iff in Pc. rewrite Pc. reflexivity.
Qed.

Lemma trim_of_plain : forall s, forallb plain s = true -> trim s = s.
Proof.
  intros s P. unfold trim.
  assert (TS : trimStart s = s).
  { destruct s as [|c s]; [reflexivity|]. simpl in *.
    apply andb_true_iff in P as [Pc _]. unfold plain in Pc.
    apply negb_true_iff in Pc. rewrite Pc. reflexivity. }
  rewrite TS. clear TS. induction s as [|c s IH]; [reflexivity|].
  rewrite trimEnd_cons. pose proof P as P'. simpl in P'.
  apply andb_true_iff in P' as [Pc Ps]. unfold plain in Pc.
  apply negb_true_iff in Pc. rewrite Pc.
  destruct s as [|d s]; [reflexivity|].
  rewrite (plain_not_allws d s Ps), (IH Ps). reflexivity.
Qed.

Lemma trimStart_nil_allws : forall s,
  trimStart s = [] -> forallb isWhiteSpace s = true.
Proof.
  induction s as [|c s IH]; simpl; [reflexivity|].
  destruct (isWhiteSpace c); [exact IH | discriminate].
Qed.

Lemma trimEnd_nil_allws : forall s,
  trimEnd s = [] -> forallb isWhiteSpace s = true.
Proof.
  induction s as [|c s IH]; [reflexivity|].
  rewrite trimEnd_cons. simpl.
  destruct (forallb isWhiteSpace s); [|discriminate].
  destruct (isWhiteSpace c); [reflexivity | discriminate].
Qed.

Lemma trimStart_head : forall s c rest,
  trimStart s = c :: rest -> isWhiteSpace c = false.
Proof.
  induction s as [|d s IH]; intros c rest T; simpl in T; [discriminate|].
  destruct (isWhiteSpace d) eqn:W; [eapply IH; eassumption|].
  injection T as <- _. exact W.
Qed.

(** The sanitized name has no whitespace in it, sanitizing it again
    changes nothing, and it is empty exactly when the name is empty or
    all whitespace (the store is then named by the prefix alone). *)
Theorem sanitizeName_shape : forall name,
  forallb (fun c => negb (isWhiteSpace c)) (sanitizeName name) = true
  /\ sanitizeName (sanitizeName name) = sanitizeName name
  /\ (sanitizeName name = [] <-> forallb isWhiteSpace name = true).
Proof.
  intros name.
  assert (P : forallb plain (sanitizeName name) = true)
    by apply replaceRuns_plain.
  split; [exact P|]. split.
  - unfold sanitizeName at 1, replaceWhitespaceRuns.
    rewrite (trim_of_plain _ P). apply replaceRuns_of_plain. exact P.
  - unfold sanitizeName, replaceWhitespaceRuns, trim. split.
    + intros E.
      assert (T : trimEnd (trimStart name) = []).
      { destruct (trimEnd (trimStart name)) as [|c t]; [reflexivity|].
        simpl in E. destruct (isWhiteSpace c); discriminate E. }
      apply trimEnd_nil_allws in T.
      destruct (trimStart name) as [|c rest] eqn:S.
      * apply trimStart_nil_allws. exact S.
      * apply trimStart_head in S. simpl in T. rewrite S in T. discriminate T.
    + intros W. rewrite (trimStart_allws name W). reflexivity.
Qed.

End SanitizeFacts.

(** *** What the encoded names and the header are made of *)

Lemma alphaNum_encoded : forall c, isAlphaNum c = true -> isEncoded c = true.
Proof.
  intros c A. unfold isEncoded, isUriUnreserved. rewrite A. reflexivity.
Qed.

Lemma hexDigit_alphaNum : forall d, (d < 16)%N -> isAlphaNum (hexDigit d) = true.
Proof.
  intros d L. unfold hexDigit, isAlphaNum.
  destruct (d <? 10)%N eqn:D.
  - apply N.ltb_lt in D. apply orb_true_iff. right.
    apply andb_true_iff. split; apply N.leb_le; lia.
  - apply N.ltb_ge in D. apply orb_true_iff. left. apply orb_true_iff. left.
    apply andb_true_iff. split; apply N.leb_le; lia.
Qed.

Lemma percentEncode_encoded : forall octet,
  (octet < 256)%N -> forallb isEncoded (percentEncode octet) = true.
Proof.
  intros octet L. unfold percentEncode. cbn [forallb].
  rewrite (alphaNum_encoded _ (hexDigit_alphaNum (octet / 16)
             (N.Div0.div_lt_upper_bound octet 16 16 L))).
  rewrite (alphaNum_encoded _ (hexDigit_alphaNum (octet mod 16)
             (N.mod_lt octet 16 ltac:(discriminate)))).
  reflexivity.
Qed.

Lemma utf8_octets : forall cp,
  (cp < 0x110000)%N -> Forall (fun octet => (octet < 256)%N) (utf8 cp).
Proof.
  intros cp L. unfold utf8.
  pose proof (N.mod_lt cp 0x40 ltac:(discriminate)) as M0.
  pose proof (N.mod_lt (cp / 0x40) 0x40 ltac:(discriminate)) as M1.
  pose proof (N.mod_lt (cp / 0x1000) 0x40 ltac:(discriminate)) as M2.
  destruct (cp <? 0x80)%N eqn:C1; [apply N.ltb_lt in C1|].
  { repeat constructor. lia. }
  destruct (cp <? 0x800)%N eqn:C2; [apply N.ltb_lt in C2|].
  { pose proof (N.Div0.div_lt_upper_bound cp 0x40 0x20 C2).
    repeat constructor; lia. }
  destruct (cp <? 0x10000)%N eqn:C3; [apply N.ltb_lt in C3|].
  { pose proof (N.Div0.div_lt_upper_bound cp 0x1000 0x10 C3).
    repeat constructor; lia. }
  assert (L' : (cp < 0x40000 * 5)%N) by lia.
  pose proof (N.Div0.div_lt_upper_bound cp 0x40000 5 L').
  repeat constructor; lia.
Qed.

Definition boundedPoint (p : option N) : Prop :=
  match p with Some cp => (cp < 0x110000)%N | None => True end.

Lemma codePoints_bounded : forall n s,
  List.length s <= n ->
  forallb isCodeUnit s = true ->
  Forall boundedPoint (codePoints s).
Proof.
  induction n as [|n IH]; intros s LE U.
  - destruct s; [constructor | simpl in LE; lia].
  - destruct s as [|c s]; [constructor|].
    cbn [forallb] in U. apply andb_true_iff in U as [Uc Us].
    unfold isCodeUnit in Uc. apply N.ltb_lt in Uc.
    cbn [codePoints]. destruct (isHighSurrogate c) eqn:HS.
    + destruct s as [|d s]; [repeat constructor|].
      cbn [forallb] in Us. apply andb_true_iff in Us as [Ud Us'].
      destruct (isLowSurrogate d) eqn:LS.
      * constructor.
        -- unfold boundedPoint, pairCodePoint.
           unfold isHighSurrogate in HS. unfold isLowSurrogate in LS.
           apply andb_true_iff in HS as [H1 H2].
           apply andb_true_iff in LS as [L1 L2].
           apply N.leb_le in H1, H2, L1, L2. lia.
        -- apply IH; [cbn [List.length] in LE |- *; lia | exact Us'].
      * constructor; [exact Logic.I|].
        apply IH; [cbn [List.length] in LE |- *; lia|]. cbn [forallb]. rewrite Ud, Us'. reflexivity.
    + destruct (isLowSurrogate c).
      * constructor; [exact Logic.I|]. apply IH; [cbn [List.length] in LE |- *; lia | exact Us].
      * constructor; [unfold boundedPoint; lia|].
        apply IH; [cbn [List.length] in LE |- *; lia | exact Us].
Qed.

Lemma percentEncoded_octets : forall octets,
  Forall (fun octet => (octet < 256)%N) octets ->
  forallb isEncoded (flat_map percentEncode octets) = true.
Proof.
  intros octets O. induction O as [|octet l Lo _ IHo]; [reflexivity|].
  cbn [flat_map]. rewrite forallb_app. apply andb_true_iff.
  split; [apply percentEncode_encoded; exact Lo | exact IHo].
Qed.

Lemma encodeCodePoints_encoded : forall cps e,
  Forall boundedPoint cps ->
  encodeCodePoints cps = Ok e ->
  forallb isEncoded e = true.
Proof.
  induction cps as [|[cp|] cps IH]; intros e B E; simpl in E.
  - injection E as <-. reflexivity.
  - destruct (encodeCodePoints cps) as [tail|] eqn:T; [|discriminate].
    injection E as <-. inversion B as [|x l Bcp Bcps]; subst.
    pose proof (IH tail Bcps eq_refl) as IT.
    rewrite forallb_app. apply andb_true_iff. split; [|exact IT].
    destruct (isUriUnreserved cp) eqn:U.
    + cbn [forallb]. unfold isEncoded. rewrite U. reflexivity.
    + apply percentEncoded_octets. apply utf8_octets. exact Bcp.
  - discriminate.
Qed.

(** What [encodeURIComponent] returns for a string of code units has
    unreserved characters and percent signs only. *)
Lemma encodeURIComponent_encoded : forall s e,
  forallb isCodeUnit s = true ->
  encodeURIComponent s = Ok e ->
  forallb isEncoded e = true.
Proof.
  intros s e U E. unfold encodeURIComponent in E.
  apply (encodeCodePoints_encoded (codePoints s) e); [|exact E].
  apply (codePoints_bounded (List.length s)); [lia | exact U].
Qed.

Lemma base64Digit_char : forall i, isBase64Char (base64Digit i) = true.
Proof.
  intros i. unfold base64Digit, isBase64Char, isAlphaNum.
  destruct (i <? 26)%N eqn:C1.
  { apply N.ltb_lt in C1.
    assert (X : ((65 <=? 65 + i) && (65 + i <=? 90))%N = true)
      by (apply andb_true_iff; split; apply N.leb_le; lia).
    rewrite X. reflexivity. }
  apply N.ltb_ge in C1.
  destruct (i <? 52)%N eqn:C2.
  { apply N.ltb_lt in C2.
    assert (X : ((97 <=? 97 + (i - 26)) && (97 + (i - 26) <=? 122))%N = true)
      by (apply andb_true_iff; split; apply N.leb_le; lia).
    rewrite X, !orb_true_r. reflexivity. }
  apply N.ltb_ge in C2.
  destruct (i <? 62)%N eqn:C3.
  { apply N.ltb_lt in C3.
    assert (X : ((48 <=? 48 + (i - 52)) && (48 + (i - 52) <=? 57))%N = true)
      by (apply andb_true_iff; split; apply N.leb_le; lia).
    rewrite X, !orb_true_r. reflexivity. }
  destruct (i =? 62)%N; reflexivity.
Qed.

Lemma base64_chars : forall n bytes,
  List.length bytes <= n ->
  forallb isBase64Char (base64 bytes) = true
  /\ exists k, List.length (base64 bytes) = 4 * k.
Proof.
  induction n as [|n IH]; intros bytes LE.
  - destruct bytes; [|simpl in LE; lia]. split; [reflexivity|].
    exists 0. reflexivity.
  - destruct bytes as [|a [|b [|c rest]]].
    + split; [reflexivity | exists 0; reflexivity].
    + split; [|exists 1; reflexivity]. cbn [base64 forallb].
      rewrite !base64Digit_char. reflexivity.
    + split; [|exists 1; reflexivity]. cbn [base64 forallb].
      rewrite !base64Digit_char. reflexivity.
    + destruct (IH rest ltac:(simpl in LE; lia)) as [F [k K]]. split.
      * cbn [base64 app forallb]. rewrite !base64Digit_char, F. reflexivity.
      * exists (S k). cbn [base64 app List.length]. rewrite K. lia.
Qed.

Section Safety.
Context {H : Host}.

(** The names never reach the path of a request as they are: whatever the
    workspace, the store name and the layer name contain, the URL of the
    upload request and of the two layer requests is the server URL
    followed by the fixed segments and by what [encodeURIComponent] gives
    for the workspace, the store name and (in the update request) the
    layer name, each in its place; the encoded names hold unreserved
    characters and percent signs only, and so no slash, no question mark
    and no hash sign. *)
Theorem request_paths_are_encoded :
  forall geoserverUrl workspace storeName layerName nativeName zipPath
         authHeader (overwrite : bool) w,
  forallb isCodeUnit workspace = true ->
  forallb isCodeUnit storeName = true ->
  forallb isCodeUnit layerName = true ->
  (forall req,
     In req (fetches (trace (uploadDatastoreZip geoserverUrl workspace storeName
                               zipPath authHeader overwrite w))) ->
     exists ws store,
       encodeURIComponent workspace = Ok ws
       /\ encodeURIComponent storeName = Ok store
       /\ forallb isEncoded ws = true /\ forallb isEncoded store = true
       /\ url req
          = geoserverUrl ++ lit "/rest/workspaces/" ++ ws ++ lit "/datastores/"
            ++ store ++ lit "/file.shp?"
            ++ paramsToString (uploadParams overwrite))
  /\ (forall req,
        In req (fetches (trace (publishLayer geoserverUrl workspace storeName
                                  layerName nativeName authHeader overwrite w))) ->
        exists ws store,
          encodeURIComponent workspace = Ok ws
          /\ encodeURIComponent storeName = Ok store
          /\ forallb isEncoded ws = true /\ forallb isEncoded store = true
          /\ (url req
              = geoserverUrl ++ lit "/rest/workspaces/" ++ ws
                ++ lit "/datastores/" ++ store ++ lit "/featuretypes"
                ++ recalculate
              \/ exists layer,
                   encodeURIComponent layerName = Ok layer
                   /\ forallb isEncoded layer = true
                   /\ url req
                      = geoserverUrl ++ lit "/rest/workspaces/" ++ ws
                        ++ lit "/datastores/" ++ store ++ lit "/featuretypes/"
                        ++ layer ++ recalculate))
  /\ (forall c, isEncoded c = true -> c <> 47%N /\ c <> 63%N /\ c <> 35%N).
Proof.
  intros geoserverUrl workspace storeName layerName nativeName zipPath
         authHeader overwrite w UW US UL.
  split; [|split].
  - intros req. unfold uploadDatastoreZip.
    destruct (encodeURIComponent workspace) as [ws|] eqn:EW;
      [|run_monad; intros []].
    destruct (encodeURIComponent storeName) as [store|] eqn:ES;
      [|run_monad; intros []].
    pose proof (encodeURIComponent_encoded _ _ UW EW) as SW.
    pose proof (encodeURIComponent_encoded _ _ US ES) as SS.
    run_monad. split_calls; cbn [fetches]; intros I;
      repeat (destruct I as [I|I]; [subst req|]); try destruct I;
      exists ws, store;
      (split; [reflexivity|]); (split; [reflexivity|]);
      (split; [assumption|]); (split; [assumption|]); reflexivity.
  - intros req. unfold publishLayer.
    destruct (encodeURIComponent workspace) as [ws|] eqn:EW;
      [|run_monad; intros []].
    destruct (encodeURIComponent storeName) as [store|] eqn:ES;
      [|run_monad; intros []].
    pose proof (encodeURIComponent_encoded _ _ UW EW) as SW.
    pose proof (encodeURIComponent_encoded _ _ US ES) as SS.
    destruct (encodeURIComponent layerName) as [layer|] eqn:EL.
    + pose proof (encodeURIComponent_encoded _ _ UL EL) as SL.
      run_monad. split_calls; cbn [fetches]; intros I;
        repeat (destruct I as [I|I]; [subst req|]); try destruct I;
        exists ws, store;
        (split; [reflexivity|]); (split; [reflexivity|]);
        (split; [assumption|]); (split; [assumption|]);
        cbn [url];
        first [ left; reflexivity
              | right; exists layer;
                (split; [reflexivity|]); (split; [assumption|]); reflexivity ].
    + run_monad. split_calls; cbn [fetches]; intros I;
        repeat (destruct I as [I|I]; [subst req|]); try destruct I;
        exists ws, store;
        (split; [reflexivity|]); (split; [reflexivity|]);
        (split; [assumption|]); (split; [assumption|]);
        cbn [url]; left; reflexivity.
  - intros c E. repeat split; intros ->; discriminate E.
Qed.

(** The [Authorization] header is plain ASCII whatever the user name and
    the password contain: [Basic], a space, and base64 text whose length
    is a multiple of four. Both programs build it the same way. *)
Theorem authorization_is_base64 : forall username password,
  ListWfsUrls.buildAuthHeader username password
  = buildAuthHeader username password
  /\ exists token,
       buildAuthHeader username password = lit "Basic " ++ token
       /\ forallb isBase64Char token = true
       /\ exists k, List.length token = 4 * k.
Proof.
  intros username password. split; [reflexivity|].
  exists (base64 (utf8Bytes (username ++ lit ":" ++ password))).
  split; [reflexivity|].
  apply (base64_chars (List.length (utf8Bytes (username ++ lit ":" ++ password)))).
  lia.
Qed.

End Safety.

Section Reporting.
Context {H : Host}.

(** A layer that is skipped is reported as published: without the
    overwrite flag, when the upload succeeds and the create request is
    answered with status 409, the warning that the publish is skipped is
    followed by the notice that the layer is published, and nothing is
    thrown, so no failure is reported for the dataset. *)
Theorem skipped_layer_is_reported_published :
  forall o authHeader shpPath zipPath w w1 t ws store conflict w2,
  overwrite o = false ->
  uploadDatastoreZip (geoserverUrl o) (workspace o) (storeNameOf o shpPath)
                     zipPath authHeader (overwrite o) w
  = (Ok tt, w1, t) ->
  encodeURIComponent (workspace o) = Ok ws ->
  encodeURIComponent (storeNameOf o shpPath) = Ok store ->
  let post :=
    Request (geoserverUrl o ++ lit "/rest/workspaces/" ++ ws
             ++ lit "/datastores/" ++ store ++ lit "/featuretypes"
             ++ lit "?recalculate=nativebbox,latlonbbox")
            POST (jsonHeaders authHeader)
            (JsonBody (featurePayload (layerNameOf o shpPath)
                                      (nativeNameOf shpPath))) in
  http_fetch post w1 = (Ok conflict, w2) ->
  status conflict = 409%N ->
  uploadAndPublish o authHeader shpPath zipPath w
  = (Ok tt, w2,
     t ++ [Fetch post;
           ConsoleWarn (skipNotice (layerNameOf o shpPath) (workspace o));
           ConsoleLog (publishedNotice (layerNameOf o shpPath))])
  /\ reportOf o shpPath (outcome (uploadAndPublish o authHeader shpPath zipPath w))
     = [].
Proof.
  intros o authHeader shpPath zipPath w w1 t ws store conflict w2 OV U EW ES
         post F S.
  assert (P : publishLayer (geoserverUrl o) (workspace o) (storeNameOf o shpPath)
                (layerNameOf o shpPath) (nativeNameOf shpPath) authHeader
                (overwrite o) w1
              = (Ok tt, w2,
                 [Fetch post;
                  ConsoleWarn (skipNotice (layerNameOf o shpPath) (workspace o))])).
  { unfold publishLayer. rewrite EW, ES, OV. run_monad.
    change (geoserverUrl o ++ lit "/rest/workspaces/" ++ ws
            ++ lit "/datastores/" ++ store ++ lit "/featuretypes" ++ recalculate)
      with (url post).
    change (Request (url post) POST (jsonHeaders authHeader)
                    (JsonBody (featurePayload (layerNameOf o shpPath)
                                              (nativeNameOf shpPath))))
      with post.
    rewrite F. run_monad. unfold ok. rewrite S. reflexivity. }
  assert (R : uploadAndPublish o authHeader shpPath zipPath w
              = (Ok tt, w2,
                 t ++ [Fetch post;
                       ConsoleWarn (skipNotice (layerNameOf o shpPath)
                                               (workspace o));
                       ConsoleLog (publishedNotice (layerNameOf o shpPath))])).
  { unfold uploadAndPublish. cbv zeta.
    rewrite trace_bind_ok with (a := tt); [|rewrite U; reflexivity].
    rewrite U. open_trace.
    rewrite trace_bind_ok with (a := tt); [|rewrite P; reflexivity].
    rewrite P. open_trace. reflexivity. }
  split; [exact R|]. rewrite R. reflexivity.
Qed.

End Reporting.

End WorkflowFacts.

(* ================================================================== *)
(** ** More of the listing utility *)
(* ================================================================== *)

Module ListingMoreFacts.
Import JS Runtime ListWfsUrls ListingMain Observed JSFacts PublishFacts.
Local Open Scope js_scope.

Ltac split_calls :=
  repeat match goal with
         | |- context [match ?x with _ => _ end] =>
             lazymatch x with
             | context [match _ with _ => _ end] => fail
             | _ => destruct x eqn:?
             end
         end.

(** A property value that is a string and not the empty one. *)
Definition usable (v : option json) : bool :=
  match v with
  | Some (JString (_ :: _)) => true
  | _ => false
  end.

Definition unableToName : jsstring :=
  lit "Unable to determine layer name from feature type payload.".

Lemma existsb_middle : forall (x : N) a b,
  existsb (N.eqb x) (a ++ x :: b) = true.
Proof.
  intros x a b. rewrite existsb_app. simpl. rewrite N.eqb_refl.
  apply orb_true_iff. right. reflexivity.
Qed.

(** The last segment of [dir/segment] is [segment]. *)
Lemma lastSegment_app : forall dir segment,
  existsb (N.eqb 47) segment = false ->
  lastSegment (dir ++ lit "/" ++ segment) = segment.
Proof.
  intros dir segment NS. induction dir as [|c dir IH].
  - change ([] ++ lit "/" ++ segment) with (47%N :: segment).
    cbn [lastSegment]. rewrite NS, N.eqb_refl. reflexivity.
  - change ((c :: dir) ++ lit "/" ++ segment)
      with (c :: (dir ++ 47%N :: segment)).
    cbn [lastSegment]. rewrite existsb_middle. exact IH.
Qed.

(** A path with no slash in it is its own last segment. *)
Lemma lastSegment_plain : forall s,
  existsb (N.eqb 47) s = false -> lastSegment s = s.
Proof.
  intros [|c s] NS; [reflexivity|]. cbn [existsb lastSegment] in *.
  apply orb_false_iff in NS as [C NS]. rewrite NS.
  rewrite N.eqb_sym in C. rewrite C. reflexivity.
Qed.

(** [stem.ext] without its extension is [stem], dots of [stem] included. *)
Lemma withoutExtension_app : forall stem ext,
  existsb (N.eqb 46) ext = false ->
  ext <> [] ->
  withoutExtension (stem ++ lit "." ++ ext) = stem.
Proof.
  intros stem ext ND NE. induction stem as [|c stem IH].
  - change ([] ++ lit "." ++ ext) with (46%N :: ext).
    cbn [withoutExtension]. rewrite ND, N.eqb_refl.
    apply truthy_nonempty in NE. rewrite NE. reflexivity.
  - change ((c :: stem) ++ lit "." ++ ext) with (c :: (stem ++ 46%N :: ext)).
    cbn [withoutExtension]. rewrite existsb_middle.
    rewrite andb_false_r. cbn [andb]. f_equal. exact IH.
Qed.

(** A name that ends in a dot, or has no dot, keeps its form. *)
Lemma withoutExtension_plain : forall s,
  existsb (N.eqb 46) s = false -> withoutExtension s = s.
Proof.
  induction s as [|c s IH]; intros ND; [reflexivity|].
  cbn [existsb withoutExtension] in *. apply orb_false_iff in ND as [C ND].
  rewrite N.eqb_sym in C. rewrite C. cbn [andb]. f_equal. apply IH. exact ND.
Qed.

Lemma mapR_ok : forall (A B : Type) (f : A -> result B) l bs,
  mapR f l = Ok bs -> Forall2 (fun a b => f a = Ok b) l bs.
Proof.
  intros A B f. induction l as [|a l IH]; intros bs M; simpl in M.
  - injection M as <-. constructor.
  - unfold bindR in M. destruct (f a) as [b|e] eqn:Fa; [|discriminate].
    destruct (mapR f l) as [bs'|e]; [|discriminate].
    injection M as <-. constructor; [exact Fa | apply IH; reflexivity].
Qed.

Lemma mapR_throw : forall (A B : Type) (f : A -> result B) l a e,
  In a l -> f a = Throw e -> exists e', mapR f l = Throw e'.
Proof.
  intros A B f. induction l as [|x l IH]; intros a e I Fa; [destruct I|].
  simpl. unfold bindR. destruct I as [->|I].
  - rewrite Fa. eexists. reflexivity.
  - destruct (f x) as [b|e1]; [|eexists; reflexivity].
    destruct (IH a e I Fa) as [e' ->]. eexists. reflexivity.
Qed.

Section Listing.
Context {H : Host}.

(** Where the name of a layer comes from. Reading [name] of [null]
    throws. A [name] that is a non-empty string is the layer name, whatever
    [href] holds. Otherwise an [href] that is a non-empty string whose
    path is [dir/stem.ext] gives the decoded [stem], dots of [stem]
    included, and fails when [stem] is empty. With neither, the function
    throws. *)
Theorem layer_name_sources : forall featureType,
  extractLayerName JNull = Throw (cannotReadNull (lit "name"))
  /\ (forall name,
        getProp featureType (lit "name") = Some (JString name) ->
        name <> [] ->
        extractLayerName featureType = Ok name)
  /\ (forall href dir stem ext,
        featureType <> JNull ->
        usable (getProp featureType (lit "name")) = false ->
        getProp featureType (lit "href") = Some (JString href) ->
        href <> [] ->
        URL_pathname href = Ok (dir ++ lit "/" ++ stem ++ lit "." ++ ext) ->
        existsb (N.eqb 47) (stem ++ lit "." ++ ext) = false ->
        existsb (N.eqb 46) ext = false ->
        ext <> [] ->
        extractLayerName featureType
        = if truthy stem then decodeURIComponent stem else Throw unableToName)
  /\ (featureType <> JNull ->
      usable (getProp featureType (lit "name")) = false ->
      usable (getProp featureType (lit "href")) = false ->
      extractLayerName featureType = Throw unableToName).
Proof.
  intros featureType. split; [reflexivity|]. split; [|split].
  - intros name G NE. unfold extractLayerName, readProp, bindR.
    destruct featureType; try discriminate G.
    rewrite G. destruct name; [congruence | reflexivity].
  - intros href dir stem ext NN UN G NE P NS ND NEX.
    unfold extractLayerName, readProp, bindR.
    assert (R : (match featureType with
                 | JNull => Throw (cannotReadNull (lit "name"))
                 | _ => Ok (getProp featureType (lit "name"))
                 end) = Ok (getProp featureType (lit "name")))
      by (destruct featureType; congruence).
    rewrite R. clear R.
    destruct (getProp featureType (lit "name")) as [[| | |[|c n]| |]|];
      try discriminate UN;
      rewrite G; destruct href as [|h0 href]; try congruence;
      rewrite P, (lastSegment_app dir _ NS), (withoutExtension_app stem ext ND NEX);
      reflexivity.
  - intros NN UN UH. unfold extractLayerName, readProp, bindR.
    assert (R : (match featureType with
                 | JNull => Throw (cannotReadNull (lit "name"))
                 | _ => Ok (getProp featureType (lit "name"))
                 end) = Ok (getProp featureType (lit "name")))
      by (destruct featureType; congruence).
    rewrite R. clear R.
    destruct (getProp featureType (lit "name")) as [[| | |[|c n]| |]|];
      try discriminate UN;
      destruct (getProp featureType (lit "href")) as [[| | |[|c' h]| |]|];
      try discriminate UH; reflexivity.
Qed.

Lemma toEntry_ok : forall geoserverUrl workspace maxFeatures featureType e,
  toEntry geoserverUrl workspace maxFeatures featureType = Ok e ->
  exists name,
    extractLayerName featureType = Ok name
    /\ layer e = workspace ++ lit ":" ++ name
    /\ buildWfsUrl geoserverUrl workspace name maxFeatures = Ok (wfsUrl e).
Proof.
  intros geoserverUrl workspace maxFeatures featureType e T.
  unfold toEntry, bindR in T.
  destruct (extractLayerName featureType) as [name|] eqn:X; [|discriminate].
  destruct (buildWfsUrl geoserverUrl workspace name maxFeatures) as [u|] eqn:B;
    [|discriminate].
  injection T as <-. exists name. repeat split. exact B.
Qed.

Lemma getPublished_listed :
  forall geoserverUrl workspace username password maxFeatures w featureTypes w1 t,
  fetchFeatureTypes geoserverUrl workspace (buildAuthHeader username password) w
  = (Ok featureTypes, w1, t) ->
  getPublishedShapeWfsUrls geoserverUrl workspace username password maxFeatures w
  = (mapR (toEntry geoserverUrl workspace maxFeatures) featureTypes, w1, t).
Proof.
  intros geoserverUrl workspace username password maxFeatures w featureTypes
         w1 t F.
  unfold getPublishedShapeWfsUrls. cbv zeta. run_monad. rewrite F.
  rewrite app_nil_r. reflexivity.
Qed.

(** The listing is all or nothing: when it returns, it has one entry for
    each feature type, in the same order, named [workspace:layer] with
    the layer name extracted from that feature type; and one feature type
    whose name cannot be determined makes the whole listing fail. *)
Theorem listing_is_all_or_nothing :
  forall geoserverUrl workspace username password maxFeatures w featureTypes w1 t,
  fetchFeatureTypes geoserverUrl workspace (buildAuthHeader username password) w
  = (Ok featureTypes, w1, t) ->
  let listed :=
    getPublishedShapeWfsUrls geoserverUrl workspace username password
                             maxFeatures w in
  trace listed = t
  /\ (forall entries,
        outcome listed = Ok entries ->
        Forall2 (fun featureType e =>
                   exists name,
                     extractLayerName featureType = Ok name
                     /\ layer e = workspace ++ lit ":" ++ name
                     /\ buildWfsUrl geoserverUrl workspace name maxFeatures
                        = Ok (wfsUrl e))
                featureTypes entries)
  /\ (forall featureType e,
        In featureType featureTypes ->
        extractLayerName featureType = Throw e ->
        exists e', outcome listed = Throw e').
Proof.
  intros geoserverUrl workspace username password maxFeatures w featureTypes
         w1 t F listed.
  subst listed.
  rewrite (getPublished_listed geoserverUrl workspace username password
             maxFeatures w featureTypes w1 t F).
  unfold trace, outcome. cbn [fst snd]. split; [reflexivity|]. split.
  - intros entries M. apply mapR_ok in M. clear F.
    induction M as [|ft e fts es T _ IH]; [constructor|].
    constructor; [|exact IH].
    apply (toEntry_ok geoserverUrl workspace maxFeatures). exact T.
  - intros featureType e I X.
    apply (mapR_throw _ _ (toEntry geoserverUrl workspace maxFeatures)
             featureTypes featureType e I).
    unfold toEntry, bindR. rewrite X. reflexivity.
Qed.

(** The listing utility only reads: it sends at most one request, a GET
    without a body. *)
Theorem listing_is_read_only :
  forall geoserverUrl workspace username password maxFeatures w,
  let sent :=
    fetches (trace (getPublishedShapeWfsUrls geoserverUrl workspace username
                                             password maxFeatures w)) in
  sent = []
  \/ exists req, sent = [req] /\ method req = GET /\ body req = NoBody.
Proof.
  intros geoserverUrl workspace username password maxFeatures w sent.
  subst sent. unfold getPublishedShapeWfsUrls, fetchFeatureTypes. cbv zeta.
  run_monad. split_calls; cbn [fetches app];
    solve [ left; reflexivity
          | right; eexists; repeat split; reflexivity ].
Qed.

Section Main.
Variable JSON_stringify : outValue -> option N -> jsstring.

(** What [main] prints. When the listing succeeds it prints one line, the
    report in JSON, indented with [--pretty]. When [parseArgs] or the
    listing fails it prints nothing and does not set the exit code: the
    [catch] block throws, and [main] rejects with the [ReferenceError]
    instead of the error. *)
Theorem listing_main_outcomes : forall w,
  (forall o entries w1 t,
     getPublishedShapeWfsUrls (geoserverUrl o) (workspace o) (username o)
                              (password o) (maxFeatures o) w
     = (Ok entries, w1, t) ->
     main JSON_stringify (Ok o) w
     = (Ok tt, w1,
        t ++ [ConsoleLog
                (JSON_stringify
                   (match entries with
                    | [] => emptyReport (workspace o)
                    | _ :: _ => foundReport entries
                    end)
                   (if pretty o then Some 2%N else None))]))
  /\ (forall e,
        main JSON_stringify (Throw e) w
        = (Throw (lit "options is not defined"), w, []))
  /\ (forall o e w1 t,
        getPublishedShapeWfsUrls (geoserverUrl o) (workspace o) (username o)
                                 (password o) (maxFeatures o) w
        = (Throw e, w1, t) ->
        main JSON_stringify (Ok o) w
        = (Throw (lit "options is not defined"), w1, t)).
Proof.
  intros w. split; [|split].
  - intros o entries w1 t G. unfold main, report, printJson. run_monad.
    rewrite G. destruct entries; cbn [List.length Nat.eqb]; run_monad;
      rewrite ?app_nil_r; reflexivity.
  - intros e. reflexivity.
  - intros o e w1 t G. unfold main, report. run_monad. rewrite G.
    rewrite ?app_nil_r. reflexivity.
Qed.

End Main.

End Listing.

End ListingMoreFacts.

(* ================================================================== *)
(** ** Runs of the further properties on the host that can fail *)
(* ================================================================== *)

Module MoreRuns.
Import JS Runtime Sample Faulty Observed.

(** [--workspace topo --overwrite] with the URL, the user and the password
    from the environment; the two slashes that end the URL are gone. *)
Lemma parseArgs_settings_run :
  Cli.parseArgs cwd join lakeEnvironment lakeArguments = Ok lakeParsed
  /\ BatchPublish.workspace lakeParsed <> []
  /\ forall front, gs <> front ++ lit "/".
Proof.
  destruct (CliFacts.parseArgs_settings cwd join lakeEnvironment lakeArguments
              lakeParsed eq_refl) as [W [_ [_ [U _]]]].
  split; [reflexivity|]. split; [exact W | exact U].
Defined.

(** The workspace given twice: the second value is kept. *)
Lemma parseLoop_sequence_run :
  Cli.parseLoop cwd join (map lit ["--workspace"; "topo"]%string)
                (Cli.defaults cwd join lakeEnvironment) = Ok lakeDraft
  /\ exists d,
       Cli.parseLoop cwd join
         (map lit ["--workspace"; "topo"]%string
          ++ map lit ["--workspace"; "hydro"]%string)
         (Cli.defaults cwd join lakeEnvironment) = Ok d
       /\ Cli.draftWorkspace d = Some (lit "hydro").
Proof.
  split; [reflexivity|].
  refine (proj2 (proj2
    (CliFacts.parseLoop_sequence cwd join
       (map lit ["--workspace"; "topo"]%string)
       (Cli.defaults cwd join lakeEnvironment) lakeDraft eq_refl))
    (lit "hydro") _ eq_refl).
  discriminate.
Defined.

(** The root directory is missing; a directory below it cannot be read;
    the temporary directory cannot be made. *)
Lemma startup_failure_is_fatal_run :
  BatchPublish.main (H := faultyHost) (Ok (sampleOptions false))
    (faultyWorldOf (Faults true false false false) (Ok lakeTree)
                   (Ok lakeSiblings) true [])
  = (Ok tt,
     faultyWorldOf (Faults true false false false) (Ok lakeTree)
                   (Ok lakeSiblings) true [],
     [Access (lit "/data");
      ConsoleError (lit "ENOENT: no such file or directory");
      SetExitCode 1])
  /\ BatchPublish.main (H := faultyHost) (Ok (sampleOptions false))
       (faultyWorldOf noFaults
          (Ok [EntFile (lit "lake.shp"); EntDir (lit "old") (Throw unreadable)])
          (Ok lakeSiblings) true [])
     = (Ok tt,
        faultyWorldOf noFaults
          (Ok [EntFile (lit "lake.shp"); EntDir (lit "old") (Throw unreadable)])
          (Ok lakeSiblings) true [],
        [Access (lit "/data"); ReaddirTypes (lit "/data");
         ReaddirTypes (lit "/data/old");
         ConsoleError unreadable; SetExitCode 1])
  /\ BatchPublish.main (H := faultyHost) (Ok (sampleOptions false))
       (faultyWorldOf (Faults false true false false) (Ok lakeTree)
                      (Ok lakeSiblings) true [])
     = (Ok tt,
        faultyWorldOf (Faults false true false false) (Ok lakeTree)
                      (Ok lakeSiblings) true [],
        [Access (lit "/data"); ReaddirTypes (lit "/data");
         ReaddirTypes (lit "/data/old");
         Mkdtemp (lit "/tmp/geoserver-shp-");
         ConsoleError (lit "EACCES: permission denied"); SetExitCode 1]).
Proof.
  split; [|split].
  - exact (proj1 (proj2 (WorkflowFacts.startup_failure_is_fatal (H := faultyHost)
                           (faultyWorldOf (Faults true false false false)
                              (Ok lakeTree) (Ok lakeSiblings) true [])))
                 (sampleOptions false) _ _ eq_refl).
  - exact (proj1 (proj1 (proj2 (proj2
             (WorkflowFacts.startup_failure_is_fatal (H := faultyHost)
                (faultyWorldOf noFaults
                   (Ok [EntFile (lit "lake.shp");
                        EntDir (lit "old") (Throw unreadable)])
                   (Ok lakeSiblings) true []))))
             (sampleOptions false) _ unreadable _
             [ReaddirTypes (lit "/data"); ReaddirTypes (lit "/data/old")]
             eq_refl eq_refl)).
  - refine (proj2 (proj2 (proj2
             (WorkflowFacts.startup_failure_is_fatal (H := faultyHost)
                (faultyWorldOf (Faults false true false false) (Ok lakeTree)
                               (Ok lakeSiblings) true []))))
             (sampleOptions false) _
             (map lit ["/data/lake.shp"; "/data/old/ROADS.SHP"]%string) _
             [ReaddirTypes (lit "/data"); ReaddirTypes (lit "/data/old")]
             _ _ eq_refl eq_refl _ eq_refl).
    discriminate.
Defined.

(** Two datasets, the upload of the first answered with 500 and the
    second without its side files: two reports, a normal end. *)
Lemma item_failures_are_not_fatal_run :
  outcome (BatchPublish.main (H := faultyHost) (Ok (sampleOptions false))
             (lakeWorld [broken])) = Ok tt
  /\ forall code,
       ~ In (SetExitCode code)
            (trace (BatchPublish.main (H := faultyHost)
                      (Ok (sampleOptions false)) (lakeWorld [broken]))).
Proof.
  refine (let P := WorkflowFacts.item_failures_are_not_fatal (H := faultyHost)
                     (sampleOptions false) (lakeWorld [broken])
                     (lakeWorld [broken])
                     (map lit ["/data/lake.shp"; "/data/old/ROADS.SHP"]%string)
                     (lakeWorld [broken])
                     [ReaddirTypes (lit "/data"); ReaddirTypes (lit "/data/old")]
                     lakeTemp (lakeWorld [broken])
                     eq_refl eq_refl _ eq_refl in
          conj (proj1 P) (proj1 (proj2 P))).
  discriminate.
Defined.

(** The directory of [lake.shp] holds the three mandatory files. *)
Lemma gatherComponents_succeeds_iff_run :
  outcome (BatchPublish.gatherComponents (H := faultyHost) lakePath
             (lakeWorld [])) = Ok lakeComponents
  /\ forall ext,
       In ext BatchPublish.required ->
       BatchPublish.hasExtension (H := faultyHost) lakeComponents ext.
Proof.
  split; [reflexivity|].
  exact (proj1 (proj1 (WorkflowFacts.gatherComponents_succeeds_iff
                         (H := faultyHost) lakePath (lakeWorld [])
                         lakeSiblings (lakeWorld []) eq_refl)) eq_refl).
Defined.

(** The create request answered with 500, with the overwrite flag set:
    one request and the error. *)
Lemma publish_without_conflict_run :
  BatchPublish.publishLayer (H := faultyHost) gs (lit "topo") (lit "lake")
    (lit "L_lake") (lit "lake") basic true (lakeWorld [broken])
  = (Throw (lit "Failed to publish layer " ++ quoted (lit "L_lake")
            ++ lit ". Status 500 Server Error. Response: boom"),
     lakeWorld [], [Fetch (lakePost (lit "L_lake") (lit "lake"))]).
Proof.
  refine (WorkflowFacts.publish_without_conflict (H := faultyHost) gs
            (lit "topo") (lit "lake") (lit "L_lake") (lit "lake") basic true
            (lakeWorld [broken]) (lit "topo") (lit "lake") (Ok broken)
            (lakeWorld []) eq_refl eq_refl eq_refl _).
  discriminate.
Defined.

(** The upload answered with 500: no create request, the report, the
    bundle removed. *)
Lemma failed_upload_blocks_publish_run :
  fetches (trace (BatchPublish.publishStage (H := faultyHost)
                    (sampleOptions false) basic lakePath lakeZip
                    (lakeWorld [broken; created])))
  = fetches (trace (BatchPublish.uploadDatastoreZip (H := faultyHost) gs
                      (lit "topo") (lit "lake") lakeZip basic false
                      (lakeWorld [broken; created])))
  /\ trace (BatchPublish.publishStage (H := faultyHost)
              (sampleOptions false) basic lakePath lakeZip
              (lakeWorld [broken; created]))
     = trace (BatchPublish.uploadDatastoreZip (H := faultyHost) gs
                (lit "topo") (lit "lake") lakeZip basic false
                (lakeWorld [broken; created]))
       ++ [ConsoleError
             (BatchPublish.failedNotice (lit "lake.shp")
                (BatchPublish.uploadFailedMessage (lit "lake") broken (lit "boom")));
           Rm lakeZip false true].
Proof.
  split; [reflexivity|].
  refine (proj1 (proj2 (proj2
    (WorkflowFacts.failed_upload_blocks_publish (H := faultyHost)
       (sampleOptions false) basic lakePath lakeZip
       (lakeWorld [broken; created])
       (BatchPublish.uploadFailedMessage (lit "lake") broken (lit "boom"))
       (lakeWorld [created])
       (trace (BatchPublish.uploadDatastoreZip (H := faultyHost) gs
                 (lit "topo") (lit "lake") lakeZip basic false
                 (lakeWorld [broken; created])))
       eq_refl _)))).
  discriminate.
Defined.

(** A directory that cannot be listed, then an archiver that is not
    installed: the dataset is reported and nothing is sent. *)
Lemma stage_failure_is_isolated_run :
  BatchPublish.processAll (H := faultyHost) (sampleOptions false) basic
    lakeTemp [lakePath]
    (faultyWorldOf noFaults (Ok lakeTree) (Throw unreadable) true [created])
  = (Ok tt,
     faultyWorldOf noFaults (Ok lakeTree) (Throw unreadable) true [created],
     [ConsoleLog (BatchPublish.processingNotice (lit "lake.shp") (lit "lake")
                                                (lit "L_lake"));
      Readdir (lit "/data");
      ConsoleError (BatchPublish.skippingNotice (lit "lake.shp") unreadable)])
  /\ fetches (trace (BatchPublish.processAll (H := faultyHost)
                       (sampleOptions false) basic lakeTemp [lakePath]
                       (faultyWorldOf noFaults (Ok lakeTree) (Ok lakeSiblings)
                                      false [created])))
     = [].
Proof.
  split.
  - exact (proj1 (WorkflowFacts.stage_failure_is_isolated (H := faultyHost)
                    (sampleOptions false) basic lakeTemp lakePath []
                    (faultyWorldOf noFaults (Ok lakeTree) (Throw unreadable)
                                   true [created]))
                 unreadable _ eq_refl).
  - pose proof (proj2 (WorkflowFacts.stage_failure_is_isolated (H := faultyHost)
                         (sampleOptions false) basic lakeTemp lakePath []
                         (faultyWorldOf noFaults (Ok lakeTree) (Ok lakeSiblings)
                                        false [created]))
                      lakeComponents _ [Readdir (lit "/data")]
                      (lit "spawn zip ENOENT")
                      (noFaults,
                       SampleWorld (Ok lakeTree) (Ok lakeSiblings) false
                                   [created] 1701)
                      [DateNow; Mkdir lakeTemp true; Rm lakeZip false true;
                       ExecFile (lit "zip") (lit "-j" :: lakeZip :: lakeComponents)
                                (lit "/")]
                      eq_refl eq_refl) as [R _].
    rewrite R. reflexivity.
Defined.

(** A stale bundle that cannot be removed does not stop the packaging; a
    temporary directory that cannot be made does. *)
Lemma createZip_steps_run :
  BatchPublish.createZip (H := faultyHost) lakeComponents lakeTemp
    (lit "lake-1700")
    (faultyWorldOf (Faults false false false true) (Ok lakeTree)
                   (Ok lakeSiblings) true [])
  = (Ok lakeZip,
     faultyWorldOf (Faults false false false true) (Ok lakeTree)
                   (Ok lakeSiblings) true [],
     [Mkdir lakeTemp true; Rm lakeZip false true;
      ExecFile (lit "zip") (lit "-j" :: lakeZip :: lakeComponents) (lit "/")])
  /\ BatchPublish.createZip (H := faultyHost) lakeComponents lakeTemp
       (lit "lake-1700")
       (faultyWorldOf (Faults false false true false) (Ok lakeTree)
                      (Ok lakeSiblings) true [])
     = (Throw (lit "EACCES: permission denied"),
        faultyWorldOf (Faults false false true false) (Ok lakeTree)
                      (Ok lakeSiblings) true [],
        [Mkdir lakeTemp true]).
Proof.
  split.
  - exact (proj2 (WorkflowFacts.createZip_steps (H := faultyHost)
                    lakeComponents lakeTemp (lit "lake-1700")
                    (faultyWorldOf (Faults false false false true)
                       (Ok lakeTree) (Ok lakeSiblings) true []))
                 _ (Throw (lit "EPERM: operation not permitted")) _ (Ok tt) _
                 eq_refl eq_refl eq_refl).
  - exact (proj1 (WorkflowFacts.createZip_steps (H := faultyHost)
                    lakeComponents lakeTemp (lit "lake-1700")
                    (faultyWorldOf (Faults false false true false)
                       (Ok lakeTree) (Ok lakeSiblings) true []))
                 _ _ eq_refl).
Defined.

(** The tree of [lakeTree]: the shapefile at the root and the one in upper
    case below it are found, the link named [link.shp] is not. *)
Lemma discovery_finds_shapefiles_run :
  exists found,
    outcome (BatchPublish.collectShapefiles (H := faultyHost) (lit "/data")
               (lakeWorld [])) = Ok found
    /\ forall path,
         In path found <-> foundIn (H := faultyHost) (lit "/data") lakeTree path.
Proof.
  exact (WorkflowFacts.discovery_finds_shapefiles (H := faultyHost)
           (lit "/data") (lakeWorld []) lakeTree (lakeWorld []) eq_refl).
Defined.

(** A workspace and a store named with a slash, a blank and a question
    mark: the upload goes to a path that holds none of them. *)
Lemma request_paths_are_encoded_run :
  encodeURIComponent (lit "a/b c") = Ok (lit "a%2Fb%20c")
  /\ encodeURIComponent (lit "st?1") = Ok (lit "st%3F1")
  /\ exists ws store,
       encodeURIComponent (lit "a/b c") = Ok ws
       /\ encodeURIComponent (lit "st?1") = Ok store
       /\ forallb isEncoded ws = true /\ forallb isEncoded store = true
       /\ lit "http://gs/geoserver/rest/workspaces/a%2Fb%20c/datastores/st%3F1/file.shp?charset=UTF-8&configure=none"
          = gs ++ lit "/rest/workspaces/" ++ ws ++ lit "/datastores/" ++ store
            ++ lit "/file.shp?"
            ++ paramsToString (BatchPublish.uploadParams false).
Proof.
  split; [reflexivity|]. split; [reflexivity|].
  exact (proj1 (WorkflowFacts.request_paths_are_encoded (H := faultyHost) gs
                  (lit "a/b c") (lit "st?1") (lit "L 1") (lit "lake") lakeZip
                  basic false (lakeWorld [created]) eq_refl eq_refl eq_refl)
               (hd listing
                   (fetches (trace (BatchPublish.uploadDatastoreZip
                                      (H := faultyHost) gs (lit "a/b c")
                                      (lit "st?1") lakeZip basic false
                                      (lakeWorld [created])))))
               (or_introl eq_refl)).
Defined.

(** A feature type with an [href] and no [name]: the layer is named by the
    last segment without its extension, the dot of [my.lake] kept. *)
Lemma layer_name_sources_run :
  ListWfsUrls.extractLayerName (H := faultyHost) lakeHref = Ok (lit "my.lake").
Proof.
  refine (proj1 (proj2 (proj2
    (ListingMoreFacts.layer_name_sources (H := faultyHost) lakeHref)))
    (lit "http://gs/geoserver/rest/workspaces/topo/datastores/lake/featuretypes/my.lake.json")
    (lit "/geoserver/rest/workspaces/topo/datastores/lake/featuretypes")
    (lit "my.lake") (lit "json")
    _ eq_refl eq_refl _ eq_refl eq_refl eq_refl _); discriminate.
Defined.

(** Two feature types listed by the server: two entries in that order. *)
Lemma listing_is_all_or_nothing_run :
  exists first second,
    outcome (ListWfsUrls.getPublishedShapeWfsUrls (H := faultyHost) gs
               (lit "topo") (lit "admin") (lit "geoserver") 1000%float
               (lakeWorld [layersListing])) = Ok [first; second]
    /\ Forall2 (fun featureType e =>
                  exists name,
                    ListWfsUrls.extractLayerName (H := faultyHost) featureType
                    = Ok name
                    /\ ListWfsUrls.layer e = lit "topo" ++ lit ":" ++ name
                    /\ ListWfsUrls.buildWfsUrl (H := faultyHost) gs (lit "topo")
                                               name 1000%float
                       = Ok (ListWfsUrls.wfsUrl e))
               [JObject [(lit "name", JString (lit "lake"))];
                JObject [(lit "name", JString (lit "roads"));
                         (lit "title", JString (lit "Roads"))]]
               [first; second]
    /\ ListWfsUrls.layer first = lit "topo:lake"
    /\ ListWfsUrls.layer second = lit "topo:roads".
Proof.
  eexists. eexists. split; [reflexivity|].
  split; [|split; reflexivity].
  exact (proj1 (proj2 (ListingMoreFacts.listing_is_all_or_nothing
                         (H := faultyHost) gs (lit "topo") (lit "admin")
                         (lit "geoserver") 1000%float (lakeWorld [layersListing])
                         [JObject [(lit "name", JString (lit "lake"))];
                          JObject [(lit "name", JString (lit "roads"));
                                   (lit "title", JString (lit "Roads"))]]
                         (lakeWorld []) [Fetch listing] eq_refl))
               _ eq_refl).
Defined.

(** An unknown workspace: one line with the empty report. A server error:
    nothing printed, the [ReferenceError] instead of the error. *)
Lemma listing_main_outcomes_run :
  ListingMain.main (H := faultyHost) stringify (Ok lakeOptions)
    (lakeWorld [notFound])
  = (Ok tt, lakeWorld [],
     [Fetch listing;
      ConsoleLog (stringify (ListingMain.emptyReport (lit "topo")) None)])
  /\ ListingMain.main (H := faultyHost) stringify (Ok lakeOptions)
       (lakeWorld [broken])
     = (Throw (lit "options is not defined"), lakeWorld [], [Fetch listing]).
Proof.
  split.
  - exact (proj1 (ListingMoreFacts.listing_main_outcomes (H := faultyHost)
                    stringify (lakeWorld [notFound]))
                 lakeOptions [] (lakeWorld []) [Fetch listing] eq_refl).
  - exact (proj2 (proj2 (ListingMoreFacts.listing_main_outcomes
                           (H := faultyHost) stringify (lakeWorld [broken])))
                 lakeOptions _ (lakeWorld []) [Fetch listing] eq_refl).
Defined.

(** The store is uploaded and the layer exists already: the warning, then
    the notice that the layer is published. *)
Lemma skipped_layer_is_reported_published_run :
  BatchPublish.uploadAndPublish (H := faultyHost) (sampleOptions false) basic
    lakePath lakeZip (lakeWorld [created; conflict])
  = (Ok tt, lakeWorld [],
     trace (BatchPublish.uploadDatastoreZip (H := faultyHost) gs (lit "topo")
              (lit "lake") lakeZip basic false (lakeWorld [created; conflict]))
     ++ [Fetch (lakePost (lit "L_lake") (lit "lake"));
         ConsoleWarn (BatchPublish.skipNotice (lit "L_lake") (lit "topo"));
         ConsoleLog (BatchPublish.publishedNotice (lit "L_lake"))]).
Proof.
  exact (proj1 (WorkflowFacts.skipped_layer_is_reported_published
                  (H := faultyHost) (sampleOptions false) basic lakePath lakeZip
                  (lakeWorld [created; conflict]) (lakeWorld [conflict])
                  (trace (BatchPublish.uploadDatastoreZip (H := faultyHost) gs
                            (lit "topo") (lit "lake") lakeZip basic false
                            (lakeWorld [created; conflict])))
                  (lit "topo") (lit "lake") conflict (lakeWorld [])
                  eq_refl eq_refl eq_refl eq_refl eq_refl eq_refl)).
Defined.

End MoreRuns.
